(** * raptor_dbw_can: the drive-by-wire CAN bridge, embedded in Rocq

    A shallow embedding of [raptor_dbw_can/src/raptor_dbw_can.cpp]: the
    enable / fault / override arbitration, the command encoders, the report
    decoders, the fail-safe timer and the wheel kinematics, with the
    properties of the written specification stated and proved over it.

    Conventions.
    - Handlers are written in a state-and-output monad [M]: a handler takes
      the node state and returns the new state together with the list of
      things it published or asked the logger to print, in program order.
    - [double] and [float] values are rationals ([Q]): every finite
      floating-point number is one, and the arithmetic the properties below
      depend on (halving, rounding to an integer, comparing, subtracting
      whole seconds) is exact on the values they use.
    - The boolean arrays [enables_], [overrides_] and [faults_] are lists
      read and written by index.
    - [dbwDbc_] maps a message name to the current value of each of its
      signals. [GetMessage] returns a pointer into that table, so a signal
      keeps its value from one handler call to the next until some handler
      sets it again. *)

From Stdlib Require Import QArith Qround Qabs.
From stdpp Require Import gmap strings list fin_maps.

(** ** Values *)

(** [x ? true : false] on a [double], and the implicit [double] to [bool]
    conversion. *)
Definition truthy (x : Q) : bool := negb (Qeq_bool x 0).

(** [bool] passed where [SetResult] takes a [double]. *)
Definition of_bool (b : bool) : Q := if b then 1%Q else 0%Q.

(** [a < b] on doubles. *)
Definition Qltb (a b : Q) : bool := negb (Qle_bool b a).

(** [std::max] and [std::min]: the first argument unless the comparison
    picks the second. *)
Definition std_max (a b : Q) : Q := if Qltb a b then b else a.
Definition std_min (a b : Q) : Q := if Qltb b a then b else a.

(** Conversion of a floating-point value to an integer type: the
    fractional part is discarded. *)
Definition Qtrunc (x : Q) : Z := if Qle_bool 0 x then Qfloor x else Qceiling x.

(** [roundf]: to the nearest integer, halfway cases away from zero. *)
Definition roundf (x : Q) : Q :=
  inject_Z (if Qle_bool 0 x then Qfloor (x + (1 # 2)) else Qceiling (x - (1 # 2)))%Q.

(** [fmod]: the remainder of [x / y] with the quotient truncated. *)
Definition fmod (x y : Q) : Q := (x - inject_Z (Qtrunc (x / y)) * y)%Q.

(** [M_PI], the double nearest to pi. *)
Definition M_PI : Q := (884279719003555 # 281474976710656)%Q.

(** [builtin_interfaces::msg::Time]. *)
Record Stamp := { sec : Z; nanosec : Z }.

(** [rclcpp::Time::seconds()]. *)
Definition seconds (t : Stamp) : Q :=
  (inject_Z (sec t) + inject_Z (nanosec t) / inject_Z 1000000000)%Q.

(** ** Enumerations of [raptor_dbw_can.hpp] *)

(** Modelled from the spec: [enum ListEnables] is declared in
    raptor_dbw_can.hpp, which is not among the sources. Section 3,
    EnabledState: the pair of [active] and [lastPublished]. *)
Definition EN_DBW : nat := 0.
Definition EN_DBW_PREV : nat := 1.
Definition NUM_ENABLES : nat := 2.

(** Modelled from the spec: [enum ListFaults] is declared in
    raptor_dbw_can.hpp, which is not among the sources. Section 3, FaultId:
    one entry per safety-relevant subsystem (accelerator pedal, brake,
    steering, action, articulation, dump bed, engine) and the watchdog
    entries Watchdog, WatchdogBraking, WatchdogWarning. The serious faults
    are the ones [setFault] accepts and [enableSystem] walks through,
    [FAULT_ACCEL] up to [NUM_SERIOUS_FAULTS]; the two remaining watchdog
    bits are only written by [faultWatchdog]. *)
Definition FAULT_ACCEL : nat := 0.
Definition FAULT_BRAKE : nat := 1.
Definition FAULT_STEER : nat := 2.
Definition FAULT_WATCH : nat := 3.
Definition FAULT_ACTION : nat := 4.
Definition FAULT_ARTIC : nat := 5.
Definition FAULT_DUMP_BED : nat := 6.
Definition FAULT_ENGINE : nat := 7.
Definition NUM_SERIOUS_FAULTS : nat := 8.
Definition FAULT_WATCH_BRAKES : nat := 8.
Definition FAULT_WATCH_WARN : nat := 9.
Definition NUM_FAULTS : nat := 10.

(** Modelled from the spec: [enum ListOverrides] is declared in
    raptor_dbw_can.hpp, which is not among the sources. Section 3,
    SubsystemId; the entries are the subsystems [setOverride] is called for
    and [timerCallback] looks at. *)
Definition OVR_ACCEL : nat := 0.
Definition OVR_BRAKE : nat := 1.
Definition OVR_STEER : nat := 2.
Definition OVR_GEAR : nat := 3.
Definition OVR_DUMP_BED : nat := 4.
Definition OVR_ENGINE : nat := 5.
Definition NUM_OVERRIDES : nat := 6.

(** Modelled from the spec: [enum ListJoints] is declared in
    raptor_dbw_can.hpp, which is not among the sources. Section 3,
    JointState: four wheels, then two steer joints. *)
Definition JOINT_FL : nat := 0.
Definition JOINT_FR : nat := 1.
Definition JOINT_RL : nat := 2.
Definition JOINT_RR : nat := 3.
Definition JOINT_SL : nat := 4.
Definition JOINT_SR : nat := 5.
Definition JOINT_COUNT : nat := 6.

(** Modelled from the spec: the selector values [VIN_MUX_VIN0],
    [VIN_MUX_VIN1], [VIN_MUX_VIN2] are declared outside the sources.
    Section 4.4: "three fixed selector values", the phases 0, 1 and 2. *)
Definition VIN_MUX_VIN0 : Q := 0%Q.
Definition VIN_MUX_VIN1 : Q := 1%Q.
Definition VIN_MUX_VIN2 : Q := 2%Q.

(** The wire identifiers the report decoders look their message up by
    ([ID_BRAKE_REPORT], ...). Their numeric values are declared outside the
    sources and play no part here. *)
Inductive ReportId :=
| ID_BRAKE_REPORT | ID_ACCEL_PEDAL_REPORT | ID_STEERING_REPORT
| ID_GEAR_REPORT | ID_REPORT_WHEEL_SPEED | ID_REPORT_WHEEL_POSITION
| ID_REPORT_TIRE_PRESSURE | ID_REPORT_SURROUND | ID_VIN | ID_REPORT_IMU
| ID_REPORT_DRIVER_INPUT | ID_MISC_REPORT | ID_LOW_VOLTAGE_SYSTEM_REPORT
| ID_BRAKE_2_REPORT | ID_STEERING_2_REPORT | ID_FAULT_ACTION_REPORT
| ID_OTHER_ACTUATORS_REPORT | ID_GPS_REFERENCE_REPORT
| ID_GPS_REMAINDER_REPORT | ID_ENGINE_REPORT | ID_ARTICULATION_REPORT
| ID_DUMP_BED_REPORT | ID_ACTION_REPORT.

(** ** What lies outside the sources

    The name tables of the header, the message-definition table of the
    codec, the constants of the message package and the two libm functions
    of the steering projection are parameters of the development. *)
Class Externals := {
  (** [FAULT_SYSTEM[]] and [OVR_SYSTEM[]], the printable subsystem names. *)
  FAULT_SYSTEM : nat → string;
  OVR_SYSTEM : nat → string;
  (** [dbwDbc_.GetMessageById(id)->GetDlc()]. *)
  GetDlc : ReportId → nat;
  (** [ActuatorControlMode]. *)
  OPEN_LOOP : Q;
  CLOSED_LOOP_ACTUATOR : Q;
  CLOSED_LOOP_VEHICLE : Q;
  (** [ArticulationControlMode]. *)
  ARTIC_ANGLE : Q;
  ARTIC_NONE : Q;
  (** [DumpBedControlMode] and [DumpBedModeRequest]. *)
  DUMP_MODE : Q;
  DUMP_ANGLE : Q;
  DUMP_NONE : Q;
  DUMP_LOWER : Q;
  DUMP_RAISE : Q;
  (** [EngineControlMode]. *)
  ENGINE_KEY_SWITCH : Q;
  ENGINE_NONE : Q;
  (** [tan] and [atan] of <cmath>. *)
  libm_tan : Q → Q;
  libm_atan : Q → Q
}.

(** ** Node state *)

(** [sensor_msgs::msg::JointState], without the constant [name] and the
    never-written [effort]. *)
Record JointState := {
  js_stamp : Stamp;
  position : list Q;
  velocity : list Q
}.

(** Values fixed at construction. *)
Record Config := {
  max_steer_angle_ : Q;
  max_dump_angle_ : Q;
  max_articulation_angle_ : Q;
  acker_wheelbase_ : Q;
  acker_track_ : Q;
  steering_ratio_ : Q
}.

Record State := mkState {
  enables_ : list bool;
  overrides_ : list bool;
  faults_ : list bool;
  dbwDbc_ : gmap string (gmap string Q);
  vin_ : list Z;
  joint_state_ : JointState;
  config_ : Config
}.

Definition with_enables (f : list bool → list bool) (s : State) : State :=
  mkState (f (enables_ s)) (overrides_ s) (faults_ s) (dbwDbc_ s) (vin_ s)
          (joint_state_ s) (config_ s).
Definition with_overrides (f : list bool → list bool) (s : State) : State :=
  mkState (enables_ s) (f (overrides_ s)) (faults_ s) (dbwDbc_ s) (vin_ s)
          (joint_state_ s) (config_ s).
Definition with_faults (f : list bool → list bool) (s : State) : State :=
  mkState (enables_ s) (overrides_ s) (f (faults_ s)) (dbwDbc_ s) (vin_ s)
          (joint_state_ s) (config_ s).
Definition with_dbc (f : gmap string (gmap string Q) → gmap string (gmap string Q))
    (s : State) : State :=
  mkState (enables_ s) (overrides_ s) (faults_ s) (f (dbwDbc_ s)) (vin_ s)
          (joint_state_ s) (config_ s).
Definition with_vin (f : list Z → list Z) (s : State) : State :=
  mkState (enables_ s) (overrides_ s) (faults_ s) (dbwDbc_ s) (f (vin_ s))
          (joint_state_ s) (config_ s).
Definition with_joint_state (f : JointState → JointState) (s : State) : State :=
  mkState (enables_ s) (overrides_ s) (faults_ s) (dbwDbc_ s) (vin_ s)
          (f (joint_state_ s)) (config_ s).

(** [a[i]] on a boolean array. *)
Definition rd (a : list bool) (i : nat) : bool := default false (a !! i).

(** [a[i]] on an array of doubles. *)
Definition rdq (a : list Q) (i : nat) : Q := default 0%Q (a !! i).

(** The arrays have their declared sizes. *)
Record wf (s : State) : Prop := {
  wf_enables : length (enables_ s) = NUM_ENABLES;
  wf_overrides : length (overrides_ s) = NUM_OVERRIDES;
  wf_faults : length (faults_ s) = NUM_FAULTS
}.

(** ** Outputs *)

Inductive Severity := INFO | WARN | ERROR.

(** A report object handed to a publisher: its time stamp and its fields in
    assignment order. *)
Record Report := { r_stamp : Stamp; r_fields : list (string * Q) }.

(** What a handler hands to the outside. [log site sev text] is a call of
    [RCLCPP_sev_THROTTLE] with the message [text], made by the statement
    that starts at line [site] of raptor_dbw_can.cpp: every log statement
    of the node is such a call. Whether the call prints is decided inside
    the macro, by [throttle] below; the node does not see the outcome. *)
Inductive Output :=
| pub_sys_enable (data : bool)                        (* topic dbw_enabled *)
| pub_can (message : string) (signals : gmap string Q) (* message->GetFrame() *)
| pub_report (topic : string) (r : Report)
| pub_vin (data : list Z)
| pub_joint_states (js : JointState)
| log (site : nat) (sev : Severity) (text : string).  (* RCLCPP_x_THROTTLE *)

(** ** The throttled logger *)

(** Modelled from the spec: [CLOCK_1_SEC], the period every log statement
    passes to the macro, is declared in raptor_dbw_can.hpp, which is not
    among the sources. Section 7: "rate-limited to at most once per ~1 s".
    The macro takes the period in milliseconds and compares in
    nanoseconds. *)
Definition CLOCK_1_SEC : Z := 1000.
Definition period : Z := CLOCK_1_SEC * 1000000.

(** [RCLCPP_x_THROTTLE], a macro of the logging library. Each place the
    macro is written at has a variable of its own holding the time at which
    that place last printed, 0 when the process starts. A call reads the
    clock it is given, [m_clock]; when the reading is at least the period
    past the time held, the call prints and the reading becomes the time
    held, otherwise nothing happens.

    [throttle clock k last o] is what is left of the outputs [o] once the
    calls that do not print are taken out: [clock k] is what [m_clock]
    reads, in nanoseconds, at the logger call number [k] of the process,
    and [last] holds, for the source line of each log statement, the time
    at which it last printed. *)
Definition last_printed (last : gmap nat Z) (site : nat) : Z := default 0%Z (last !! site).

Fixpoint throttle (clock : nat → Z) (k : nat) (last : gmap nat Z) (o : list Output)
    : list Output :=
  match o with
  | [] => []
  | log site sev text :: rest =>
      if (last_printed last site + period <=? clock k)%Z
      then log site sev text :: throttle clock (S k) (<[site := clock k]> last) rest
      else throttle clock (S k) last rest
  | x :: rest => x :: throttle clock k last rest
  end.

(** The outputs of a process from its start. *)
Definition printed (clock : nat → Z) (o : list Output) : list Output :=
  throttle clock 0 ∅ o.

(** ** Commands

    The command objects of the message package, with the fields the
    encoders read. Numeric fields are kept as the [double] handed to
    [SetResult]. *)

Module BrakeCmd.
Record t := {
  control_type : Q; pedal_cmd : Q; torque_cmd : Q; decel_limit : Q;
  decel_negative_jerk_limit : Q; enable : bool; park_brake_cmd : Q;
  rolling_counter : Q }.
End BrakeCmd.

Module AcceleratorPedalCmd.
Record t := {
  control_type : Q; pedal_cmd : Q; torque_cmd : Q; speed_cmd : Q;
  road_slope : Q; accel_limit : Q; accel_positive_jerk_limit : Q;
  enable : bool; ignore : bool; rolling_counter : Q }.
End AcceleratorPedalCmd.

Module SteeringCmd.
Record t := {
  control_type : Q; torque_cmd : Q; angle_cmd : Q; vehicle_curvature_cmd : Q;
  angle_velocity : Q; enable : bool; ignore : bool; rolling_counter : Q }.
End SteeringCmd.

Module GearCmd.
Record t := { enable : bool; cmd : Q; rolling_counter : Q }.
End GearCmd.

Module GlobalEnableCmd.
Record t := {
  global_enable : bool; enable_joystick_limits : bool; ecu_build_number : Q;
  rolling_counter : Q }.
End GlobalEnableCmd.

Module MiscCmd.
Record t := {
  ignition_cmd : Q; horn_cmd : Q; diff_lock : Q; turn_signal_cmd : Q;
  high_beam_cmd : Q; low_beam_cmd : Q; running_lights : Q; other_lights : Q;
  mode_light_red : Q; mode_light_yellow : Q; mode_light_green : Q;
  mode_light_blue : Q; front_wiper_cmd : Q; rear_wiper_cmd : Q;
  door_request_right_rear : Q; door_request_left_rear : Q;
  door_request_lift_gate : Q; door_lock_cmd : Q;
  block_standard_cruise_buttons : Q; block_adaptive_cruise_buttons : Q;
  block_turn_signal_stalk : Q; rolling_counter : Q }.
End MiscCmd.

Module ActionCmd.
Record t := {
  enable : bool; vehicle_stop : Q; emergency_brake : Q; rolling_counter : Q }.
End ActionCmd.

Module ArticulationCmd.
Record t := {
  enable : bool; control_type : Q; angle_cmd : Q; ignore_driver : Q;
  velocity_limit : Q; rolling_counter : Q }.
End ArticulationCmd.

Module DumpBedCmd.
Record t := {
  enable : bool; control_type : Q; mode_type : Q; lever_pct : Q; angle_cmd : Q;
  ignore_driver : Q; velocity_limit : Q; rolling_counter : Q }.
End DumpBedCmd.

Module EngineCmd.
Record t := {
  enable : bool; control_type : Q; mode_type : Q; rolling_counter : Q }.
End EngineCmd.

(** ** The message table of the codec *)

(** [dbwDbc_.GetMessage(name)]: the signals of the named message. The
    message-definition file is taken to define every message and signal
    the handlers name. *)
Definition GetMessage (name : string) (d : gmap string (gmap string Q)) : gmap string Q :=
  default ∅ (d !! name).

(** A run of [message->GetSignal(sg)->SetResult(v)] calls, in program
    order. *)
Definition SetResults (l : list (string * Q)) (m : gmap string Q) : gmap string Q :=
  foldl (λ m a, <[a.1 := a.2]> m) m l.

(** The value the run [l] leaves in signal [sg], [d] if it never sets it. *)
Fixpoint assigned (sg : string) (l : list (string * Q)) (d : option Q) : option Q :=
  match l with
  | [] => d
  | a :: l' => assigned sg l' (if String.eqb a.1 sg then Some a.2 else d)
  end.

(** [SetResult(0)] on each of the listed signals. *)
Definition zero (sgs : list string) : list (string * Q) := map (λ sg, (sg, 0%Q)) sgs.

(** ** Inbound frames *)

(** [can_msgs::msg::Frame] as a decoder sees it. [id] is [None] for an
    identifier that is not one of the reports. [signal] stands for the
    payload: [signal msg sg] is what
    [message->GetSignal(sg)->GetResult()] returns once the codec has been
    handed the frame with [message->SetFrame(msg)]. *)
Record Frame := {
  id : option ReportId;
  is_rtr : bool;
  is_error : bool;
  dlc : nat;
  stamp : Stamp;
  signal : string → Q
}.

(** ** The handler monad *)

Definition M (A : Type) : Type := State → A * State * list Output.

Definition ret {A} (a : A) : M A := λ s, (a, s, []).
Definition bind {A B} (c : M A) (k : A → M B) : M B := λ s,
  let r1 := c s in
  let r2 := k r1.1.1 r1.1.2 in
  (r2.1.1, r2.1.2, r1.2 ++ r2.2).

Declare Scope M_scope.
Delimit Scope M_scope with M.
Bind Scope M_scope with M.
Notation "x ← c ; k" := (bind c (λ x, k))
  (at level 20, c at level 100, k at level 200, only parsing, right associativity) : M_scope.
Notation "c ;; k" := (bind c (λ _, k))
  (at level 100, k at level 200, only parsing, right associativity) : M_scope.
Local Open Scope M_scope.

Definition get {A} (f : State → A) : M A := λ s, (f s, s, []).
Definition modify (f : State → State) : M unit := λ s, (tt, f s, []).
Definition emit (o : Output) : M unit := λ s, (tt, s, [o]).
Definition when (b : bool) (c : M unit) : M unit := if b then c else ret tt.

Definition state_of {A} (r : A * State * list Output) : State := r.1.2.
Definition outputs_of {A} (r : A * State * list Output) : list Output := r.2.
Definition value_of {A} (r : A * State * list Output) : A := r.1.1.

(** ** Arbitration engine *)

(** Modelled from the spec: [enabled()] is declared in raptor_dbw_can.hpp,
    which is not among the sources. Section 4.1: "[isEnabled()]: pure read
    of [active]". *)
Definition enabled (s : State) : bool := rd (enables_ s) EN_DBW.

(** Modelled from the spec: [fault()] is declared in raptor_dbw_can.hpp,
    which is not among the sources. Section 4.1: "any serious fault is
    currently true". *)
Definition fault (s : State) : bool :=
  existsb (rd (faults_ s)) (seq FAULT_ACCEL (NUM_SERIOUS_FAULTS - FAULT_ACCEL)).

(** Modelled from the spec: [clear()] is declared in raptor_dbw_can.hpp,
    which is not among the sources. Section 4.5: the timer "acts only while
    [isEnabled() == false]". *)
Definition clear (s : State) : bool := negb (enabled s).

Section RaptorDbwCAN.
Context {ext : Externals}.

(** [publishDbwEnabled], lines 1555-1567. *)
Definition publishDbwEnabled : M bool :=
  en ← get enabled;
  prev ← get (λ s, rd (enables_ s) EN_DBW_PREV);
  let change := negb (eqb prev en) in
  when change (emit (pub_sys_enable en));;
  modify (with_enables (<[EN_DBW_PREV := en]>));;
  ret change.

(** [enableSystem], lines 1638-1665. The loop over the serious faults is
    [for_each] over the indices. The loop has one log statement, at line
    1648: every call it makes to the logger is a call of that statement,
    and so goes through the one throttle of that statement. *)
Definition log_asserted_fault (i : nat) : M unit :=
  f ← get (λ s, rd (faults_ s) i);
  when f (emit (log 1648 ERROR ("DBW system disabled - " +:+ FAULT_SYSTEM i +:+ " fault."))).

Fixpoint for_each (idx : list nat) (body : nat → M unit) : M unit :=
  match idx with
  | [] => ret tt
  | i :: rest => body i;; for_each rest body
  end.

Definition enableSystem : M unit :=
  active ← get (λ s, rd (enables_ s) EN_DBW);
  when (negb active) (
    flt ← get fault;
    if flt then
      for_each (seq FAULT_ACCEL (NUM_SERIOUS_FAULTS - FAULT_ACCEL)) log_asserted_fault
    else
      modify (with_enables (<[EN_DBW := true]>));;
      change ← publishDbwEnabled;
      if change then emit (log 1655 INFO "DBW system enabled.")
      else emit (log 1659 WARN "DBW system failed to enable. Check driver overrides.")).

(** [disableSystem], lines 1667-1676. *)
Definition disableSystem : M unit :=
  active ← get (λ s, rd (enables_ s) EN_DBW);
  when active (
    modify (with_enables (<[EN_DBW := false]>));;
    publishDbwEnabled;;
    emit (log 1672 INFO "DBW system disabled - system disabled.")).

(** [setOverride], lines 1678-1702. *)
Definition setOverride (which_ovr : nat) (override : bool) : M unit :=
  when (which_ovr <? NUM_OVERRIDES) (
    en ← get enabled;
    when (override && en) (modify (with_enables (<[EN_DBW := false]>)));;
    modify (with_overrides (<[which_ovr := override]>));;
    change ← publishDbwEnabled;
    when change (
      if en then
        emit (log 1691 WARN ("DBW system disabled - " +:+ OVR_SYSTEM which_ovr +:+ " override"))
      else
        emit (log 1697 INFO ("DBW system enabled - no " +:+ OVR_SYSTEM which_ovr +:+ " override")))).

(** [setFault], lines 1704-1728. *)
Definition setFault (which_fault : nat) (fault : bool) : M unit :=
  when (which_fault <? NUM_SERIOUS_FAULTS) (
    en ← get enabled;
    when (fault && en) (modify (with_enables (<[EN_DBW := false]>)));;
    modify (with_faults (<[which_fault := fault]>));;
    change ← publishDbwEnabled;
    when change (
      if en then
        emit (log 1717 ERROR ("DBW system disabled - " +:+ FAULT_SYSTEM which_fault +:+ " fault."))
      else
        emit (log 1723 INFO ("DBW system enabled - no " +:+ FAULT_SYSTEM which_fault +:+ " fault.")))).

(** [faultWatchdog(fault, src, braking)], lines 1730-1759. *)
Definition faultWatchdog3 (fault : bool) (src : Z) (braking : bool) : M unit :=
  setFault FAULT_WATCH fault;;
  wb ← get (λ s, rd (faults_ s) FAULT_WATCH_BRAKES);
  (if braking && negb wb then emit (log 1735 ERROR "Watchdog - new braking fault.")
   else if negb braking && wb then emit (log 1739 INFO "Watchdog - braking fault is cleared.")
   else ret tt);;
  ww ← get (λ s, rd (faults_ s) FAULT_WATCH_WARN);
  (if fault && negb (src =? 0)%Z && negb ww then
     emit (log 1745 WARN "Watchdog - new fault warning.");;
     modify (with_faults (<[FAULT_WATCH_WARN := true]>))
   else if negb fault then modify (with_faults (<[FAULT_WATCH_WARN := false]>))
   else ret tt);;
  modify (with_faults (<[FAULT_WATCH_BRAKES := braking]>));;
  wb' ← get (λ s, rd (faults_ s) FAULT_WATCH_BRAKES);
  ww' ← get (λ s, rd (faults_ s) FAULT_WATCH_WARN);
  when (fault && negb wb' && ww') (emit (log 1755 ERROR "Watchdog - new non-braking fault.")).

(** [faultWatchdog(fault, src)], lines 1761-1764. *)
Definition faultWatchdog (fault : bool) (src : Z) : M unit :=
  wb ← get (λ s, rd (faults_ s) FAULT_WATCH_BRAKES);
  faultWatchdog3 fault src wb.

(** ** Command encoders *)

(** The tail every encoder shares: the [SetResult] calls [l] on the named
    message, then [pub_can_->publish(message->GetFrame())]. *)
Definition send (name : string) (l : list (string * Q)) : M unit :=
  modify (with_dbc (λ d, <[name := SetResults l (GetMessage name d)]> d));;
  m ← get (λ s, GetMessage name (dbwDbc_ s));
  emit (pub_can name m).

(** The signals each encoder sets to zero on entry. *)
Definition brake_zero : list string :=
  ["AKit_BrakePedalReq"; "AKit_BrakeCtrlEnblReq"; "AKit_BrakeCtrlReqType";
   "AKit_BrakePcntTorqueReq"; "AKit_SpeedModeDecelLim";
   "AKit_SpeedModeNegJerkLim"; "AKit_ParkingBrkReq"].
Definition accel_zero : list string :=
  ["AKit_AccelPdlReq"; "AKit_AccelPdlEnblReq"; "AKit_AccelPdlIgnoreDriverOvrd";
   "AKit_AccelPdlRollingCntr"; "AKit_AccelReqType"; "AKit_AccelPcntTorqueReq";
   "AKit_AccelPdlChecksum"; "AKit_SpeedReq"; "AKit_SpeedModeRoadSlope";
   "AKit_SpeedModeAccelLim"; "AKit_SpeedModePosJerkLim"].
Definition steering_zero : list string :=
  ["AKit_SteeringWhlAngleReq"; "AKit_SteeringWhlAngleVelocityLim";
   "AKit_SteerCtrlEnblReq"; "AKit_SteeringWhlIgnoreDriverOvrd";
   "AKit_SteeringWhlPcntTrqReq"; "AKit_SteeringReqType";
   "AKit_SteeringVehCurvatureReq"; "AKit_SteeringChecksum"].
Definition gear_zero : list string :=
  ["AKit_PrndCtrlEnblReq"; "AKit_PrndStateReq"; "AKit_PrndChecksum"].
Definition global_enable_zero : list string :=
  ["AKit_GlobalEnblRollingCntr"; "AKit_GlobalByWireEnblReq";
   "AKit_EnblJoystickLimits"; "AKit_SoftwareBuildNumber";
   "AKit_GlobalEnblChecksum"].
Definition misc_zero : list string :=
  ["AKit_TurnSignalReq"; "AKit_RightRearDoorReq"; "AKit_HighBeamReq";
   "AKit_FrontWiperReq"; "AKit_RearWiperReq"; "AKit_IgnitionReq";
   "AKit_LeftRearDoorReq"; "AKit_LiftgateDoorReq";
   "AKit_BlockBasicCruiseCtrlBtns"; "AKit_BlockAdapCruiseCtrlBtns";
   "AKit_BlockTurnSigStalkInpts"; "AKit_OtherChecksum"; "AKit_HornReq";
   "AKit_LowBeamReq"; "AKit_DoorLockReq"; "AKit_RunningLightsReq";
   "AKit_OtherLightsReq"; "AKit_ModeLight_Red"; "AKit_ModeLight_Yellow";
   "AKit_ModeLight_Green"; "AKit_ModeLight_Blue"; "AKit_DiffLock"].
Definition action_zero : list string :=
  ["AKit_ActionChecksum"; "AKit_ActionCtrlEnblReq"; "AKit_ActionVehStopReq";
   "AKit_ActionEmergencyBrkReq"].
Definition articulation_zero : list string :=
  ["AKit_ArticulationChecksum"; "AKit_ArticulationCtrlEnblReq";
   "AKit_ArticulationReqType"; "AKit_ArticulationAngleReq";
   "AKit_ArticulationIgnoreDrvrOvrd"; "AKit_ArticulationVelocityLimit"].
Definition dump_bed_zero : list string :=
  ["AKit_DumpBedChecksum"; "AKit_DumpBedCtrlEnblReq"; "AKit_DumpBedReqType";
   "AKit_DumpBedModeReq"; "AKit_DumpBedLeverPercentReq"; "AKit_DumpBedAnglReq";
   "AKit_DumpBedIgnoreDriverOrvd"; "AKit_DumpBedVelocityLimit"].
Definition engine_zero : list string :=
  ["AKit_EngineChecksum"; "AKit_EngineCtrlEnblReq"; "AKit_EngineModeReq";
   "AKit_EngineReqType"].

(** [recvBrakeCmd], lines 1106-1152: the [SetResult] calls it makes when
    [enabled()] returned [en]. *)
Definition brake_signals (en : bool) (msg : BrakeCmd.t) : list (string * Q) :=
  let ct := BrakeCmd.control_type msg in
  zero brake_zero ++
  (if en then
     (if Qeq_bool ct OPEN_LOOP then
        [("AKit_BrakeCtrlReqType", 0%Q); ("AKit_BrakePedalReq", BrakeCmd.pedal_cmd msg)]
      else if Qeq_bool ct CLOSED_LOOP_ACTUATOR then
        [("AKit_BrakeCtrlReqType", 1%Q); ("AKit_BrakePcntTorqueReq", BrakeCmd.torque_cmd msg)]
      else if Qeq_bool ct CLOSED_LOOP_VEHICLE then
        [("AKit_BrakeCtrlReqType", 2%Q);
         ("AKit_SpeedModeDecelLim", BrakeCmd.decel_limit msg);
         ("AKit_SpeedModeNegJerkLim", BrakeCmd.decel_negative_jerk_limit msg)]
      else
        [("AKit_BrakeCtrlReqType", 0%Q)]) ++
     (if BrakeCmd.enable msg then [("AKit_BrakeCtrlEnblReq", 1%Q)] else []) ++
     (if Qeq_bool ct OPEN_LOOP || Qeq_bool ct CLOSED_LOOP_ACTUATOR
         || Qeq_bool ct CLOSED_LOOP_VEHICLE
      then [("AKit_ParkingBrkReq", BrakeCmd.park_brake_cmd msg)] else [])
   else []) ++
  [("AKit_BrakeRollingCntr", BrakeCmd.rolling_counter msg)].

Definition recvBrakeCmd (msg : BrakeCmd.t) : M unit :=
  en ← get enabled;
  send "AKit_BrakeRequest" (brake_signals en msg).

(** [recvAcceleratorPedalCmd], lines 1154-1204. *)
Definition accel_signals (en : bool) (msg : AcceleratorPedalCmd.t) : list (string * Q) :=
  let ct := AcceleratorPedalCmd.control_type msg in
  zero accel_zero ++
  (if en then
     (if Qeq_bool ct OPEN_LOOP then
        [("AKit_AccelReqType", 0%Q); ("AKit_AccelPdlReq", AcceleratorPedalCmd.pedal_cmd msg)]
      else if Qeq_bool ct CLOSED_LOOP_ACTUATOR then
        [("AKit_AccelReqType", 1%Q);
         ("AKit_AccelPcntTorqueReq", AcceleratorPedalCmd.torque_cmd msg)]
      else if Qeq_bool ct CLOSED_LOOP_VEHICLE then
        [("AKit_AccelReqType", 2%Q);
         ("AKit_SpeedReq", AcceleratorPedalCmd.speed_cmd msg);
         ("AKit_SpeedModeRoadSlope", AcceleratorPedalCmd.road_slope msg);
         ("AKit_SpeedModeAccelLim", AcceleratorPedalCmd.accel_limit msg);
         ("AKit_SpeedModePosJerkLim", AcceleratorPedalCmd.accel_positive_jerk_limit msg)]
      else
        [("AKit_AccelReqType", 0%Q)]) ++
     (if AcceleratorPedalCmd.enable msg then [("AKit_AccelPdlEnblReq", 1%Q)] else [])
   else []) ++
  [("AKit_AccelPdlRollingCntr", AcceleratorPedalCmd.rolling_counter msg)] ++
  (if AcceleratorPedalCmd.ignore msg then [("AKit_AccelPdlIgnoreDriverOvrd", 1%Q)] else []).

Definition recvAcceleratorPedalCmd (msg : AcceleratorPedalCmd.t) : M unit :=
  en ← get enabled;
  send "AKit_AccelPdlRequest" (accel_signals en msg).

(** The velocity limit of [recvSteeringCmd], lines 1241-1246: the value of
    the [uint16_t vcmd]. *)
Definition vcmd (angle_velocity : Q) : Z :=
  Qtrunc (std_max 1 (std_min 254 (roundf (Qabs angle_velocity / 2)))).

(** The angle clamp of lines 1226-1231. *)
Definition scmd (max_angle angle_cmd : Q) : Q :=
  std_max (-1 * max_angle) (std_min (max_angle * 1) (angle_cmd * 1)).

(** [recvSteeringCmd], lines 1206-1264. *)
Definition steering_signals (en : bool) (max_steer_angle : Q) (msg : SteeringCmd.t)
    : list (string * Q) :=
  let ct := SteeringCmd.control_type msg in
  zero steering_zero ++
  (if en then
     (if Qeq_bool ct OPEN_LOOP then
        [("AKit_SteeringReqType", 0%Q);
         ("AKit_SteeringWhlPcntTrqReq", SteeringCmd.torque_cmd msg)]
      else if Qeq_bool ct CLOSED_LOOP_ACTUATOR then
        [("AKit_SteeringReqType", 1%Q);
         ("AKit_SteeringWhlAngleReq", scmd max_steer_angle (SteeringCmd.angle_cmd msg))]
      else if Qeq_bool ct CLOSED_LOOP_VEHICLE then
        [("AKit_SteeringReqType", 2%Q);
         ("AKit_SteeringVehCurvatureReq", SteeringCmd.vehicle_curvature_cmd msg)]
      else
        [("AKit_SteeringReqType", 0%Q)]) ++
     (if Qltb 0 (Qabs (SteeringCmd.angle_velocity msg)) then
        [("AKit_SteeringWhlAngleVelocityLim",
          inject_Z (vcmd (SteeringCmd.angle_velocity msg)))]
      else []) ++
     (if SteeringCmd.enable msg then [("AKit_SteerCtrlEnblReq", 1%Q)] else [])
   else []) ++
  (if SteeringCmd.ignore msg then [("AKit_SteeringWhlIgnoreDriverOvrd", 1%Q)] else []) ++
  [("AKit_SteerRollingCntr", SteeringCmd.rolling_counter msg)].

Definition recvSteeringCmd (msg : SteeringCmd.t) : M unit :=
  en ← get enabled;
  max_steer_angle ← get (λ s, max_steer_angle_ (config_ s));
  send "AKit_SteeringRequest" (steering_signals en max_steer_angle msg).

(** [recvGearCmd], lines 1266-1288. *)
Definition gear_signals (en : bool) (msg : GearCmd.t) : list (string * Q) :=
  zero gear_zero ++
  (if en then
     (if GearCmd.enable msg then [("AKit_PrndCtrlEnblReq", 1%Q)] else []) ++
     [("AKit_PrndStateReq", GearCmd.cmd msg)]
   else []) ++
  [("AKit_PrndRollingCntr", GearCmd.rolling_counter msg)].

Definition recvGearCmd (msg : GearCmd.t) : M unit :=
  en ← get enabled;
  send "AKit_PrndRequest" (gear_signals en msg).

(** [recvGlobalEnableCmd], lines 1290-1318. *)
Definition global_enable_signals (en : bool) (msg : GlobalEnableCmd.t) : list (string * Q) :=
  zero global_enable_zero ++
  (if en then
     (if GlobalEnableCmd.global_enable msg then [("AKit_GlobalByWireEnblReq", 1%Q)] else []) ++
     (if GlobalEnableCmd.enable_joystick_limits msg
      then [("AKit_EnblJoystickLimits", 1%Q)] else []) ++
     [("AKit_SoftwareBuildNumber", GlobalEnableCmd.ecu_build_number msg)]
   else []) ++
  [("AKit_GlobalEnblRollingCntr", GlobalEnableCmd.rolling_counter msg)].

Definition recvGlobalEnableCmd (msg : GlobalEnableCmd.t) : M unit :=
  en ← get enabled;
  send "AKit_GlobalEnbl" (global_enable_signals en msg).

(** [recvMiscCmd], lines 1320-1387. *)
Definition misc_signals (en : bool) (msg : MiscCmd.t) : list (string * Q) :=
  zero misc_zero ++
  (if en then
     [("AKit_IgnitionReq", MiscCmd.ignition_cmd msg);
      ("AKit_HornReq", MiscCmd.horn_cmd msg);
      ("AKit_DiffLock", MiscCmd.diff_lock msg);
      ("AKit_TurnSignalReq", MiscCmd.turn_signal_cmd msg);
      ("AKit_HighBeamReq", MiscCmd.high_beam_cmd msg);
      ("AKit_LowBeamReq", MiscCmd.low_beam_cmd msg);
      ("AKit_RunningLightsReq", MiscCmd.running_lights msg);
      ("AKit_OtherLightsReq", MiscCmd.other_lights msg);
      ("AKit_ModeLight_Red", MiscCmd.mode_light_red msg);
      ("AKit_ModeLight_Yellow", MiscCmd.mode_light_yellow msg);
      ("AKit_ModeLight_Green", MiscCmd.mode_light_green msg);
      ("AKit_ModeLight_Blue", MiscCmd.mode_light_blue msg);
      ("AKit_FrontWiperReq", MiscCmd.front_wiper_cmd msg);
      ("AKit_RearWiperReq", MiscCmd.rear_wiper_cmd msg);
      ("AKit_RightRearDoorReq", MiscCmd.door_request_right_rear msg);
      ("AKit_LeftRearDoorReq", MiscCmd.door_request_left_rear msg);
      ("AKit_LiftgateDoorReq", MiscCmd.door_request_lift_gate msg);
      ("AKit_DoorLockReq", MiscCmd.door_lock_cmd msg);
      ("AKit_BlockBasicCruiseCtrlBtns", MiscCmd.block_standard_cruise_buttons msg);
      ("AKit_BlockAdapCruiseCtrlBtns", MiscCmd.block_adaptive_cruise_buttons msg);
      ("AKit_BlockTurnSigStalkInpts", MiscCmd.block_turn_signal_stalk msg)]
   else []) ++
  [("AKit_OtherRollingCntr", MiscCmd.rolling_counter msg)].

Definition recvMiscCmd (msg : MiscCmd.t) : M unit :=
  en ← get enabled;
  send "AKit_OtherActuators" (misc_signals en msg).

(** [recvActionCmd], lines 1389-1413. *)
Definition action_signals (en : bool) (msg : ActionCmd.t) : list (string * Q) :=
  zero action_zero ++
  (if en && ActionCmd.enable msg then
     [("AKit_ActionCtrlEnblReq", of_bool (ActionCmd.enable msg));
      ("AKit_ActionVehStopReq", ActionCmd.vehicle_stop msg);
      ("AKit_ActionEmergencyBrkReq", ActionCmd.emergency_brake msg)]
   else []) ++
  [("AKit_ActionRollingCntr", ActionCmd.rolling_counter msg)].

Definition recvActionCmd (msg : ActionCmd.t) : M unit :=
  en ← get enabled;
  send "AKit_ActionRequest" (action_signals en msg).

(** [recvArticulationCmd], lines 1415-1459. *)
Definition articulation_signals (en : bool) (max_articulation_angle : Q)
    (msg : ArticulationCmd.t) : list (string * Q) :=
  zero articulation_zero ++
  (if en && ArticulationCmd.enable msg then
     (if Qeq_bool (ArticulationCmd.control_type msg) ARTIC_ANGLE then
        [("AKit_ArticulationReqType", ArticulationCmd.control_type msg);
         ("AKit_ArticulationAngleReq",
          scmd max_articulation_angle (ArticulationCmd.angle_cmd msg))]
      else
        [("AKit_ArticulationReqType", ARTIC_NONE)]) ++
     [("AKit_ArticulationCtrlEnblReq", of_bool (ArticulationCmd.enable msg));
      ("AKit_ArticulationIgnoreDrvrOvrd", ArticulationCmd.ignore_driver msg);
      ("AKit_ArticulationVelocityLimit", ArticulationCmd.velocity_limit msg)]
   else []) ++
  [("AKit_ArticulationRollingCntr", ArticulationCmd.rolling_counter msg)].

Definition recvArticulationCmd (msg : ArticulationCmd.t) : M unit :=
  en ← get enabled;
  max_articulation_angle ← get (λ s, max_articulation_angle_ (config_ s));
  send "AKit_ArticulationRequest" (articulation_signals en max_articulation_angle msg).

(** The angle clamp of lines 1493-1498. *)
Definition dump_angle_checked (max_angle angle_cmd : Q) : Q :=
  std_max 0 (std_min (max_angle * 1) (angle_cmd * 1)).

(** [recvDumpBedCmd], lines 1461-1517. *)
Definition dump_bed_signals (en : bool) (max_dump_angle : Q) (msg : DumpBedCmd.t)
    : list (string * Q) :=
  let ct := DumpBedCmd.control_type msg in
  zero dump_bed_zero ++
  (if en && DumpBedCmd.enable msg then
     (if Qeq_bool ct DUMP_MODE then
        [("AKit_DumpBedReqType", ct); ("AKit_DumpBedModeReq", DumpBedCmd.mode_type msg)] ++
        (if Qeq_bool (DumpBedCmd.mode_type msg) DUMP_LOWER
            || Qeq_bool (DumpBedCmd.mode_type msg) DUMP_RAISE
         then [("AKit_DumpBedLeverPercentReq", DumpBedCmd.lever_pct msg)] else [])
      else if Qeq_bool ct DUMP_ANGLE then
        [("AKit_DumpBedReqType", ct);
         ("AKit_DumpBedAnglReq", dump_angle_checked max_dump_angle (DumpBedCmd.angle_cmd msg))]
      else
        [("AKit_DumpBedReqType", DUMP_NONE)]) ++
     [("AKit_DumpBedCtrlEnblReq", of_bool (DumpBedCmd.enable msg));
      ("AKit_DumpBedIgnoreDriverOrvd", DumpBedCmd.ignore_driver msg);
      ("AKit_DumpBedVelocityLimit", DumpBedCmd.velocity_limit msg)]
   else []) ++
  [("AKit_DumpBedRollingCntr", DumpBedCmd.rolling_counter msg)].

Definition recvDumpBedCmd (msg : DumpBedCmd.t) : M unit :=
  en ← get enabled;
  max_dump_angle ← get (λ s, max_dump_angle_ (config_ s));
  send "AKit_DumpBedRequest" (dump_bed_signals en max_dump_angle msg).

(** [recvEngineCmd], lines 1519-1551. *)
Definition engine_signals (en : bool) (msg : EngineCmd.t) : list (string * Q) :=
  zero engine_zero ++
  (if en && EngineCmd.enable msg then
     (if Qeq_bool (EngineCmd.control_type msg) ENGINE_KEY_SWITCH then
        [("AKit_EngineReqType", EngineCmd.control_type msg);
         ("AKit_EngineModeReq", EngineCmd.mode_type msg)]
      else
        [("AKit_EngineReqType", ENGINE_NONE)]) ++
     [("AKit_EngineCtrlEnblReq", of_bool (EngineCmd.enable msg))]
   else []) ++
  [("AKit_EngineRollingCntr", EngineCmd.rolling_counter msg)].

Definition recvEngineCmd (msg : EngineCmd.t) : M unit :=
  en ← get enabled;
  send "AKit_EngineRequest" (engine_signals en msg).

(** ** Fail-safe timer *)

(** [timerCallback], lines 1569-1636. *)
Definition timerCallback : M unit :=
  c ← get clear;
  when c (
    ovr_brake ← get (λ s, rd (overrides_ s) OVR_BRAKE);
    when ovr_brake (
      send "AKit_BrakeRequest" (zero ["AKit_BrakePedalReq"; "AKit_BrakeCtrlEnblReq"]));;
    ovr_accel ← get (λ s, rd (overrides_ s) OVR_ACCEL);
    when ovr_accel (
      send "AKit_AccelPdlRequest"
        (zero ["AKit_AccelPdlReq"; "AKit_AccelPdlEnblReq"; "AKit_AccelPdlIgnoreDriverOvrd"]));;
    ovr_steer ← get (λ s, rd (overrides_ s) OVR_STEER);
    when ovr_steer (
      send "AKit_SteeringRequest"
        (zero ["AKit_SteeringWhlAngleReq"; "AKit_SteeringWhlAngleVelocityLim";
               "AKit_SteeringWhlIgnoreDriverOvrd"; "AKit_SteeringWhlPcntTrqReq"]));;
    ovr_gear ← get (λ s, rd (overrides_ s) OVR_GEAR);
    when ovr_gear (
      send "AKit_GearRequest" (zero ["AKit_PrndStateCmd"; "AKit_PrndChecksum"]));;
    ovr_dump_bed ← get (λ s, rd (overrides_ s) OVR_DUMP_BED);
    when ovr_dump_bed (
      send "AKit_DumpBedRequest"
        (zero ["AKit_DumpBedChecksum"; "AKit_DumpBedCtrlEnblReq"; "AKit_DumpBedReqType";
               "AKit_DumpBedModeReq"; "AKit_DumpBedLeverPercentReq"; "AKit_DumpBedAnglReq";
               "AKit_DumpBedIgnoreDriverOrvd"; "AKit_DumpBedVelocityLimit"]));;
    ovr_engine ← get (λ s, rd (overrides_ s) OVR_ENGINE);
    when ovr_engine (
      send "AKit_EngineRequest"
        (zero ["AKit_EngineChecksum"; "AKit_EngineCtrlEnblReq"; "AKit_EngineModeReq";
               "AKit_EngineReqType"]))).

(** ** Kinematics projector *)

(** The loop of lines 1777-1781 and 1799-1803 over the wheel joints. *)
Definition integrate (dt : Q) (vel pos : list Q) : list Q :=
  foldl (λ pos i, <[i := fmod (rdq pos i + dt * rdq vel i) (2 * M_PI)]> pos)
        pos (seq JOINT_FL (S JOINT_RR - JOINT_FL)).

(** [publishJointStates(stamp, WheelSpeedReport)], lines 1766-1785. *)
Definition publishJointStates_wheels (stamp : Stamp) (front_left front_right rear_left rear_right : Q)
    : M unit :=
  js ← get joint_state_;
  let dt := (seconds stamp - inject_Z (sec (js_stamp js)))%Q in
  let vel := <[JOINT_RR := rear_right]> (<[JOINT_RL := rear_left]>
             (<[JOINT_FR := front_right]> (<[JOINT_FL := front_left]> (velocity js)))) in
  let pos := if Qltb dt (1 # 2) then integrate dt vel (position js) else position js in
  modify (with_joint_state (λ _, {| js_stamp := stamp; position := pos; velocity := vel |}));;
  js' ← get joint_state_;
  emit (pub_joint_states js').

(** [publishJointStates(stamp, SteeringReport)], lines 1787-1807. The
    infinities IEEE arithmetic gives for a division by zero are not
    modelled; no property below depends on the two steer angles. *)
Definition publishJointStates_steering (stamp : Stamp) (steering_wheel_angle : Q) : M unit :=
  js ← get joint_state_;
  cfg ← get config_;
  let dt := (seconds stamp - inject_Z (sec (js_stamp js)))%Q in
  let L := acker_wheelbase_ cfg in
  let W := acker_track_ cfg in
  let r := (L / libm_tan (steering_wheel_angle / steering_ratio_ cfg))%Q in
  let pos0 := <[JOINT_SR := libm_atan (L / (r + W / 2))%Q]>
              (<[JOINT_SL := libm_atan (L / (r - W / 2))%Q]> (position js)) in
  let pos := if Qltb dt (1 # 2) then integrate dt (velocity js) pos0 else pos0 in
  modify (with_joint_state (λ _, {| js_stamp := stamp; position := pos; velocity := velocity js |}));;
  js' ← get joint_state_;
  emit (pub_joint_states js').

(** ** Report decoders *)

(** A numeric report field read from a signal, and a boolean one read with
    [? true : false]. *)
Definition num (msg : Frame) (field sg : string) : string * Q := (field, signal msg sg).
Definition flag (msg : Frame) (field sg : string) : string * Q :=
  (field, of_bool (truthy (signal msg sg))).

(** [pub->publish(report)] with the report stamped from the frame. *)
Definition publish (topic : string) (msg : Frame) (fields : list (string * Q)) : M unit :=
  emit (pub_report topic {| r_stamp := stamp msg; r_fields := fields |}).

(** [(out.fault.status > 0) ? true : false] on the [uint8] status. *)
Definition status_fault (x : Q) : bool := (0 <? Qtrunc x)%Z.

(** [recvBrakeRpt], lines 335-385. *)
Definition recvBrakeRpt (msg : Frame) : M unit :=
  when (GetDlc ID_BRAKE_REPORT <=? dlc msg) (
    let brakeSystemFault := truthy (signal msg "DBW_BrakeFault") in
    let dbwSystemFault := brakeSystemFault in
    let driverActivity := truthy (signal msg "DBW_BrakeDriverActivity") in
    setFault FAULT_BRAKE brakeSystemFault;;
    faultWatchdog dbwSystemFault (if brakeSystemFault then 1 else 0);;
    setOverride OVR_BRAKE driverActivity;;
    publish "brake_report" msg
      [("fault_brake_system", of_bool brakeSystemFault);
       num msg "pedal_position" "DBW_BrakePdlDriverInput";
       num msg "pedal_output" "DBW_BrakePdlPosnFdbck";
       flag msg "enabled" "DBW_BrakeEnabled";
       ("driver_activity", of_bool driverActivity);
       num msg "rolling_counter" "DBW_BrakeRollingCntr";
       num msg "brake_torque_actual" "DBW_BrakePcntTorqueActual";
       flag msg "intervention_active" "DBW_BrakeInterventionActv";
       flag msg "intervention_ready" "DBW_BrakeInterventionReady";
       num msg "parking_brake.status" "DBW_BrakeParkingBrkStatus";
       num msg "control_type.value" "DBW_BrakeCtrlType"];;
    when brakeSystemFault (emit (log 380 WARN "Brake report received a system fault."))).

(** [recvAccelPedalRpt], lines 387-437. *)
Definition recvAccelPedalRpt (msg : Frame) : M unit :=
  when (GetDlc ID_ACCEL_PEDAL_REPORT <=? dlc msg) (
    let faultCh1 := truthy (signal msg "DBW_AccelPdlFault_Ch1") in
    let faultCh2 := truthy (signal msg "DBW_AccelPdlFault_Ch2") in
    let accelPdlSystemFault := truthy (signal msg "DBW_AccelPdlFault") in
    let dbwSystemFault := accelPdlSystemFault in
    setFault FAULT_ACCEL (faultCh1 && faultCh2);;
    faultWatchdog dbwSystemFault (if accelPdlSystemFault then 1 else 0);;
    setOverride OVR_ACCEL (truthy (signal msg "DBW_AccelPdlDriverActivity"));;
    publish "accelerator_pedal_report" msg
      [num msg "pedal_input" "DBW_AccelPdlDriverInput";
       num msg "pedal_output" "DBW_AccelPdlPosnFdbck";
       flag msg "enabled" "DBW_AccelPdlEnabled";
       flag msg "ignore_driver" "DBW_AccelPdlIgnoreDriver";
       flag msg "driver_activity" "DBW_AccelPdlDriverActivity";
       num msg "torque_actual" "DBW_AccelPcntTorqueActual";
       num msg "control_type.value" "DBW_AccelCtrlType";
       num msg "rolling_counter" "DBW_AccelPdlRollingCntr";
       ("fault_accel_pedal_system", of_bool accelPdlSystemFault);
       ("fault_ch1", of_bool faultCh1);
       ("fault_ch2", of_bool faultCh2)];;
    when (faultCh1 || faultCh2)
      (emit (log 432 WARN "Acclerator pedal report received a system fault."))).

(** [recvSteeringRpt], lines 439-492. The watchdog is called without a
    source here; the argument the header defaults it to is taken to be 0. *)
Definition recvSteeringRpt (msg : Frame) : M unit :=
  when (GetDlc ID_STEERING_REPORT <=? dlc msg) (
    let steeringSystemFault := truthy (signal msg "DBW_SteeringFault") in
    let dbwSystemFault := steeringSystemFault in
    let driverActivity := truthy (signal msg "DBW_SteeringDriverActivity") in
    setFault FAULT_STEER steeringSystemFault;;
    faultWatchdog dbwSystemFault 0;;
    setOverride OVR_STEER driverActivity;;
    publish "steering_report" msg
      [num msg "steering_wheel_angle" "DBW_SteeringWhlAngleAct";
       num msg "steering_wheel_angle_cmd" "DBW_SteeringWhlAngleDes";
       ("steering_wheel_torque", (signal msg "DBW_SteeringWhlPcntTrqCmd" * (1 # 16))%Q);
       flag msg "enabled" "DBW_SteeringEnabled";
       ("driver_activity", of_bool driverActivity);
       num msg "rolling_counter" "DBW_SteeringRollingCntr";
       num msg "control_type.value" "DBW_SteeringCtrlType";
       flag msg "overheat_prevention_mode" "DBW_OverheatPreventMode";
       flag msg "steering_overheat_warning" "DBW_SteeringOverheatWarning";
       ("fault_steering_system", of_bool steeringSystemFault)];;
    publishJointStates_steering (stamp msg) (signal msg "DBW_SteeringWhlAngleAct");;
    when steeringSystemFault (emit (log 487 WARN "Steering report received a system fault."))).

(** [recvGearRpt], lines 494-532. *)
Definition recvGearRpt (msg : Frame) : M unit :=
  when (1 <=? dlc msg) (
    let driverActivity := truthy (signal msg "DBW_PrndDriverActivity") in
    setOverride OVR_GEAR driverActivity;;
    let gear_mismatch_flash := truthy (signal msg "DBW_PrndMismatchFlash") in
    when gear_mismatch_flash
      (emit (log 526 ERROR ("ERROR - shift lever is in Park, but transmission is in Drive."
                        +:+ " Please adjust the shift lever.")));;
    publish "gear_report" msg
      [flag msg "enabled" "DBW_PrndCtrlEnabled";
       num msg "state_actual.gear" "DBW_PrndStateActual";
       num msg "state_desired.gear" "DBW_PrndStateDes";
       ("driver_activity", of_bool driverActivity);
       flag msg "gear_select_system_fault" "DBW_PrndFault";
       flag msg "reject" "DBW_PrndStateReject";
       ("gear_mismatch_flash", of_bool gear_mismatch_flash);
       num msg "rolling_counter" "DBW_PrndRollingCntr"]).

(** [recvWheelSpeedRpt], lines 534-552. *)
Definition recvWheelSpeedRpt (msg : Frame) : M unit :=
  when (GetDlc ID_REPORT_WHEEL_SPEED <=? dlc msg) (
    publish "wheel_speed_report" msg
      [num msg "front_left" "DBW_WhlSpd_FL"; num msg "front_right" "DBW_WhlSpd_FR";
       num msg "rear_left" "DBW_WhlSpd_RL"; num msg "rear_right" "DBW_WhlSpd_RR"];;
    publishJointStates_wheels (stamp msg)
      (signal msg "DBW_WhlSpd_FL") (signal msg "DBW_WhlSpd_FR")
      (signal msg "DBW_WhlSpd_RL") (signal msg "DBW_WhlSpd_RR")).

(** [recvWheelPositionRpt], lines 554-570. *)
Definition recvWheelPositionRpt (msg : Frame) : M unit :=
  when (GetDlc ID_REPORT_WHEEL_POSITION <=? dlc msg) (
    publish "wheel_position_report" msg
      [num msg "front_left" "DBW_WhlPulseCnt_FL"; num msg "front_right" "DBW_WhlPulseCnt_FR";
       num msg "rear_left" "DBW_WhlPulseCnt_RL"; num msg "rear_right" "DBW_WhlPulseCnt_RR";
       num msg "wheel_pulses_per_rev" "DBW_WhlPulsesPerRev"]).

(** [recvTirePressureRpt], lines 572-587. *)
Definition recvTirePressureRpt (msg : Frame) : M unit :=
  when (GetDlc ID_REPORT_TIRE_PRESSURE <=? dlc msg) (
    publish "tire_pressure_report" msg
      [num msg "front_left" "DBW_TirePressFL"; num msg "front_right" "DBW_TirePressFR";
       num msg "rear_left" "DBW_TirePressRL"; num msg "rear_right" "DBW_TirePressRR"]).

(** [recvSurroundRpt], lines 589-617. *)
Definition recvSurroundRpt (msg : Frame) : M unit :=
  when (GetDlc ID_REPORT_SURROUND <=? dlc msg) (
    publish "surround_report" msg
      [num msg "front_radar_object_distance" "DBW_Reserved2";
       num msg "rear_radar_object_distance" "DBW_SonarRearDist";
       flag msg "front_radar_distance_valid" "DBW_Reserved3";
       flag msg "parking_sonar_data_valid" "DBW_SonarVld";
       num msg "rear_right.status" "DBW_SonarArcNumRR";
       num msg "rear_left.status" "DBW_SonarArcNumRL";
       num msg "rear_center.status" "DBW_SonarArcNumRC";
       num msg "front_right.status" "DBW_SonarArcNumFR";
       num msg "front_left.status" "DBW_SonarArcNumFL";
       num msg "front_center.status" "DBW_SonarArcNumFC"]).

(** [vin_.push_back(GetResult())] for each of the listed digit signals. *)
Definition push_digits (msg : Frame) (sgs : list string) : M unit :=
  modify (with_vin (λ v, v ++ map (λ sg, Qtrunc (signal msg sg)) sgs)).

(** [recvVinRpt], lines 619-650. *)
Definition recvVinRpt (msg : Frame) : M unit :=
  when (GetDlc ID_VIN <=? dlc msg) (
    let mux := signal msg "DBW_VinMultiplexor" in
    if Qeq_bool mux VIN_MUX_VIN0 then
      push_digits msg ["DBW_VinDigit_01"; "DBW_VinDigit_02"; "DBW_VinDigit_03";
                       "DBW_VinDigit_04"; "DBW_VinDigit_05"; "DBW_VinDigit_06";
                       "DBW_VinDigit_07"]
    else if Qeq_bool mux VIN_MUX_VIN1 then
      push_digits msg ["DBW_VinDigit_08"; "DBW_VinDigit_09"; "DBW_VinDigit_10";
                       "DBW_VinDigit_11"; "DBW_VinDigit_12"; "DBW_VinDigit_13";
                       "DBW_VinDigit_14"]
    else if Qeq_bool mux VIN_MUX_VIN2 then
      push_digits msg ["DBW_VinDigit_15"; "DBW_VinDigit_16"; "DBW_VinDigit_17"];;
      v ← get vin_;
      emit (pub_vin v)
    else ret tt).

(** [recvImuRpt], lines 652-673. *)
Definition recvImuRpt (msg : Frame) : M unit :=
  when (GetDlc ID_REPORT_IMU <=? dlc msg) (
    publish "imu/data_raw" msg
      [("angular_velocity.z", (signal msg "DBW_ImuYawRate" * (M_PI / 180))%Q);
       num msg "linear_acceleration.x" "DBW_ImuAccelX";
       num msg "linear_acceleration.y" "DBW_ImuAccelY"]).

(** [recvDriverInputRpt], lines 675-728. *)
Definition recvDriverInputRpt (msg : Frame) : M unit :=
  when (GetDlc ID_REPORT_DRIVER_INPUT <=? dlc msg) (
    publish "driver_input_report" msg
      [num msg "turn_signal.value" "DBW_DrvInptTurnSignal";
       num msg "high_beam_headlights.value" "DBW_DrvInptHiBeam";
       num msg "wiper.status" "DBW_DrvInptWiper";
       flag msg "cruise_resume_button" "DBW_DrvInptCruiseResumeBtn";
       flag msg "cruise_cancel_button" "DBW_DrvInptCruiseCancelBtn";
       flag msg "cruise_accel_button" "DBW_DrvInptCruiseAccelBtn";
       flag msg "cruise_decel_button" "DBW_DrvInptCruiseDecelBtn";
       flag msg "cruise_on_off_button" "DBW_DrvInptCruiseOnOffBtn";
       flag msg "adaptive_cruise_on_off_button" "DBW_DrvInptAccOnOffBtn";
       flag msg "adaptive_cruise_increase_distance_button" "DBW_DrvInptAccIncDistBtn";
       flag msg "adaptive_cruise_decrease_distance_button" "DBW_DrvInptAccDecDistBtn";
       flag msg "steer_wheel_button_a" "DBW_DrvInputStrWhlBtnA";
       flag msg "steer_wheel_button_b" "DBW_DrvInputStrWhlBtnB";
       flag msg "steer_wheel_button_c" "DBW_DrvInputStrWhlBtnC";
       flag msg "steer_wheel_button_d" "DBW_DrvInputStrWhlBtnD";
       flag msg "steer_wheel_button_e" "DBW_DrvInputStrWhlBtnE";
       flag msg "door_or_hood_ajar" "DBW_OccupAnyDoorOrHoodAjar";
       flag msg "airbag_deployed" "DBW_OccupAnyAirbagDeployed";
       flag msg "any_seatbelt_unbuckled" "DBW_OccupAnySeatbeltUnbuckled"]).

(** [recvMiscRpt], lines 730-761. *)
Definition recvMiscRpt (msg : Frame) : M unit :=
  when (GetDlc ID_MISC_REPORT <=? dlc msg) (
    publish "misc_report" msg
      [num msg "fuel_level" "DBW_MiscFuelLvl";
       flag msg "drive_by_wire_enabled" "DBW_MiscByWireEnabled";
       num msg "vehicle_speed" "DBW_MiscVehicleSpeed";
       num msg "software_build_number" "DBW_SoftwareBuildNumber";
       flag msg "general_actuator_fault" "DBW_MiscFault";
       flag msg "by_wire_ready" "DBW_MiscByWireReady";
       flag msg "general_driver_activity" "DBW_MiscDriverActivity";
       flag msg "comms_fault" "DBW_MiscAKitCommFault";
       num msg "ambient_temp" "DBW_AmbientTemp"]).

(** [recvLowVoltageSystemRpt], lines 763-790. *)
Definition recvLowVoltageSystemRpt (msg : Frame) : M unit :=
  when (GetDlc ID_LOW_VOLTAGE_SYSTEM_REPORT <=? dlc msg) (
    publish "low_voltage_system_report" msg
      [num msg "vehicle_battery_volts" "DBW_LvVehBattVlt";
       num msg "vehicle_battery_current" "DBW_LvBattCurr";
       num msg "vehicle_alternator_current" "DBW_LvAlternatorCurr";
       num msg "dbw_battery_volts" "DBW_LvDbwBattVlt";
       num msg "dcdc_current" "DBW_LvDcdcCurr";
       flag msg "aux_inverter_contactor" "DBW_LvInvtrContactorCmd"]).

(** [recvBrake2Rpt], lines 792-811. *)
Definition recvBrake2Rpt (msg : Frame) : M unit :=
  when (GetDlc ID_BRAKE_2_REPORT <=? dlc msg) (
    publish "brake_2_report" msg
      [num msg "brake_pressure" "DBW_BrakePress_bar";
       num msg "estimated_road_slope" "DBW_RoadSlopeEstimate";
       num msg "speed_set_point" "DBW_SpeedSetpt"]).

(** [recvSteering2Rpt], lines 813-834. *)
Definition recvSteering2Rpt (msg : Frame) : M unit :=
  when (GetDlc ID_STEERING_2_REPORT <=? dlc msg) (
    publish "steering_2_report" msg
      [num msg "vehicle_curvature_actual" "DBW_SteeringVehCurvatureAct";
       num msg "max_torque_driver" "DBW_SteerTrq_Driver";
       num msg "max_torque_motor" "DBW_SteerTrq_Motor"]).

(** [recvFaultActionRpt], lines 836-864. *)
Definition recvFaultActionRpt (msg : Frame) : M unit :=
  when (GetDlc ID_FAULT_ACTION_REPORT <=? dlc msg) (
    publish "fault_actions_report" msg
      [num msg "autonomous_disabled_no_brakes" "DBW_FltAct_AutonDsblNoBrakes";
       num msg "autonomous_disabled_apply_brakes" "DBW_FltAct_AutonDsblApplyBrakes";
       num msg "can_gateway_disabled" "DBW_FltAct_CANGatewayDsbl";
       num msg "inverter_contactor_disabled" "DBW_FltAct_InvtrCntctrDsbl";
       num msg "prevent_enter_autonomous_mode" "DBW_FltAct_PreventEnterAutonMode";
       num msg "warn_driver_only" "DBW_FltAct_WarnDriverOnly";
       num msg "chime_fcw_beeps" "DBW_FltAct_Chime_FcwBeeps"]).

(** [recvOtherActuatorsRpt], lines 866-922. *)
Definition recvOtherActuatorsRpt (msg : Frame) : M unit :=
  when (GetDlc ID_OTHER_ACTUATORS_REPORT <=? dlc msg) (
    publish "other_actuators_report" msg
      [num msg "ignition_state.status" "DBW_IgnitionState";
       num msg "horn_state.status" "DBW_HornState";
       num msg "diff_lock_state.status" "DBW_DiffLockState";
       num msg "turn_signal_state.value" "DBW_TurnSignalState";
       num msg "high_beam_state.value" "DBW_HighBeamState";
       num msg "low_beam_state.status" "DBW_LowBeamState";
       num msg "running_lights_state.status" "DBW_RunningLightsState";
       num msg "other_lights_state.status" "DBW_RunningLightsState";
       flag msg "mode_light_red" "DBW_ModeLightState_Red";
       flag msg "mode_light_yellow" "DBW_ModeLightState_Yellow";
       flag msg "mode_light_green" "DBW_ModeLightState_Green";
       flag msg "mode_light_blue" "DBW_ModeLightState_Blue";
       num msg "front_wiper_state.status" "DBW_FrontWiperState";
       num msg "rear_wiper_state.status" "DBW_RearWiperState";
       num msg "right_rear_door_state.value" "DBW_RightRearDoorState";
       num msg "left_rear_door_state.value" "DBW_LeftRearDoorState";
       num msg "liftgate_door_state.value" "DBW_LiftgateDoorState";
       num msg "door_lock_state.value" "DBW_DoorLockState"]).

(** [recvGpsReferenceRpt], lines 924-942. *)
Definition recvGpsReferenceRpt (msg : Frame) : M unit :=
  when (GetDlc ID_GPS_REFERENCE_REPORT <=? dlc msg) (
    publish "gps_reference_report" msg
      [num msg "ref_latitude" "DBW_GpsRefLat"; num msg "ref_longitude" "DBW_GpsRefLong"]).

(** [recvGpsRemainderRpt], lines 944-962. *)
Definition recvGpsRemainderRpt (msg : Frame) : M unit :=
  when (GetDlc ID_GPS_REMAINDER_REPORT <=? dlc msg) (
    publish "gps_remainder_report" msg
      [num msg "rem_latitude" "DBW_GpsRemainderLat";
       num msg "rem_longitude" "DBW_GpsRemainderLong"]).

(** [recvActionRpt], lines 964-991. *)
Definition recvActionRpt (msg : Frame) : M unit :=
  when (GetDlc ID_ACTION_REPORT <=? dlc msg) (
    setFault FAULT_ACTION (status_fault (signal msg "DBW_ActionFault"));;
    publish "action_report" msg
      [flag msg "enabled" "DBW_ActionEnabled";
       num msg "vehicle_stop_status.value" "DBW_ActionVehStop";
       num msg "emergency_brake_status.value" "DBW_ActionEmergencyBrk";
       num msg "fault.status" "DBW_ActionFault";
       num msg "rolling_counter" "DBW_ActionRollingCntr"]).

(** [recvArticulationRpt], lines 993-1026. *)
Definition recvArticulationRpt (msg : Frame) : M unit :=
  when (GetDlc ID_ARTICULATION_REPORT <=? dlc msg) (
    setFault FAULT_ARTIC (status_fault (signal msg "DBW_ArticulationFault"));;
    publish "articulation_report" msg
      [flag msg "enabled" "DBW_ArticulationEnabled";
       num msg "control_type.value" "DBW_ArticulationCtrlType";
       num msg "angle_actual" "DBW_ArticulationAngleAct";
       num msg "angle_desired" "DBW_ArticulationAngleDes";
       num msg "angle_steer" "DBW_ArticulationSteerWheelAng";
       num msg "fault.status" "DBW_ArticulationFault";
       flag msg "driver_activity" "DBW_ArticulationDriverActivity";
       num msg "rolling_counter" "DBW_ArticulationRollingCntr"]).

(** [recvDumpBedRpt], lines 1028-1068. *)
Definition recvDumpBedRpt (msg : Frame) : M unit :=
  when (GetDlc ID_DUMP_BED_REPORT <=? dlc msg) (
    let driver_activity := truthy (signal msg "DBW_DumpBedDriverActivity") in
    setFault FAULT_DUMP_BED (status_fault (signal msg "DBW_DumpBedFault"));;
    setOverride OVR_DUMP_BED driver_activity;;
    publish "dump_bed_report" msg
      [flag msg "enabled" "DBW_DumpBedEnabled";
       num msg "control_type.value" "DBW_DumpBedCtrlType";
       num msg "mode_actual.value" "DBW_DumpBedModeAct";
       num msg "mode_desired.value" "DBW_DumpBedModeDes";
       num msg "angle_actual" "DBW_DumpBedAngleAct";
       num msg "angle_desired" "DBW_DumpBedAngleDes";
       num msg "lever_pct_actual" "DBW_DumpBedLeverPercentReqAct";
       num msg "lever_pct_desired" "DBW_DumpBedLeverPercentReqDes";
       num msg "fault.status" "DBW_DumpBedFault";
       ("driver_activity", of_bool driver_activity);
       num msg "rolling_counter" "DBW_DumpBedRollingCntr"]).

(** [recvEngineRpt], lines 1070-1104. *)
Definition recvEngineRpt (msg : Frame) : M unit :=
  when (GetDlc ID_ENGINE_REPORT <=? dlc msg) (
    let driver_activity := truthy (signal msg "DBW_EngineDriverActivity") in
    setFault FAULT_ENGINE (status_fault (signal msg "DBW_EngineFault"));;
    setOverride OVR_ENGINE driver_activity;;
    publish "engine_report" msg
      [flag msg "enabled" "DBW_EngineEnabled";
       num msg "control_type.value" "DBW_EngineCtrlType";
       num msg "mode_actual.value" "DBW_EngineModeAct";
       num msg "mode_desired.value" "DBW_EngineModeDes";
       num msg "eng_key_mismatch.status" "DBW_EngineKeyStateMismatch";
       num msg "fault.status" "DBW_EngineFault";
       ("driver_activity", of_bool driver_activity);
       num msg "rolling_counter" "DBW_EngineRollingCntr"]).

(** The decoder of each report identifier. *)
Definition decoder (r : ReportId) : Frame → M unit :=
  match r with
  | ID_BRAKE_REPORT => recvBrakeRpt
  | ID_ACCEL_PEDAL_REPORT => recvAccelPedalRpt
  | ID_STEERING_REPORT => recvSteeringRpt
  | ID_GEAR_REPORT => recvGearRpt
  | ID_REPORT_WHEEL_SPEED => recvWheelSpeedRpt
  | ID_REPORT_WHEEL_POSITION => recvWheelPositionRpt
  | ID_REPORT_TIRE_PRESSURE => recvTirePressureRpt
  | ID_REPORT_SURROUND => recvSurroundRpt
  | ID_VIN => recvVinRpt
  | ID_REPORT_IMU => recvImuRpt
  | ID_REPORT_DRIVER_INPUT => recvDriverInputRpt
  | ID_MISC_REPORT => recvMiscRpt
  | ID_LOW_VOLTAGE_SYSTEM_REPORT => recvLowVoltageSystemRpt
  | ID_BRAKE_2_REPORT => recvBrake2Rpt
  | ID_STEERING_2_REPORT => recvSteering2Rpt
  | ID_FAULT_ACTION_REPORT => recvFaultActionRpt
  | ID_OTHER_ACTUATORS_REPORT => recvOtherActuatorsRpt
  | ID_GPS_REFERENCE_REPORT => recvGpsReferenceRpt
  | ID_GPS_REMAINDER_REPORT => recvGpsRemainderRpt
  | ID_ENGINE_REPORT => recvEngineRpt
  | ID_ARTICULATION_REPORT => recvArticulationRpt
  | ID_DUMP_BED_REPORT => recvDumpBedRpt
  | ID_ACTION_REPORT => recvActionRpt
  end.

(** [recvCAN], lines 217-333. *)
Definition recvCAN (msg : Frame) : M unit :=
  when (negb (is_rtr msg) && negb (is_error msg)) (
    match id msg with
    | Some r => decoder r msg
    | None => ret tt
    end).

(** ** Call sequences *)

(** One invocation of a handler or of a method of the node. *)
Inductive Call :=
| call_recvEnable
| call_recvDisable
| call_recvCAN (msg : Frame)
| call_recvBrakeCmd (msg : BrakeCmd.t)
| call_recvAcceleratorPedalCmd (msg : AcceleratorPedalCmd.t)
| call_recvSteeringCmd (msg : SteeringCmd.t)
| call_recvGearCmd (msg : GearCmd.t)
| call_recvGlobalEnableCmd (msg : GlobalEnableCmd.t)
| call_recvMiscCmd (msg : MiscCmd.t)
| call_recvActionCmd (msg : ActionCmd.t)
| call_recvArticulationCmd (msg : ArticulationCmd.t)
| call_recvDumpBedCmd (msg : DumpBedCmd.t)
| call_recvEngineCmd (msg : EngineCmd.t)
| call_timerCallback
| call_publishDbwEnabled
| call_setFault (which_fault : nat) (fault : bool)
| call_setOverride (which_ovr : nat) (override : bool)
| call_faultWatchdog (fault : bool) (src : Z)
| call_faultWatchdog3 (fault : bool) (src : Z) (braking : bool).

Definition handle (c : Call) : M unit :=
  match c with
  | call_recvEnable => enableSystem
  | call_recvDisable => disableSystem
  | call_recvCAN msg => recvCAN msg
  | call_recvBrakeCmd msg => recvBrakeCmd msg
  | call_recvAcceleratorPedalCmd msg => recvAcceleratorPedalCmd msg
  | call_recvSteeringCmd msg => recvSteeringCmd msg
  | call_recvGearCmd msg => recvGearCmd msg
  | call_recvGlobalEnableCmd msg => recvGlobalEnableCmd msg
  | call_recvMiscCmd msg => recvMiscCmd msg
  | call_recvActionCmd msg => recvActionCmd msg
  | call_recvArticulationCmd msg => recvArticulationCmd msg
  | call_recvDumpBedCmd msg => recvDumpBedCmd msg
  | call_recvEngineCmd msg => recvEngineCmd msg
  | call_timerCallback => timerCallback
  | call_publishDbwEnabled => publishDbwEnabled;; ret tt
  | call_setFault which_fault fault => setFault which_fault fault
  | call_setOverride which_ovr override => setOverride which_ovr override
  | call_faultWatchdog fault src => faultWatchdog fault src
  | call_faultWatchdog3 fault src braking => faultWatchdog3 fault src braking
  end.

Fixpoint run (cs : list Call) : M unit :=
  match cs with
  | [] => ret tt
  | c :: rest => handle c;; run rest
  end.

(** ** Construction *)

(** The constructor, lines 38-197: the three initialisation loops, the
    zero-filled joint arrays, and the first [publishDbwEnabled()]. [dbc] is
    the message table [NewDbc] builds from the definition file. *)
Definition RaptorDbwCAN (cfg : Config) (dbc : gmap string (gmap string Q))
    : unit * State * list Output :=
  (publishDbwEnabled;; ret tt)
    {| enables_ := map (λ i, i =? EN_DBW_PREV) (seq 0 NUM_ENABLES);
       overrides_ := replicate NUM_OVERRIDES false;
       faults_ := replicate NUM_FAULTS false;
       dbwDbc_ := dbc;
       vin_ := [];
       joint_state_ := {| js_stamp := {| sec := 0; nanosec := 0 |};
                          position := replicate JOINT_COUNT 0%Q;
                          velocity := replicate JOINT_COUNT 0%Q |};
       config_ := cfg |}.

End RaptorDbwCAN.

(** * Notions used in the statements *)

(** ** Neutral frames *)

(** The claim that an encoder yields one fixed frame whenever the command's
    enable flag is false or the system is not enabled, whatever the
    command's other fields. *)
Definition neutral_when_off {Cmd : Type} (encode : Cmd → M unit) (enable : Cmd → bool) : Prop :=
  ∀ s, ∃ frame, ∀ msg,
    enable msg = false ∨ enabled s = false → outputs_of (encode msg s) = [frame].

(** [off_frame name zeroed kept o]: the outputs [o] are one frame of message
    [name] in which every signal of [zeroed] is 0, apart from the signals
    of [kept], which carry the values listed there. *)
Definition off_frame (name : string) (zeroed : list string) (kept : list (string * Q))
    (o : list Output) : Prop :=
  ∃ m, o = [pub_can name m]
    ∧ (∀ sg, sg ∈ zeroed → sg ∉ kept.*1 → m !! sg = Some 0%Q)
    ∧ (∀ sg v, (sg, v) ∈ kept → m !! sg = Some v).

(** ** Counting and sample data *)

(** The number of state-change events in a run of outputs. *)
Definition is_sys_enable (o : Output) : bool :=
  match o with pub_sys_enable _ => true | _ => false end.
Definition publishes (o : list Output) : nat := length (List.filter is_sys_enable o).

(** The logger call [enableSystem] makes for fault [i]. *)
Definition fault_line {ext : Externals} (i : nat) : Output :=
  log 1648 ERROR ("DBW system disabled - " +:+ FAULT_SYSTEM i +:+ " fault.").

(** One choice of the external tables and constants, for the closed
    examples below: eight-byte messages throughout, the control modes
    numbered from zero, and the identity for the two libm functions. *)
Definition sample_externals : Externals := {|
  FAULT_SYSTEM i := nth i ["accelerator pedal"; "brakes"; "steering"; "watchdog";
                           "action"; "articulation"; "dump bed"; "engine"] "";
  OVR_SYSTEM i := nth i ["accelerator pedal"; "brakes"; "steering"; "PRND gear";
                         "dump bed"; "engine"] "";
  GetDlc _ := 8;
  OPEN_LOOP := 0%Q; CLOSED_LOOP_ACTUATOR := 1%Q; CLOSED_LOOP_VEHICLE := 2%Q;
  ARTIC_ANGLE := 1%Q; ARTIC_NONE := 0%Q;
  DUMP_MODE := 1%Q; DUMP_ANGLE := 2%Q; DUMP_NONE := 0%Q;
  DUMP_LOWER := 1%Q; DUMP_RAISE := 2%Q;
  ENGINE_KEY_SWITCH := 1%Q; ENGINE_NONE := 0%Q;
  libm_tan x := x; libm_atan x := x
|}.

Definition sample_config : Config := {|
  max_steer_angle_ := 470%Q; max_dump_angle_ := 45%Q; max_articulation_angle_ := 40%Q;
  acker_wheelbase_ := (28498 # 10000)%Q; acker_track_ := (15824 # 10000)%Q;
  steering_ratio_ := (148 # 10)%Q
|}.

(** The node right after construction, and after one accepted enable
    request. *)
Definition sample_start : State :=
  state_of (RaptorDbwCAN sample_config ∅).
Definition sample_enabled : State :=
  state_of (run (ext := sample_externals) [call_recvEnable] sample_start).

(** The subsystems the timer looks at, in the order it looks at them, with
    the message each one resends. *)
Definition timer_table : list (nat * string) :=
  [(OVR_BRAKE, "AKit_BrakeRequest"); (OVR_ACCEL, "AKit_AccelPdlRequest");
   (OVR_STEER, "AKit_SteeringRequest"); (OVR_GEAR, "AKit_GearRequest");
   (OVR_DUMP_BED, "AKit_DumpBedRequest"); (OVR_ENGINE, "AKit_EngineRequest")].

(** The message a frame was read from, for the outputs that are frames. *)
Definition frame_name (o : Output) : option string :=
  match o with pub_can name _ => Some name | _ => None end.

(** A brake command in closed-loop torque mode asking for 50 percent. *)
Definition brake_torque_50 : BrakeCmd.t := {|
  BrakeCmd.control_type := 1%Q; BrakeCmd.pedal_cmd := 0%Q; BrakeCmd.torque_cmd := 50%Q;
  BrakeCmd.decel_limit := 0%Q; BrakeCmd.decel_negative_jerk_limit := 0%Q;
  BrakeCmd.enable := true; BrakeCmd.park_brake_cmd := 0%Q;
  BrakeCmd.rolling_counter := 3%Q |}.

(** A full-length steering report in which only the driver-activity signal
    is set. *)
Definition steering_report_driver_active : Frame := {|
  id := Some ID_STEERING_REPORT; is_rtr := false; is_error := false; dlc := 8;
  stamp := {| sec := 10; nanosec := 0 |};
  signal sg := if String.eqb sg "DBW_SteeringDriverActivity" then 1%Q else 0%Q |}.

(** A full-length brake report in which only the driver-activity signal is
    set. *)
Definition brake_report_driver_active : Frame := {|
  id := Some ID_BRAKE_REPORT; is_rtr := false; is_error := false; dlc := 8;
  stamp := {| sec := 10; nanosec := 0 |};
  signal sg := if String.eqb sg "DBW_BrakeDriverActivity" then 1%Q else 0%Q |}.

(** ** Velocity limits *)

(** The transform the specification gives for velocity-limit fields: the
    absolute value halved, rounded, clamped to [1, 254]. *)
Definition velocity_limit_spec (v : Q) : Z :=
  Z.max 1 (Z.min 254 (Qtrunc (roundf (Qabs v / 2)))).

(** A steering command in angle mode with a given angle velocity, and an
    articulation command with a given velocity limit. *)
Definition steering_with_velocity (v : Q) : SteeringCmd.t := {|
  SteeringCmd.control_type := 1%Q; SteeringCmd.torque_cmd := 0%Q;
  SteeringCmd.angle_cmd := 90%Q; SteeringCmd.vehicle_curvature_cmd := 0%Q;
  SteeringCmd.angle_velocity := v; SteeringCmd.enable := true;
  SteeringCmd.ignore := false; SteeringCmd.rolling_counter := 1%Q |}.

Definition articulation_with_limit (v : Q) : ArticulationCmd.t := {|
  ArticulationCmd.enable := true; ArticulationCmd.control_type := 1%Q;
  ArticulationCmd.angle_cmd := 10%Q; ArticulationCmd.ignore_driver := 0%Q;
  ArticulationCmd.velocity_limit := v; ArticulationCmd.rolling_counter := 1%Q |}.

(** The value a frame carries for a signal, for the outputs that are one
    frame. *)
Definition frame_signal (sg : string) (o : list Output) : option Q :=
  match o with
  | [pub_can _ m] => m !! sg
  | _ => None
  end.

(** ** Short frames *)

(** The claim that every decoder drops a frame shorter than the defined
    length of its message, without publishing, routing or changing
    anything. *)
Definition drops_short_frames {ext : Externals} : Prop :=
  ∀ r msg s, dlc msg < GetDlc r → decoder r msg s = (tt, s, []).

(** The length each decoder asks of a frame before it reads it. *)
Definition required_dlc {ext : Externals} (r : ReportId) : nat :=
  match r with
  | ID_GEAR_REPORT => 1
  | _ => GetDlc r
  end.

(** A gear report of declared length 1 that shows driver activity. *)
Definition gear_report_one_byte : Frame := {|
  id := Some ID_GEAR_REPORT; is_rtr := false; is_error := false; dlc := 1;
  stamp := {| sec := 10; nanosec := 0 |};
  signal sg := if String.eqb sg "DBW_PrndDriverActivity" then 1%Q else 0%Q |}.

(** ** Accelerator-pedal reports *)

(** Full-length accelerator-pedal reports: one with both channel faults set
    and the system fault signal clear, one with only channel 1 faulted. *)
Definition accel_report_both_channels : Frame := {|
  id := Some ID_ACCEL_PEDAL_REPORT; is_rtr := false; is_error := false; dlc := 8;
  stamp := {| sec := 10; nanosec := 0 |};
  signal sg := if String.eqb sg "DBW_AccelPdlFault_Ch1" || String.eqb sg "DBW_AccelPdlFault_Ch2"
               then 1%Q else 0%Q |}.

Definition accel_report_channel_1 : Frame := {|
  id := Some ID_ACCEL_PEDAL_REPORT; is_rtr := false; is_error := false; dlc := 8;
  stamp := {| sec := 10; nanosec := 0 |};
  signal sg := if String.eqb sg "DBW_AccelPdlFault_Ch1" then 1%Q else 0%Q |}.

(** ** VIN frames and wheel-speed frames *)

(** The digit signals of the three VIN phases. *)
Definition vin0_digits : list string :=
  ["DBW_VinDigit_01"; "DBW_VinDigit_02"; "DBW_VinDigit_03"; "DBW_VinDigit_04";
   "DBW_VinDigit_05"; "DBW_VinDigit_06"; "DBW_VinDigit_07"].
Definition vin1_digits : list string :=
  ["DBW_VinDigit_08"; "DBW_VinDigit_09"; "DBW_VinDigit_10"; "DBW_VinDigit_11";
   "DBW_VinDigit_12"; "DBW_VinDigit_13"; "DBW_VinDigit_14"].
Definition vin2_digits : list string :=
  ["DBW_VinDigit_15"; "DBW_VinDigit_16"; "DBW_VinDigit_17"].

(** What a frame holds for a run of digit signals, as characters. *)
Definition digits_of (msg : Frame) (sgs : list string) : list Z :=
  map (λ sg, Qtrunc (signal msg sg)) sgs.

(** The position of a signal in a list, counted from [n]; 0 if absent. *)
Fixpoint digit_number (sg : string) (sgs : list string) (n : Z) : Q :=
  match sgs with
  | [] => 0%Q
  | x :: rest => if String.eqb sg x then inject_Z n else digit_number sg rest (n + 1)
  end.

(** A full-length VIN frame of the given phase in which digit signal
    number [n] holds [n]. *)
Definition vin_frame (mux : Q) : Frame := {|
  id := Some ID_VIN; is_rtr := false; is_error := false; dlc := 8;
  stamp := {| sec := 10; nanosec := 0 |};
  signal sg :=
    if String.eqb sg "DBW_VinMultiplexor" then mux
    else digit_number sg (vin0_digits ++ vin1_digits ++ vin2_digits) 1 |}.

(** A full-length wheel-speed frame with one speed on all four wheels. *)
Definition wheel_speed_frame (t : Stamp) (speed : Q) : Frame := {|
  id := Some ID_REPORT_WHEEL_SPEED; is_rtr := false; is_error := false; dlc := 8;
  stamp := t;
  signal _ := speed |}.

(** [keeps_disabled c]: running [c] from a disabled state ends in a
    disabled state. *)
Definition keeps_disabled {A} (c : M A) : Prop :=
  ∀ s, enabled s = false → enabled (state_of (c s)) = false.

(** A brake command with the enable flag off and every field at zero but
    the rolling counter. *)
Definition brake_off (counter : Q) : BrakeCmd.t := {|
  BrakeCmd.control_type := 0%Q; BrakeCmd.pedal_cmd := 0%Q; BrakeCmd.torque_cmd := 0%Q;
  BrakeCmd.decel_limit := 0%Q; BrakeCmd.decel_negative_jerk_limit := 0%Q;
  BrakeCmd.enable := false; BrakeCmd.park_brake_cmd := 0%Q;
  BrakeCmd.rolling_counter := counter |}.

(** ** Notions for call sequences *)

(** The last-published shadow, and the states in which it agrees with
    [enabled()]. *)
Definition shadow (s : State) : bool := rd (enables_ s) EN_DBW_PREV.
Definition synced (s : State) : Prop := shadow s = enabled s.

(** [tracks p o]: walking the outputs [o] with [p] the value last
    published, every state-change event carries the opposite of the value
    published before it; the result is the value last published at the
    end, [None] if some event repeats its predecessor. *)
Fixpoint tracks (p : bool) (o : list Output) : option bool :=
  match o with
  | [] => Some p
  | pub_sys_enable d :: rest => if eqb d p then None else tracks d rest
  | _ :: rest => tracks p rest
  end.

(** No serious fault is set while the system is enabled. *)
Definition fault_free_when_enabled (s : State) : Prop :=
  enabled s = true → ∀ i, i < NUM_SERIOUS_FAULTS → rd (faults_ s) i = false.

(** What the arbitration engine owns. *)
Definition arbitration (s : State) : list bool * list bool * list bool :=
  (enables_ s, overrides_ s, faults_ s).

(** Properties of a handler, each closed under sequencing:
    [edge c], the handler keeps the arrays at their sizes and publishes
    state changes alternately; [untouched c], it leaves the arbitration
    state alone; [resync c], it always ends with the shadow equal to
    [enabled()]; [keeps_synced c] and [keeps_fault_free c], it preserves
    the two invariants. *)
Definition edge {A} (c : M A) : Prop :=
  ∀ s, wf s →
    wf (state_of (c s)) ∧
    tracks (shadow s) (outputs_of (c s)) = Some (shadow (state_of (c s))).
Definition untouched {A} (c : M A) : Prop :=
  ∀ s, arbitration (state_of (c s)) = arbitration s
       ∧ publishes (outputs_of (c s)) = 0.
Definition resync {A} (c : M A) : Prop :=
  ∀ s, wf s → synced (state_of (c s)).
Definition keeps_synced {A} (c : M A) : Prop :=
  ∀ s, wf s → synced s → synced (state_of (c s)).
Definition keeps_fault_free {A} (c : M A) : Prop :=
  ∀ s, wf s → fault_free_when_enabled s → fault_free_when_enabled (state_of (c s)).

(** The reports that carry no fault or driver-activity signal for the
    arbitration engine. *)
Definition sensor_report (r : ReportId) : bool :=
  match r with
  | ID_BRAKE_REPORT | ID_ACCEL_PEDAL_REPORT | ID_STEERING_REPORT | ID_GEAR_REPORT
  | ID_ACTION_REPORT | ID_ARTICULATION_REPORT | ID_DUMP_BED_REPORT | ID_ENGINE_REPORT => false
  | _ => true
  end.

(** The calls that only translate: command encoders, the timer, and frames
    that are dropped by [recvCAN] or go to a sensor decoder. *)
Definition passive (c : Call) : bool :=
  match c with
  | call_recvBrakeCmd _ | call_recvAcceleratorPedalCmd _ | call_recvSteeringCmd _
  | call_recvGearCmd _ | call_recvGlobalEnableCmd _ | call_recvMiscCmd _
  | call_recvActionCmd _ | call_recvArticulationCmd _ | call_recvDumpBedCmd _
  | call_recvEngineCmd _ | call_timerCallback => true
  | call_recvCAN msg =>
      if negb (is_rtr msg) && negb (is_error msg)
      then match id msg with Some r => sensor_report r | None => true end
      else true
  | _ => false
  end.

(** [lowers c]: [c] neither raises the enable flag nor a serious fault. *)
Definition lowers {A} (c : M A) : Prop :=
  ∀ s, (enabled (state_of (c s)) = true → enabled s = true)
       ∧ ∀ i, i < NUM_SERIOUS_FAULTS →
           rd (faults_ (state_of (c s))) i = true → rd (faults_ s) i = true.

(** The two lines the watchdog logs about its braking bit, lines 1734 to
    1742. *)
Definition braking_line (o : Output) : bool :=
  match o with
  | log _ _ text =>
      String.eqb text "Watchdog - new braking fault."
      || String.eqb text "Watchdog - braking fault is cleared."
  | _ => false
  end.

(** [keeps_braking c]: [c] leaves [faults_[FAULT_WATCH_BRAKES]] at its value
    and logs neither braking line. *)
Definition keeps_braking {A} (c : M A) : Prop :=
  ∀ s, rd (faults_ (state_of (c s))) FAULT_WATCH_BRAKES = rd (faults_ s) FAULT_WATCH_BRAKES
       ∧ existsb braking_line (outputs_of (c s)) = false.

(** The one call that hands the watchdog a braking flag of its own. *)
Definition is_faultWatchdog3 (c : Call) : bool :=
  match c with call_faultWatchdog3 _ _ _ => true | _ => false end.

(** ** The command encoders as one table *)

(** The codec message a command encoder addresses, and the [SetResult]
    calls it makes in state [s]; other calls address none. *)
Definition message_of (c : Call) : option string :=
  match c with
  | call_recvBrakeCmd _ => Some "AKit_BrakeRequest"
  | call_recvAcceleratorPedalCmd _ => Some "AKit_AccelPdlRequest"
  | call_recvSteeringCmd _ => Some "AKit_SteeringRequest"
  | call_recvGearCmd _ => Some "AKit_PrndRequest"
  | call_recvGlobalEnableCmd _ => Some "AKit_GlobalEnbl"
  | call_recvMiscCmd _ => Some "AKit_OtherActuators"
  | call_recvActionCmd _ => Some "AKit_ActionRequest"
  | call_recvArticulationCmd _ => Some "AKit_ArticulationRequest"
  | call_recvDumpBedCmd _ => Some "AKit_DumpBedRequest"
  | call_recvEngineCmd _ => Some "AKit_EngineRequest"
  | _ => None
  end.

Definition signals_of {ext : Externals} (c : Call) (s : State) : list (string * Q) :=
  match c with
  | call_recvBrakeCmd m => brake_signals (enabled s) m
  | call_recvAcceleratorPedalCmd m => accel_signals (enabled s) m
  | call_recvSteeringCmd m => steering_signals (enabled s) (max_steer_angle_ (config_ s)) m
  | call_recvGearCmd m => gear_signals (enabled s) m
  | call_recvGlobalEnableCmd m => global_enable_signals (enabled s) m
  | call_recvMiscCmd m => misc_signals (enabled s) m
  | call_recvActionCmd m => action_signals (enabled s) m
  | call_recvArticulationCmd m =>
      articulation_signals (enabled s) (max_articulation_angle_ (config_ s)) m
  | call_recvDumpBedCmd m => dump_bed_signals (enabled s) (max_dump_angle_ (config_ s)) m
  | call_recvEngineCmd m => engine_signals (enabled s) m
  | _ => []
  end.

(** ** What a report routes to the arbitration engine *)


(** The serious faults and the overrides a decoder writes for a frame, in
    program order: its own [setFault], the watchdog fault where it calls
    [faultWatchdog], and its own [setOverride]. *)
Definition fault_writes (r : ReportId) (msg : Frame) : list (nat * bool) :=
  match r with
  | ID_BRAKE_REPORT =>
      [(FAULT_BRAKE, truthy (signal msg "DBW_BrakeFault"));
       (FAULT_WATCH, truthy (signal msg "DBW_BrakeFault"))]
  | ID_ACCEL_PEDAL_REPORT =>
      [(FAULT_ACCEL, truthy (signal msg "DBW_AccelPdlFault_Ch1")
                     && truthy (signal msg "DBW_AccelPdlFault_Ch2"));
       (FAULT_WATCH, truthy (signal msg "DBW_AccelPdlFault"))]
  | ID_STEERING_REPORT =>
      [(FAULT_STEER, truthy (signal msg "DBW_SteeringFault"));
       (FAULT_WATCH, truthy (signal msg "DBW_SteeringFault"))]
  | ID_ACTION_REPORT => [(FAULT_ACTION, status_fault (signal msg "DBW_ActionFault"))]
  | ID_ARTICULATION_REPORT =>
      [(FAULT_ARTIC, status_fault (signal msg "DBW_ArticulationFault"))]
  | ID_DUMP_BED_REPORT => [(FAULT_DUMP_BED, status_fault (signal msg "DBW_DumpBedFault"))]
  | ID_ENGINE_REPORT => [(FAULT_ENGINE, status_fault (signal msg "DBW_EngineFault"))]
  | _ => []
  end.

Definition override_writes (r : ReportId) (msg : Frame) : list (nat * bool) :=
  match r with
  | ID_BRAKE_REPORT => [(OVR_BRAKE, truthy (signal msg "DBW_BrakeDriverActivity"))]
  | ID_ACCEL_PEDAL_REPORT => [(OVR_ACCEL, truthy (signal msg "DBW_AccelPdlDriverActivity"))]
  | ID_STEERING_REPORT => [(OVR_STEER, truthy (signal msg "DBW_SteeringDriverActivity"))]
  | ID_GEAR_REPORT => [(OVR_GEAR, truthy (signal msg "DBW_PrndDriverActivity"))]
  | ID_DUMP_BED_REPORT => [(OVR_DUMP_BED, truthy (signal msg "DBW_DumpBedDriverActivity"))]
  | ID_ENGINE_REPORT => [(OVR_ENGINE, truthy (signal msg "DBW_EngineDriverActivity"))]
  | _ => []
  end.

(** The array [a] after the writes [ws]. *)
Definition written (ws : list (nat * bool)) (a : list bool) : list bool :=
  foldl (λ a p, <[p.1 := p.2]> a) a ws.

(** The call of the watchdog a decoder makes, where it makes one: the
    fault and the source it passes. The brake, the accelerator-pedal and
    the steering decoder each make one; the steering decoder passes no
    source. *)
Definition watchdog_call (r : ReportId) (msg : Frame) : option (bool * Z) :=
  match r with
  | ID_BRAKE_REPORT =>
      Some (truthy (signal msg "DBW_BrakeFault"),
            if truthy (signal msg "DBW_BrakeFault") then 1%Z else 0%Z)
  | ID_ACCEL_PEDAL_REPORT =>
      Some (truthy (signal msg "DBW_AccelPdlFault"),
            if truthy (signal msg "DBW_AccelPdlFault") then 1%Z else 0%Z)
  | ID_STEERING_REPORT => Some (truthy (signal msg "DBW_SteeringFault"), 0%Z)
  | _ => None
  end.

(** The warning bit of the watchdog after the report, [old] being the bit
    before it. *)
Definition warning_after (r : ReportId) (msg : Frame) (old : bool) : bool :=
  match watchdog_call r msg with
  | Some (f, src) => f && (negb (src =? 0)%Z || old)
  | None => old
  end.

(** ** Parts of the state a call leaves alone *)

(** [leaves f c]: the component [f] of the state is the same after [c]. *)
Definition leaves {A B} (f : State → B) (c : M A) : Prop :=
  ∀ s, f (state_of (c s)) = f s.

(** The reports that write the VIN buffer and the joint-state record. *)
Definition writes_vin (c : Call) : bool :=
  match c with
  | call_recvCAN msg =>
      match id msg with Some ID_VIN => true | _ => false end
  | _ => false
  end.

Definition writes_joint_state (c : Call) : bool :=
  match c with
  | call_recvCAN msg =>
      match id msg with
      | Some ID_REPORT_WHEEL_SPEED | Some ID_STEERING_REPORT => true
      | _ => false
      end
  | _ => false
  end.

(** ** The joint-state record *)

(** The record has its six joints and the four wheel positions lie
    strictly within one turn either way. *)
Definition wrapped (p : Q) : Prop := (- (2 * M_PI) < p)%Q ∧ (p < 2 * M_PI)%Q.
Definition joints_ok (s : State) : Prop :=
  length (position (joint_state_ s)) = JOINT_COUNT
  ∧ length (velocity (joint_state_ s)) = JOINT_COUNT
  ∧ ∀ i, i ≤ JOINT_RR → wrapped (rdq (position (joint_state_ s)) i).

(** ** Published reports *)

(** The reports among the outputs, each with its topic and time stamp. *)
Definition report_stamps (o : list Output) : list (string * Stamp) :=
  omap (λ o, match o with pub_report topic r => Some (topic, r_stamp r) | _ => None end) o.

(** [no_report c]: [c] publishes no report. *)
Definition no_report {A} (c : M A) : Prop :=
  ∀ s, report_stamps (outputs_of (c s)) = [].

(** ** Sample data for the throttle and for commands with the enable flag off *)

(** Two serious faults are set on the constructed node, then an enable
    request arrives. *)
Definition enable_with_two_faults : list Call :=
  [call_setFault FAULT_ACCEL true; call_setFault FAULT_BRAKE true; call_recvEnable].

(** A clock that reads 10 s at the first logger call of the process and a
    microsecond more at each later one. *)
Definition microsecond_clock (k : nat) : Z := (10000000000 + Z.of_nat k * 1000)%Z.

(** A log call of the statement at line [site]. *)
Definition at_site (site : nat) (o : Output) : Prop := ∃ sev text, o = log site sev text.

(** Commands whose own enable flag is off: a brake command in closed-loop
    torque mode asking for 50 percent and for the parking brake, an
    accelerator-pedal command in open-loop mode asking for 30 percent, a
    steering command in angle mode asking for 90 degrees, a gear command
    asking for gear 4, and an articulation command in angle mode asking for
    10 degrees. *)
Definition brake_torque_50_off : BrakeCmd.t := {|
  BrakeCmd.control_type := 1%Q; BrakeCmd.pedal_cmd := 0%Q; BrakeCmd.torque_cmd := 50%Q;
  BrakeCmd.decel_limit := 0%Q; BrakeCmd.decel_negative_jerk_limit := 0%Q;
  BrakeCmd.enable := false; BrakeCmd.park_brake_cmd := 1%Q;
  BrakeCmd.rolling_counter := 3%Q |}.

Definition accel_pedal_30_off : AcceleratorPedalCmd.t := {|
  AcceleratorPedalCmd.control_type := 0%Q; AcceleratorPedalCmd.pedal_cmd := 30%Q;
  AcceleratorPedalCmd.torque_cmd := 0%Q; AcceleratorPedalCmd.speed_cmd := 0%Q;
  AcceleratorPedalCmd.road_slope := 0%Q; AcceleratorPedalCmd.accel_limit := 0%Q;
  AcceleratorPedalCmd.accel_positive_jerk_limit := 0%Q;
  AcceleratorPedalCmd.enable := false; AcceleratorPedalCmd.ignore := false;
  AcceleratorPedalCmd.rolling_counter := 3%Q |}.

Definition steering_90_off : SteeringCmd.t := {|
  SteeringCmd.control_type := 1%Q; SteeringCmd.torque_cmd := 0%Q;
  SteeringCmd.angle_cmd := 90%Q; SteeringCmd.vehicle_curvature_cmd := 0%Q;
  SteeringCmd.angle_velocity := 7%Q; SteeringCmd.enable := false;
  SteeringCmd.ignore := false; SteeringCmd.rolling_counter := 3%Q |}.

Definition gear_4_off : GearCmd.t := {|
  GearCmd.enable := false; GearCmd.cmd := 4%Q; GearCmd.rolling_counter := 3%Q |}.

Definition articulation_10_off : ArticulationCmd.t := {|
  ArticulationCmd.enable := false; ArticulationCmd.control_type := 1%Q;
  ArticulationCmd.angle_cmd := 10%Q; ArticulationCmd.ignore_driver := 0%Q;
  ArticulationCmd.velocity_limit := 5%Q; ArticulationCmd.rolling_counter := 3%Q |}.

(** A brake report of declared length 1 that shows driver activity. *)
Definition brake_report_one_byte : Frame := {|
  id := Some ID_BRAKE_REPORT; is_rtr := false; is_error := false; dlc := 1;
  stamp := {| sec := 10; nanosec := 0 |};
  signal sg := if String.eqb sg "DBW_BrakeDriverActivity" then 1%Q else 0%Q |}.

(** * Properties *)

(** Unfolding the handlers by family. *)
Ltac unfold_decoders :=
  unfold recvBrakeRpt, recvAccelPedalRpt, recvSteeringRpt, recvGearRpt,
    recvWheelSpeedRpt, recvWheelPositionRpt, recvTirePressureRpt,
    recvSurroundRpt, recvVinRpt, recvImuRpt, recvDriverInputRpt, recvMiscRpt,
    recvLowVoltageSystemRpt, recvBrake2Rpt, recvSteering2Rpt,
    recvFaultActionRpt, recvOtherActuatorsRpt, recvGpsReferenceRpt,
    recvGpsRemainderRpt, recvActionRpt, recvArticulationRpt, recvDumpBedRpt,
    recvEngineRpt.

Ltac unfold_encoders :=
  unfold recvBrakeCmd, recvAcceleratorPedalCmd, recvSteeringCmd, recvGearCmd,
    recvGlobalEnableCmd, recvMiscCmd, recvActionCmd, recvArticulationCmd,
    recvDumpBedCmd, recvEngineCmd.

Section Properties.
Context {ext : Externals}.

(** ** Reading the monad *)

Lemma state_of_bind {A B} (c : M A) (k : A → M B) s :
  state_of (bind c k s) = state_of (k (value_of (c s)) (state_of (c s))).
Proof. reflexivity. Qed.

Lemma outputs_of_bind {A B} (c : M A) (k : A → M B) s :
  outputs_of (bind c k s) =
  outputs_of (c s) ++ outputs_of (k (value_of (c s)) (state_of (c s))).
Proof. reflexivity. Qed.

Lemma value_of_bind {A B} (c : M A) (k : A → M B) s :
  value_of (bind c k s) = value_of (k (value_of (c s)) (state_of (c s))).
Proof. reflexivity. Qed.

(** ** The enable flag is only ever raised by [enableSystem] *)

Lemma keeps_disabled_ret {A} (a : A) : keeps_disabled (ret a).
Proof. intros s Hs. exact Hs. Qed.

Lemma keeps_disabled_bind {A B} (c : M A) (k : A → M B) :
  keeps_disabled c → (∀ a, keeps_disabled (k a)) → keeps_disabled (bind c k).
Proof. intros Hc Hk s Hs. rewrite state_of_bind. apply Hk, Hc, Hs. Qed.

Lemma keeps_disabled_get {A} (f : State → A) : keeps_disabled (get f).
Proof. intros s Hs. exact Hs. Qed.

Lemma keeps_disabled_emit o : keeps_disabled (emit o).
Proof. intros s Hs. exact Hs. Qed.

Lemma keeps_disabled_when b (c : M unit) : keeps_disabled c → keeps_disabled (when b c).
Proof. intros Hc. destruct b; [exact Hc | apply keeps_disabled_ret]. Qed.

Lemma keeps_disabled_if {A} (b : bool) (c1 c2 : M A) :
  keeps_disabled c1 → keeps_disabled c2 → keeps_disabled (if b then c1 else c2).
Proof. destruct b; auto. Qed.

Lemma keeps_disabled_modify (f : State → State) :
  (∀ s, rd (enables_ (f s)) EN_DBW = true → rd (enables_ s) EN_DBW = true) →
  keeps_disabled (modify f).
Proof.
  intros Hf s Hs. unfold enabled in *. cbn.
  destruct (rd (enables_ (f s)) EN_DBW) eqn:E; [|done].
  apply Hf in E. congruence.
Qed.

Lemma rd_insert_eq (a : list bool) i v : i < length a → rd (<[i := v]> a) i = v.
Proof. intros Hi. unfold rd. by rewrite list_lookup_insert_eq. Qed.

Lemma rd_insert_ne (a : list bool) i j v : i ≠ j → rd (<[i := v]> a) j = rd a j.
Proof. intros Hij. unfold rd. by rewrite list_lookup_insert_ne. Qed.

Lemma rd_insert_false (a : list bool) i j : rd (<[i := false]> a) j = true → rd a j = true.
Proof.
  destruct (decide (i = j)) as [->|Hij]; [|by rewrite rd_insert_ne].
  destruct (decide (j < length a)) as [Hj|Hj].
  - by rewrite rd_insert_eq.
  - rewrite list_insert_ge; [done | lia].
Qed.

Lemma rd_true_lt (a : list bool) i : rd a i = true → i < length a.
Proof.
  unfold rd. destruct (a !! i) eqn:E; [|done].
  intros _. by eapply lookup_lt_Some.
Qed.

Create HintDb disabled discriminated.
Hint Resolve keeps_disabled_ret keeps_disabled_get keeps_disabled_emit
  keeps_disabled_when keeps_disabled_if : disabled.
Hint Extern 2 (keeps_disabled (bind _ _)) =>
  apply keeps_disabled_bind; [| intros ?] : disabled.
Hint Extern 2 (keeps_disabled (modify _)) =>
  apply keeps_disabled_modify; intros ?; cbn;
  first [ exact (λ H, H) | apply rd_insert_false
        | rewrite rd_insert_ne by (unfold EN_DBW, EN_DBW_PREV; lia); exact (λ H, H) ] : disabled.

Lemma keeps_disabled_publishDbwEnabled : keeps_disabled publishDbwEnabled.
Proof. unfold publishDbwEnabled. auto 10 with disabled. Qed.
Hint Resolve keeps_disabled_publishDbwEnabled : disabled.

Lemma keeps_disabled_setFault w v : keeps_disabled (setFault w v).
Proof. unfold setFault. auto 20 with disabled. Qed.

Lemma keeps_disabled_setOverride w v : keeps_disabled (setOverride w v).
Proof. unfold setOverride. auto 20 with disabled. Qed.
Hint Resolve keeps_disabled_setFault keeps_disabled_setOverride : disabled.

Lemma keeps_disabled_disableSystem : keeps_disabled disableSystem.
Proof. unfold disableSystem. auto 20 with disabled. Qed.

Lemma keeps_disabled_faultWatchdog3 f src b : keeps_disabled (faultWatchdog3 f src b).
Proof. unfold faultWatchdog3. auto 40 with disabled. Qed.
Hint Resolve keeps_disabled_faultWatchdog3 : disabled.

Lemma keeps_disabled_faultWatchdog f src : keeps_disabled (faultWatchdog f src).
Proof. unfold faultWatchdog. auto with disabled. Qed.

Lemma keeps_disabled_send name l : keeps_disabled (send name l).
Proof. unfold send. auto 10 with disabled. Qed.

Lemma keeps_disabled_publish topic msg fields : keeps_disabled (publish topic msg fields).
Proof. unfold publish. auto with disabled. Qed.

Lemma keeps_disabled_wheels st a b c d : keeps_disabled (publishJointStates_wheels st a b c d).
Proof. unfold publishJointStates_wheels. auto 10 with disabled. Qed.

Lemma keeps_disabled_steering st a : keeps_disabled (publishJointStates_steering st a).
Proof. unfold publishJointStates_steering. auto 10 with disabled. Qed.

Lemma keeps_disabled_push_digits msg sgs : keeps_disabled (push_digits msg sgs).
Proof. unfold push_digits. auto with disabled. Qed.
Hint Resolve keeps_disabled_disableSystem keeps_disabled_faultWatchdog
  keeps_disabled_send keeps_disabled_publish keeps_disabled_wheels
  keeps_disabled_steering keeps_disabled_push_digits : disabled.

Lemma keeps_disabled_timerCallback : keeps_disabled timerCallback.
Proof. unfold timerCallback. auto 40 with disabled. Qed.

Lemma keeps_disabled_decoder r msg : keeps_disabled (decoder r msg).
Proof.
  destruct r; cbn [decoder]; unfold_decoders; auto 20 with disabled.
Qed.
Hint Resolve keeps_disabled_timerCallback keeps_disabled_decoder : disabled.

Lemma keeps_disabled_recvCAN msg : keeps_disabled (recvCAN msg).
Proof. unfold recvCAN. destruct (id msg); auto with disabled. Qed.
Hint Resolve keeps_disabled_recvCAN : disabled.

(** Every call but an enable request keeps a disabled system disabled. *)
Lemma keeps_disabled_handle c : c ≠ call_recvEnable → keeps_disabled (handle c).
Proof.
  intros Hc. destruct c; try done; cbn [handle]; unfold_encoders;
    auto 10 with disabled.
Qed.

(** An enable request raises the flag only when no serious fault is set. *)
Lemma enableSystem_raises s :
  enabled s = false → enabled (state_of (enableSystem s)) = true → fault s = false.
Proof.
  intros Hs. unfold enableSystem. rewrite state_of_bind. cbn [get value_of state_of fst snd].
  unfold enabled in Hs. rewrite Hs. cbn [negb when].
  rewrite state_of_bind. cbn [get value_of state_of fst snd].
  destruct (fault s) eqn:Hf; [|done].
  intros He. exfalso.
  assert (Hloop : ∀ idx, keeps_disabled (for_each idx log_asserted_fault)).
  { induction idx as [|i idx IH]; cbn [for_each]; [auto with disabled|].
    unfold log_asserted_fault at 1. auto 10 with disabled. }
  rewrite (Hloop _ s) in He; [done | exact Hs].
Qed.

Lemma run_app (pre post : list Call) s :
  state_of (run (pre ++ post) s) = state_of (run post (state_of (run pre s))).
Proof.
  revert s. induction pre as [|c pre IH]; intros s; [done|].
  cbn [app run]. rewrite !state_of_bind. apply IH.
Qed.

(** From a disabled state, a call sequence that ends enabled contains an
    enable request that found the system disabled and free of serious
    faults, and raised the flag. *)
Lemma enabled_only_by_enable (cs : list Call) s :
  enabled s = false → enabled (state_of (run cs s)) = true →
  ∃ pre post, cs = pre ++ call_recvEnable :: post ∧
    enabled (state_of (run pre s)) = false ∧
    fault (state_of (run pre s)) = false ∧
    enabled (state_of (run (pre ++ [call_recvEnable]) s)) = true.
Proof.
  revert s. induction cs as [|c cs IH]; intros s Hs He.
  { cbn in He. congruence. }
  cbn [run] in He. rewrite state_of_bind in He.
  destruct (enabled (state_of (handle c s))) eqn:Hc.
  - assert (c = call_recvEnable) as ->.
    { destruct c; try done;
        (rewrite keeps_disabled_handle in Hc; [done | done | exact Hs]). }
    exists [], cs. cbn [app run].
    split; [done|]. split; [exact Hs|]. split; [by apply enableSystem_raises|].
    rewrite state_of_bind. exact Hc.
  - destruct (IH _ Hc He) as (pre & post & -> & H1 & H2 & H3).
    exists (c :: pre), post. cbn [app run]. rewrite !state_of_bind. done.
Qed.

(** What [publishDbwEnabled] does, in one equation. *)
Lemma publishDbwEnabled_eq s :
  publishDbwEnabled s =
  (negb (eqb (rd (enables_ s) EN_DBW_PREV) (enabled s)),
   with_enables (<[EN_DBW_PREV := enabled s]>) s,
   if negb (eqb (rd (enables_ s) EN_DBW_PREV) (enabled s))
   then [pub_sys_enable (enabled s)] else []).
Proof.
  unfold publishDbwEnabled, bind, get, when, modify, emit, ret. cbn.
  destruct (negb _); cbn; by rewrite ?app_nil_r.
Qed.

(** The state [setFault] and [setOverride] hand to [publishDbwEnabled]
    when they cut an enabled system off. *)
Lemma enabled_cut s : enabled (with_enables (<[EN_DBW := false]>) s) = false.
Proof.
  unfold enabled. cbn. destruct (rd (<[EN_DBW:=false]> (enables_ s)) EN_DBW) eqn:E; [|done].
  pose proof (rd_true_lt _ _ E) as Hlt. rewrite length_insert in Hlt.
  by rewrite rd_insert_eq in E.
Qed.

Lemma enabled_shadow s v : enabled (with_enables (<[EN_DBW_PREV := v]>) s) = enabled s.
Proof. unfold enabled. cbn. by rewrite rd_insert_ne. Qed.

Lemma setFault_cut s which_fault :
  which_fault < NUM_SERIOUS_FAULTS → enabled s = true →
  setFault which_fault true s =
  (tt,
   with_enables (<[EN_DBW_PREV := false]>)
     (with_faults (<[which_fault := true]>) (with_enables (<[EN_DBW := false]>) s)),
   if rd (enables_ s) EN_DBW_PREV
   then [pub_sys_enable false;
         log 1717 ERROR ("DBW system disabled - " +:+ FAULT_SYSTEM which_fault +:+ " fault.")]
   else []).
Proof.
  intros Hw Hs. unfold setFault.
  apply Nat.ltb_lt in Hw. rewrite Hw.
  assert (He : enabled (with_faults (<[which_fault:=true]>)
                 (with_enables (<[EN_DBW:=false]>) s)) = false) by apply (enabled_cut s).
  cbv [bind get modify when emit ret fst snd andb]. rewrite Hs.
  rewrite !publishDbwEnabled_eq, !He. cbn [with_faults with_enables enables_].
  rewrite !rd_insert_ne by done.
  destruct (rd (enables_ s) EN_DBW_PREV); reflexivity.
Qed.

Lemma setOverride_cut s which_ovr :
  which_ovr < NUM_OVERRIDES → enabled s = true →
  setOverride which_ovr true s =
  (tt,
   with_enables (<[EN_DBW_PREV := false]>)
     (with_overrides (<[which_ovr := true]>) (with_enables (<[EN_DBW := false]>) s)),
   if rd (enables_ s) EN_DBW_PREV
   then [pub_sys_enable false;
         log 1691 WARN ("DBW system disabled - " +:+ OVR_SYSTEM which_ovr +:+ " override")]
   else []).
Proof.
  intros Hw Hs. unfold setOverride.
  apply Nat.ltb_lt in Hw. rewrite Hw.
  assert (He : enabled (with_overrides (<[which_ovr:=true]>)
                 (with_enables (<[EN_DBW:=false]>) s)) = false) by apply (enabled_cut s).
  cbv [bind get modify when emit ret fst snd andb]. rewrite Hs.
  rewrite !publishDbwEnabled_eq, !He. cbn [with_overrides with_enables enables_].
  rewrite !rd_insert_ne by done.
  destruct (rd (enables_ s) EN_DBW_PREV); reflexivity.
Qed.

Lemma setFault_off s which_fault v :
  which_fault < NUM_SERIOUS_FAULTS → enabled s = false →
  setFault which_fault v s =
  (tt,
   with_enables (<[EN_DBW_PREV := false]>) (with_faults (<[which_fault := v]>) s),
   if rd (enables_ s) EN_DBW_PREV
   then [pub_sys_enable false;
         log 1723 INFO ("DBW system enabled - no " +:+ FAULT_SYSTEM which_fault +:+ " fault.")]
   else []).
Proof.
  intros Hw Hs. unfold setFault.
  apply Nat.ltb_lt in Hw. rewrite Hw.
  assert (He : enabled (with_faults (<[which_fault:=v]>) s) = false) by exact Hs.
  cbv [bind get modify when emit ret fst snd]. rewrite Hs.
  rewrite Bool.andb_false_r.
  rewrite !publishDbwEnabled_eq, !He. cbn [with_faults with_enables enables_].
  destruct (rd (enables_ s) EN_DBW_PREV); reflexivity.
Qed.

(** C1. Whenever [setFault] or [setOverride] is called with an identifier
    its range check accepts and [value = true] while the system is enabled,
    [enabled()] is false when the call returns. The disable comes first:
    what the call emits is what [publishDbwEnabled] emits when run from a
    state [cut] that is already disabled, followed by log lines only, so
    the one state-change event the call can publish carries [false]. From a
    disabled state, [enabled()] is true again only after an enable request
    that found no serious fault and raised the flag. *)
Theorem fault_or_override_cuts_off (s : State) (which : nat) :
  enabled s = true →
  (which < NUM_SERIOUS_FAULTS →
     enabled (state_of (setFault which true s)) = false ∧
     (∀ data, pub_sys_enable data ∈ outputs_of (setFault which true s) → data = false) ∧
     ∃ cut logs,
       enabled cut = false ∧ publishes logs = 0 ∧
       outputs_of (setFault which true s) = outputs_of (publishDbwEnabled cut) ++ logs) ∧
  (which < NUM_OVERRIDES →
     enabled (state_of (setOverride which true s)) = false ∧
     (∀ data, pub_sys_enable data ∈ outputs_of (setOverride which true s) → data = false) ∧
     ∃ cut logs,
       enabled cut = false ∧ publishes logs = 0 ∧
       outputs_of (setOverride which true s) = outputs_of (publishDbwEnabled cut) ++ logs) ∧
  (∀ cs s0, enabled s0 = false → enabled (state_of (run cs s0)) = true →
     ∃ pre post, cs = pre ++ call_recvEnable :: post ∧
       enabled (state_of (run pre s0)) = false ∧
       fault (state_of (run pre s0)) = false ∧
       enabled (state_of (run (pre ++ [call_recvEnable]) s0)) = true).
Proof.
  intros Hs. split; [|split].
  - intros Hw. rewrite (setFault_cut s which Hw Hs). cbn [state_of outputs_of fst snd].
    split; [rewrite enabled_shadow; apply (enabled_cut s)|]. split.
    + intros data. destruct (rd (enables_ s) EN_DBW_PREV); intros Hin.
      * apply elem_of_cons in Hin as [Heq|Hin]; [congruence|].
        apply elem_of_cons in Hin as [Heq|Hin]; [congruence|]. by apply elem_of_nil in Hin.
      * by apply elem_of_nil in Hin.
    + exists (with_faults (<[which := true]>) (with_enables (<[EN_DBW := false]>) s)).
      exists (if rd (enables_ s) EN_DBW_PREV
              then [log 1717 ERROR ("DBW system disabled - " +:+ FAULT_SYSTEM which +:+ " fault.")]
              else []).
      pose proof (enabled_cut s) as Hcut.
      split; [exact Hcut|]. rewrite publishDbwEnabled_eq. cbn [outputs_of snd].
      change (enabled (with_faults (<[which:=true]>) (with_enables (<[EN_DBW:=false]>) s)))
        with (enabled (with_enables (<[EN_DBW:=false]>) s)).
      rewrite Hcut. cbn [with_faults with_enables enables_]. rewrite rd_insert_ne by done.
      destruct (rd (enables_ s) EN_DBW_PREV); done.
  - intros Hw. rewrite (setOverride_cut s which Hw Hs). cbn [state_of outputs_of fst snd].
    split; [rewrite enabled_shadow; apply (enabled_cut s)|]. split.
    + intros data. destruct (rd (enables_ s) EN_DBW_PREV); intros Hin.
      * apply elem_of_cons in Hin as [Heq|Hin]; [congruence|].
        apply elem_of_cons in Hin as [Heq|Hin]; [congruence|]. by apply elem_of_nil in Hin.
      * by apply elem_of_nil in Hin.
    + exists (with_overrides (<[which := true]>) (with_enables (<[EN_DBW := false]>) s)).
      exists (if rd (enables_ s) EN_DBW_PREV
              then [log 1691 WARN ("DBW system disabled - " +:+ OVR_SYSTEM which +:+ " override")]
              else []).
      pose proof (enabled_cut s) as Hcut.
      split; [exact Hcut|]. rewrite publishDbwEnabled_eq. cbn [outputs_of snd].
      change (enabled (with_overrides (<[which:=true]>) (with_enables (<[EN_DBW:=false]>) s)))
        with (enabled (with_enables (<[EN_DBW:=false]>) s)).
      rewrite Hcut. cbn [with_overrides with_enables enables_]. rewrite rd_insert_ne by done.
      destruct (rd (enables_ s) EN_DBW_PREV); done.
  - intros cs s0. apply enabled_only_by_enable.
Qed.

End Properties.

Lemma fault_or_override_cuts_off_witness :
  enabled sample_enabled = true ∧
  enabled (state_of (setFault (ext := sample_externals) FAULT_BRAKE true sample_enabled)) = false ∧
  enabled (state_of (setOverride (ext := sample_externals) OVR_BRAKE true sample_enabled)) = false.
Proof.
  assert (Hs : enabled sample_enabled = true) by reflexivity.
  destruct (fault_or_override_cuts_off (ext := sample_externals) sample_enabled 1 Hs)
    as (Hf & Ho & _).
  split; [exact Hs|]. split.
  - refine (proj1 (Hf _)). unfold NUM_SERIOUS_FAULTS. lia.
  - refine (proj1 (Ho _)). unfold NUM_OVERRIDES. lia.
Defined.

(** ** Enable requests *)

Section Enable.
Context {ext : Externals}.

(** The loop of [enableSystem] prints one line per asserted fault, in index
    order, and changes nothing. *)
Lemma log_asserted_faults (idx : list nat) s :
  for_each idx log_asserted_fault s =
  (tt, s, map fault_line (List.filter (rd (faults_ s)) idx)).
Proof.
  induction idx as [|i idx IH]; [done|].
  assert (Hi : log_asserted_fault i s =
               (tt, s, if rd (faults_ s) i then [fault_line i] else [])).
  { unfold log_asserted_fault, bind, get, when, emit, ret. cbn [fst snd].
    destruct (rd (faults_ s) i); reflexivity. }
  cbn [for_each List.filter]. unfold bind. rewrite Hi. cbn [fst snd]. rewrite IH.
  destruct (rd (faults_ s) i); reflexivity.
Qed.

Lemma fault_iff s :
  fault s = true ↔ ∃ i, i < NUM_SERIOUS_FAULTS ∧ rd (faults_ s) i = true.
Proof.
  unfold fault. rewrite existsb_exists. split.
  - intros (i & Hin & Hi). exists i. apply in_seq in Hin.
    unfold FAULT_ACCEL, NUM_SERIOUS_FAULTS in *. split; [lia | done].
  - intros (i & Hlt & Hi). exists i. split; [|done]. apply in_seq.
    unfold FAULT_ACCEL, NUM_SERIOUS_FAULTS in *. lia.
Qed.

Lemma enableSystem_active s :
  rd (enables_ s) EN_DBW = true → enableSystem s = (tt, s, []).
Proof. intros Ha. unfold enableSystem, bind, get. cbn [fst snd]. by rewrite Ha. Qed.

Lemma enableSystem_rejected s :
  rd (enables_ s) EN_DBW = false → fault s = true →
  enableSystem s =
  (tt, s, map fault_line
            (List.filter (rd (faults_ s)) (seq FAULT_ACCEL (NUM_SERIOUS_FAULTS - FAULT_ACCEL)))).
Proof.
  intros Ha Hf. unfold enableSystem, bind, get. cbn [fst snd].
  rewrite Ha. cbn [negb when fst snd]. rewrite Hf, log_asserted_faults. reflexivity.
Qed.

Lemma enableSystem_accepted s :
  wf s → rd (enables_ s) EN_DBW = false → fault s = false →
  rd (enables_ (state_of (enableSystem s))) EN_DBW = true.
Proof.
  intros Hwf Ha Hf. unfold enableSystem, bind, get. cbn [fst snd].
  rewrite Ha. cbn [negb when fst snd]. rewrite Hf.
  cbv [modify fst snd state_of]. rewrite publishDbwEnabled_eq.
  destruct (negb _); cbn [fst snd emit with_enables enables_];
    (rewrite rd_insert_ne by done; apply rd_insert_eq;
     rewrite (wf_enables _ Hwf); unfold EN_DBW, NUM_ENABLES; lia).
Qed.

(** X21. An enable request on a system that is already active does
    nothing. On an inactive system it is rejected exactly when some serious
    fault is set: the state is left as it was, still inactive, and the
    throttled logger is called once for each asserted serious fault, with
    its name, in index order, every call from the one log statement of the
    loop; with no serious fault set the system becomes active. *)
Theorem enable_rejected_iff_serious_fault (s : State) :
  wf s →
  (rd (enables_ s) EN_DBW = true → enableSystem s = (tt, s, [])) ∧
  (rd (enables_ s) EN_DBW = false →
     (rd (enables_ (state_of (enableSystem s))) EN_DBW = false
        ↔ ∃ i, i < NUM_SERIOUS_FAULTS ∧ rd (faults_ s) i = true) ∧
     ((∃ i, i < NUM_SERIOUS_FAULTS ∧ rd (faults_ s) i = true) →
        state_of (enableSystem s) = s ∧
        outputs_of (enableSystem s) =
          map fault_line (List.filter (rd (faults_ s)) (seq 0 NUM_SERIOUS_FAULTS))) ∧
     ((∀ i, i < NUM_SERIOUS_FAULTS → rd (faults_ s) i = false) →
        rd (enables_ (state_of (enableSystem s))) EN_DBW = true)).
Proof.
  intros Hwf. split; [apply enableSystem_active|].
  intros Ha. split; [|split].
  - rewrite <- fault_iff. destruct (fault s) eqn:Hf.
    + rewrite enableSystem_rejected by done. cbn. done.
    + rewrite enableSystem_accepted by done. done.
  - intros Hex. apply fault_iff in Hex.
    rewrite enableSystem_rejected by done. done.
  - intros Hno. apply enableSystem_accepted; [done..|].
    destruct (fault s) eqn:Hf; [|done].
    apply fault_iff in Hf as (i & Hi & Hfi). rewrite Hno in Hfi; done.
Qed.

End Enable.

(** *** What the throttle lets through *)

Section Throttle.
Context {ext : Externals}.

(** Calls of one log statement whose clock readings all fall short of the
    period past the time the statement last printed print nothing. *)
Lemma throttle_quiet (clock : nat → Z) (k : nat) last site l :
  Forall (at_site site) l →
  (∀ j, j < length l → (clock (k + j)%nat < last_printed last site + period)%Z) →
  throttle clock k last l = [].
Proof.
  revert k. induction l as [|o l IH]; intros k Hl Hc; [done|].
  apply Forall_cons in Hl as [(sev & text & ->) Hl]. cbn [throttle].
  pose proof (Hc 0 ltac:(cbn; lia)) as H0. rewrite Nat.add_0_r in H0.
  destruct (Z.leb_spec (last_printed last site + period) (clock k)) as [Hle|_]; [lia|].
  apply IH; [done|]. intros j Hj. replace (S k + j) with (k + S j) by lia.
  apply Hc. cbn. lia.
Qed.

(** Calls of one log statement whose clock readings lie less than a period
    apart print at most one line. *)
Lemma one_site_prints_once (clock : nat → Z) (k : nat) last site l :
  Forall (at_site site) l →
  (∀ i j, i < length l → j < length l → (clock (k + j)%nat < clock (k + i)%nat + period)%Z) →
  length (throttle clock k last l) ≤ 1.
Proof.
  revert k last. induction l as [|o l IH]; intros k last Hl Hc; [cbn; lia|].
  apply Forall_cons in Hl as [(sev & text & ->) Hl]. cbn [throttle].
  destruct (last_printed last site + period <=? clock k)%Z.
  - rewrite (throttle_quiet clock (S k) _ site l Hl); [cbn; lia|].
    intros j Hj. unfold last_printed. rewrite lookup_insert_eq. cbn [default].
    replace (S k + j) with (k + S j) by lia.
    pose proof (Hc 0 (S j) ltac:(cbn; lia) ltac:(cbn; lia)) as H.
    by rewrite Nat.add_0_r in H.
  - apply IH; [done|]. intros i j Hi Hj.
    replace (S k + j) with (k + S j) by lia. replace (S k + i) with (k + S i) by lia.
    apply Hc; cbn; lia.
Qed.

(** A rejected enable request prints at most one line, however many
    serious faults are set, when the clock readings of its loop lie less
    than a period apart. *)
Lemma rejected_enable_prints_at_most_one_line (clock : nat → Z) (k : nat) last s :
  rd (enables_ s) EN_DBW = false → fault s = true →
  (∀ i j, i < NUM_SERIOUS_FAULTS → j < NUM_SERIOUS_FAULTS →
     (clock (k + j)%nat < clock (k + i)%nat + period)%Z) →
  length (throttle clock k last (outputs_of (enableSystem s))) ≤ 1.
Proof.
  intros Ha Hf Hc. rewrite enableSystem_rejected by done. cbn [outputs_of snd].
  set (l := List.filter _ _).
  assert (Hlen : length l ≤ NUM_SERIOUS_FAULTS).
  { pose proof (List.filter_length_le (rd (faults_ s))
                  (seq FAULT_ACCEL (NUM_SERIOUS_FAULTS - FAULT_ACCEL))) as H.
    rewrite length_seq in H. unfold l, FAULT_ACCEL in *. lia. }
  apply (one_site_prints_once clock k last 1648).
  - apply Forall_map, Forall_forall. intros i _. by eexists _, _.
  - rewrite length_map. intros i j Hi Hj. apply Hc; lia.
Qed.

End Throttle.

(** C2, at a concrete call sequence. The accelerator-pedal and the brake
    fault are set on the constructed node and an enable request arrives.
    The request is rejected and the loop of [enableSystem] calls the logger
    once for each of the two faults, both times from its one log statement.
    With the clock a microsecond further at the second call, the throttle
    of that statement lets the first line through and drops the second:
    the brake fault is not logged, where every asserted fault is to be
    logged by name. *)
Lemma enable_request_prints_first_fault_only :
  let s := state_of (run (ext := sample_externals) enable_with_two_faults sample_start) in
  rd (faults_ s) FAULT_ACCEL = true ∧ rd (faults_ s) FAULT_BRAKE = true
  ∧ enabled s = false
  ∧ outputs_of (run (ext := sample_externals) enable_with_two_faults sample_start)
    = [log 1648 ERROR "DBW system disabled - accelerator pedal fault.";
       log 1648 ERROR "DBW system disabled - brakes fault."]
  ∧ printed microsecond_clock
      (outputs_of (RaptorDbwCAN sample_config ∅)
       ++ outputs_of (run (ext := sample_externals) enable_with_two_faults sample_start))
    = [pub_sys_enable false;
       log 1648 ERROR "DBW system disabled - accelerator pedal fault."].
Proof. intros s. repeat split; vm_compute; reflexivity. Qed.

(** A state with the accelerator-pedal fault set, as in the test the
    specification gives for enable requests. *)
Lemma enable_rejected_iff_serious_fault_witness :
  let s := state_of (setFault (ext := sample_externals) FAULT_ACCEL true sample_start) in
  wf s ∧
  state_of (enableSystem (ext := sample_externals) s) = s ∧
  enabled (state_of (enableSystem (ext := sample_externals) s)) = false ∧
  outputs_of (enableSystem (ext := sample_externals) s) =
    [log 1648 ERROR "DBW system disabled - accelerator pedal fault."].
Proof.
  intros s.
  assert (Hwf : wf s) by (by split).
  destruct (enable_rejected_iff_serious_fault (ext := sample_externals) s Hwf) as [_ Hoff].
  destruct (Hoff eq_refl) as (_ & Hrej & _).
  assert (Hex : ∃ i, i < NUM_SERIOUS_FAULTS ∧ rd (faults_ s) i = true).
  { exists FAULT_ACCEL. split; [unfold FAULT_ACCEL, NUM_SERIOUS_FAULTS; lia | reflexivity]. }
  destruct (Hrej Hex) as [Hst Hout].
  split; [exact Hwf|]. split; [exact Hst|]. split; [by rewrite Hst|].
  rewrite Hout. reflexivity.
Defined.

(** ** Edge-triggered publication *)

Section Edge.
Context {ext : Externals}.

Lemma wf_with_enables s i v : wf s → wf (with_enables (<[i := v]>) s).
Proof. intros [? ? ?]. split; cbn; by rewrite ?length_insert. Qed.

Lemma wf_with_faults s i v : wf s → wf (with_faults (<[i := v]>) s).
Proof. intros [? ? ?]. split; cbn; by rewrite ?length_insert. Qed.

(** The second of two consecutive [setFault(X, true)] calls. *)
Lemma setFault_again s X :
  wf s → X < NUM_SERIOUS_FAULTS →
  outputs_of (setFault X true (state_of (setFault X true s))) = [].
Proof.
  intros Hwf HX.
  assert (H1 : ∃ s1, state_of (setFault X true s) = with_enables (<[EN_DBW_PREV := false]>) s1
                     ∧ wf s1 ∧ enabled s1 = false) .
  { destruct (enabled s) eqn:Hs.
    - rewrite setFault_cut by done. eexists. split; [reflexivity|]. split.
      + by apply wf_with_faults, wf_with_enables.
      + apply (enabled_cut s).
    - rewrite setFault_off by done. eexists. split; [reflexivity|]. split.
      + by apply wf_with_faults.
      + exact Hs. }
  destruct H1 as (s1 & -> & Hwf1 & Hoff).
  rewrite setFault_off; [|done|by rewrite enabled_shadow].
  cbn [outputs_of snd with_enables enables_].
  rewrite rd_insert_eq; [done|].
  rewrite (wf_enables _ Hwf1). unfold EN_DBW_PREV, NUM_ENABLES. lia.
Qed.

(** C4. [publishDbwEnabled] publishes exactly when [enabled()] differs from
    the last-published shadow, returns whether it did, and leaves the shadow
    equal to [enabled()], so publishing again straight away is silent. Two
    consecutive [setFault(X, true)] calls on an enabled system whose state
    has been published produce exactly one state-change event, in the first
    call; whatever the state, the second call publishes nothing. The
    constructor's own publish fires. *)
Theorem publish_is_edge_triggered :
  (∀ s, value_of (publishDbwEnabled s) = negb (eqb (rd (enables_ s) EN_DBW_PREV) (enabled s))
        ∧ outputs_of (publishDbwEnabled s) =
            (if value_of (publishDbwEnabled s) then [pub_sys_enable (enabled s)] else [])
        ∧ enabled (state_of (publishDbwEnabled s)) = enabled s
        ∧ (wf s → rd (enables_ (state_of (publishDbwEnabled s))) EN_DBW_PREV = enabled s)
        ∧ (wf s → outputs_of (publishDbwEnabled (state_of (publishDbwEnabled s))) = []))
  ∧ (∀ s X, X < NUM_SERIOUS_FAULTS → enabled s = true → rd (enables_ s) EN_DBW_PREV = true →
        publishes (outputs_of (run [call_setFault X true; call_setFault X true] s)) = 1
        ∧ publishes (outputs_of (setFault X true s)) = 1)
  ∧ (∀ s X, wf s → X < NUM_SERIOUS_FAULTS →
        outputs_of (setFault X true (state_of (setFault X true s))) = []
        ∧ publishes (outputs_of (run [call_setFault X true; call_setFault X true] s)) ≤ 1)
  ∧ (∀ cfg dbc, outputs_of (RaptorDbwCAN cfg dbc) = [pub_sys_enable false]).
Proof.
  split; [|split; [|split]].
  - intros s. rewrite !publishDbwEnabled_eq. cbn [value_of outputs_of state_of fst snd].
    split; [done|]. split; [done|]. split; [apply enabled_shadow|]. split.
    + intros Hwf. cbn [with_enables enables_]. apply rd_insert_eq.
      rewrite (wf_enables _ Hwf). unfold EN_DBW_PREV, NUM_ENABLES. lia.
    + intros Hwf. rewrite enabled_shadow. cbn [with_enables enables_].
      rewrite rd_insert_eq; [by destruct (enabled s)|].
      rewrite (wf_enables _ Hwf). unfold EN_DBW_PREV, NUM_ENABLES. lia.
  - intros s X HX Hs Hp.
    assert (H1 : setFault X true s =
                 (tt, with_enables (<[EN_DBW_PREV := false]>)
                        (with_faults (<[X := true]>) (with_enables (<[EN_DBW := false]>) s)),
                  [pub_sys_enable false;
                   log 1717 ERROR ("DBW system disabled - " +:+ FAULT_SYSTEM X +:+ " fault.")])).
    { rewrite setFault_cut by done. by rewrite Hp. }
    cbn [run handle]. rewrite !outputs_of_bind, H1.
    cbn [value_of state_of outputs_of fst snd ret].
    rewrite setFault_off; [|done|by rewrite enabled_shadow; apply (enabled_cut s)].
    cbn [outputs_of snd with_enables with_faults enables_].
    rewrite rd_insert_eq; [done|].
    rewrite length_insert. apply rd_true_lt in Hp. exact Hp.
  - intros s X Hwf HX. pose proof (setFault_again s X Hwf HX) as H2. split; [exact H2|].
    cbn [run handle]. rewrite !outputs_of_bind, H2. cbn [ret outputs_of snd].
    rewrite !app_nil_r.
    destruct (enabled s) eqn:Hs.
    + rewrite setFault_cut by done. cbn [snd].
      destruct (rd (enables_ s) EN_DBW_PREV); cbn; lia.
    + rewrite setFault_off by done. cbn [snd].
      destruct (rd (enables_ s) EN_DBW_PREV); cbn; lia.
  - intros cfg dbc. reflexivity.
Qed.

End Edge.

Lemma publish_is_edge_triggered_witness :
  outputs_of (run (ext := sample_externals)
                [call_setFault FAULT_STEER true; call_setFault FAULT_STEER true]
                sample_enabled)
  = [pub_sys_enable false; log 1717 ERROR "DBW system disabled - steering fault."]
  ∧ publishes (outputs_of (run (ext := sample_externals)
                [call_setFault FAULT_STEER true; call_setFault FAULT_STEER true]
                sample_enabled)) = 1.
Proof.
  split; [reflexivity|].
  destruct (publish_is_edge_triggered (ext := sample_externals)) as (_ & Htwice & _).
  refine (proj1 (Htwice sample_enabled FAULT_STEER _ eq_refl eq_refl)).
  unfold FAULT_STEER, NUM_SERIOUS_FAULTS. lia.
Defined.

(** ** Command encoders *)

Section Encoders.
Context {ext : Externals}.

Lemma SetResults_lookup (l : list (string * Q)) (m : gmap string Q) sg :
  SetResults l m !! sg = assigned sg l (m !! sg).
Proof.
  revert m. induction l as [|[k v] l IH]; intros m; [done|].
  cbn [SetResults foldl assigned fst snd]. fold (SetResults l (<[k:=v]> m)).
  rewrite IH. f_equal. destruct (String.eqb_spec k sg) as [->|Hne].
  - by rewrite lookup_insert_eq.
  - by rewrite lookup_insert_ne.
Qed.

Lemma assigned_app sg l1 l2 d :
  assigned sg (l1 ++ l2) d = assigned sg l2 (assigned sg l1 d).
Proof. revert d. induction l1 as [|a l1 IH]; intros d; [done|]. cbn. apply IH. Qed.

Lemma assigned_not_in sg l d : sg ∉ l.*1 → assigned sg l d = d.
Proof.
  revert d. induction l as [|[k v] l IH]; intros d Hn; [done|].
  cbn in *. apply not_elem_of_cons in Hn as [Hne Hn].
  destruct (String.eqb_spec k sg) as [->|_]; [done|]. by apply IH.
Qed.

Lemma assigned_in sg v l d : NoDup l.*1 → (sg, v) ∈ l → assigned sg l d = Some v.
Proof.
  revert d. induction l as [|[k w] l IH]; intros d Hnd Hin.
  { by apply elem_of_nil in Hin. }
  cbn in *. apply NoDup_cons in Hnd as [Hk Hnd].
  apply elem_of_cons in Hin as [Heq|Hin].
  - injection Heq as <- <-. rewrite String.eqb_refl. by apply assigned_not_in.
  - by apply IH.
Qed.

Lemma assigned_zero sg zeroed d : sg ∈ zeroed → assigned sg (zero zeroed) d = Some 0%Q.
Proof.
  revert d. induction zeroed as [|k zeroed IH]; intros d Hin.
  { by apply elem_of_nil in Hin. }
  cbn. destruct (decide (sg ∈ zeroed)) as [Hz|Hz]; [by apply IH|].
  apply elem_of_cons in Hin as [->|Hin]; [|done].
  rewrite String.eqb_refl. apply assigned_not_in.
  unfold zero. rewrite <- list_fmap_compose.
  intros Hin. apply Hz. apply list_elem_of_fmap in Hin as (y & -> & Hy). exact Hy.
Qed.

Lemma send_eq name l s :
  send name l s =
  (tt, with_dbc (λ d, <[name := SetResults l (GetMessage name d)]> d) s,
   [pub_can name (SetResults l (GetMessage name (dbwDbc_ s)))]).
Proof.
  unfold send, bind, modify, get, emit. cbn [fst snd with_dbc dbwDbc_ app].
  unfold GetMessage at 2 3. by rewrite lookup_insert_eq.
Qed.

(** A frame sent after zeroing [zeroed] and then setting [kept]. *)
Lemma off_frame_send name zeroed kept s :
  NoDup kept.*1 → off_frame name zeroed kept (outputs_of (send name (zero zeroed ++ kept) s)).
Proof.
  intros Hnd. rewrite send_eq. eexists. split; [reflexivity|]. split.
  - intros sg Hz Hk. rewrite SetResults_lookup, assigned_app.
    rewrite assigned_not_in by done. by apply assigned_zero.
  - intros sg v Hin. rewrite SetResults_lookup, assigned_app. by apply assigned_in.
Qed.

Ltac off_frame_tac Hs :=
  unfold_encoders; rewrite !outputs_of_bind;
  cbn [get outputs_of value_of state_of fst snd app];
  rewrite ?Hs, ?Bool.andb_false_r;
  unfold brake_signals, accel_signals, steering_signals, gear_signals,
    global_enable_signals, misc_signals, action_signals, articulation_signals,
    dump_bed_signals, engine_signals;
  repeat match goal with Hi : _ = _ :> bool |- _ => rewrite Hi end;
  rewrite ?Bool.andb_false_r; cbn [andb app];
  apply off_frame_send; cbn [fmap list_fmap fst];
  apply (bool_decide_unpack _); vm_compute; exact I.

(** X22. While the system is not enabled, every encoder produces one
    frame in which each signal it zero-initialises is 0 whatever the
    command holds, apart from the rolling counter, which always carries the
    command's counter, and, for accelerator pedal and steering, the
    ignore-driver-override signal, which is 1 when the command's ignore
    flag is set. For the action, articulation, dump-bed and engine
    encoders the same holds whenever the command's own enable flag is
    false, enabled system or not. *)
Theorem encoders_zero_when_off (s : State) :
  (enabled s = false →
     (∀ msg, off_frame "AKit_BrakeRequest" brake_zero
        [("AKit_BrakeRollingCntr", BrakeCmd.rolling_counter msg)]
        (outputs_of (recvBrakeCmd msg s)))
   ∧ (∀ msg, off_frame "AKit_AccelPdlRequest" accel_zero
        (("AKit_AccelPdlRollingCntr", AcceleratorPedalCmd.rolling_counter msg) ::
         if AcceleratorPedalCmd.ignore msg
         then [("AKit_AccelPdlIgnoreDriverOvrd", 1%Q)] else [])
        (outputs_of (recvAcceleratorPedalCmd msg s)))
   ∧ (∀ msg, off_frame "AKit_SteeringRequest" steering_zero
        ((if SteeringCmd.ignore msg
          then [("AKit_SteeringWhlIgnoreDriverOvrd", 1%Q)] else []) ++
         [("AKit_SteerRollingCntr", SteeringCmd.rolling_counter msg)])
        (outputs_of (recvSteeringCmd msg s)))
   ∧ (∀ msg, off_frame "AKit_PrndRequest" gear_zero
        [("AKit_PrndRollingCntr", GearCmd.rolling_counter msg)]
        (outputs_of (recvGearCmd msg s)))
   ∧ (∀ msg, off_frame "AKit_GlobalEnbl" global_enable_zero
        [("AKit_GlobalEnblRollingCntr", GlobalEnableCmd.rolling_counter msg)]
        (outputs_of (recvGlobalEnableCmd msg s)))
   ∧ (∀ msg, off_frame "AKit_OtherActuators" misc_zero
        [("AKit_OtherRollingCntr", MiscCmd.rolling_counter msg)]
        (outputs_of (recvMiscCmd msg s))))
  ∧ (∀ msg, enabled s = false ∨ ActionCmd.enable msg = false →
       off_frame "AKit_ActionRequest" action_zero
         [("AKit_ActionRollingCntr", ActionCmd.rolling_counter msg)]
         (outputs_of (recvActionCmd msg s)))
  ∧ (∀ msg, enabled s = false ∨ ArticulationCmd.enable msg = false →
       off_frame "AKit_ArticulationRequest" articulation_zero
         [("AKit_ArticulationRollingCntr", ArticulationCmd.rolling_counter msg)]
         (outputs_of (recvArticulationCmd msg s)))
  ∧ (∀ msg, enabled s = false ∨ DumpBedCmd.enable msg = false →
       off_frame "AKit_DumpBedRequest" dump_bed_zero
         [("AKit_DumpBedRollingCntr", DumpBedCmd.rolling_counter msg)]
         (outputs_of (recvDumpBedCmd msg s)))
  ∧ (∀ msg, enabled s = false ∨ EngineCmd.enable msg = false →
       off_frame "AKit_EngineRequest" engine_zero
         [("AKit_EngineRollingCntr", EngineCmd.rolling_counter msg)]
         (outputs_of (recvEngineCmd msg s))).
Proof.
  split; [intros Hs; repeat split; intros msg|repeat split; intros msg [Hs|Hs]].
  - off_frame_tac Hs.
  - destruct (AcceleratorPedalCmd.ignore msg) eqn:Hi; off_frame_tac Hs.
  - destruct (SteeringCmd.ignore msg) eqn:Hi; off_frame_tac Hs.
  - off_frame_tac Hs.
  - off_frame_tac Hs.
  - off_frame_tac Hs.
  - off_frame_tac Hs.
  - off_frame_tac Hs.
  - off_frame_tac Hs.
  - off_frame_tac Hs.
  - off_frame_tac Hs.
  - off_frame_tac Hs.
  - off_frame_tac Hs.
  - off_frame_tac Hs.
Qed.

End Encoders.

(** Two brake commands with the enable flag off that differ in the rolling
    counter give different frames, the system being disabled: the counter
    is copied into every frame. *)
Lemma brake_frame_follows_counter :
  ¬ neutral_when_off (recvBrakeCmd (ext := sample_externals)) BrakeCmd.enable.
Proof.
  intros Hneutral. destruct (Hneutral sample_start) as [frame Hframe].
  pose proof (Hframe (brake_off 5) (or_introl eq_refl)) as H5.
  pose proof (Hframe (brake_off 0) (or_introl eq_refl)) as H0.
  rewrite <- H0 in H5. vm_compute in H5.
  injection H5 as H5. discriminate H5.
Qed.

(** C3, at concrete commands. The system is enabled and a command arrives
    whose own enable flag is off. The brake, accelerator-pedal, steering
    and gear encoders test [enabled()] only: their frame carries the
    request type and the payload of the command (closed-loop torque at 50
    percent with the parking brake; 30 percent pedal; angle mode at 90
    degrees with velocity limit 4; gear 4), with only the enable request
    at 0, where the frame is to be the neutral one. The articulation
    encoder, like the action, dump-bed and engine encoders, tests the
    command's flag as well and sends zeros; so does the brake encoder for
    the same command once the system is not enabled. *)
Lemma command_with_enable_off_is_encoded :
  let frame c sg :=
    frame_signal sg (outputs_of (handle (ext := sample_externals) c sample_enabled)) in
  enabled sample_enabled = true
  ∧ BrakeCmd.enable brake_torque_50_off = false
  ∧ frame (call_recvBrakeCmd brake_torque_50_off) "AKit_BrakeCtrlEnblReq" = Some 0%Q
  ∧ frame (call_recvBrakeCmd brake_torque_50_off) "AKit_BrakeCtrlReqType" = Some 1%Q
  ∧ frame (call_recvBrakeCmd brake_torque_50_off) "AKit_BrakePcntTorqueReq" = Some 50%Q
  ∧ frame (call_recvBrakeCmd brake_torque_50_off) "AKit_ParkingBrkReq" = Some 1%Q
  ∧ frame (call_recvAcceleratorPedalCmd accel_pedal_30_off) "AKit_AccelPdlEnblReq" = Some 0%Q
  ∧ frame (call_recvAcceleratorPedalCmd accel_pedal_30_off) "AKit_AccelPdlReq" = Some 30%Q
  ∧ frame (call_recvSteeringCmd steering_90_off) "AKit_SteerCtrlEnblReq" = Some 0%Q
  ∧ frame (call_recvSteeringCmd steering_90_off) "AKit_SteeringReqType" = Some 1%Q
  ∧ frame (call_recvSteeringCmd steering_90_off) "AKit_SteeringWhlAngleReq" = Some 90%Q
  ∧ frame (call_recvSteeringCmd steering_90_off) "AKit_SteeringWhlAngleVelocityLim"
    = Some 4%Q
  ∧ frame (call_recvGearCmd gear_4_off) "AKit_PrndCtrlEnblReq" = Some 0%Q
  ∧ frame (call_recvGearCmd gear_4_off) "AKit_PrndStateReq" = Some 4%Q
  ∧ frame (call_recvArticulationCmd articulation_10_off) "AKit_ArticulationReqType"
    = Some 0%Q
  ∧ frame (call_recvArticulationCmd articulation_10_off) "AKit_ArticulationAngleReq"
    = Some 0%Q
  ∧ frame (call_recvArticulationCmd articulation_10_off) "AKit_ArticulationVelocityLimit"
    = Some 0%Q
  ∧ enabled sample_start = false
  ∧ frame_signal "AKit_BrakeCtrlReqType"
      (outputs_of (recvBrakeCmd (ext := sample_externals) brake_torque_50_off sample_start))
    = Some 0%Q
  ∧ frame_signal "AKit_BrakePcntTorqueReq"
      (outputs_of (recvBrakeCmd (ext := sample_externals) brake_torque_50_off sample_start))
    = Some 0%Q
  ∧ frame_signal "AKit_ParkingBrkReq"
      (outputs_of (recvBrakeCmd (ext := sample_externals) brake_torque_50_off sample_start))
    = Some 0%Q.
Proof. intros frame. unfold frame. repeat split; vm_compute; reflexivity. Qed.

Lemma encoders_zero_when_off_witness :
  off_frame "AKit_BrakeRequest" brake_zero [("AKit_BrakeRollingCntr", 5%Q)]
    (outputs_of (recvBrakeCmd (ext := sample_externals) (brake_off 5) sample_start)).
Proof.
  destruct (encoders_zero_when_off (ext := sample_externals) sample_start) as [Hoff _].
  destruct (Hoff eq_refl) as [Hbrake _]. exact (Hbrake (brake_off 5)).
Defined.

(** ** Running a handler step by step *)

Lemma run_bind {A B} (c : M A) (k : A → M B) s a s1 o1 b s2 o2 :
  c s = (a, s1, o1) → k a s1 = (b, s2, o2) → bind c k s = (b, s2, o1 ++ o2).
Proof. intros H1 H2. unfold bind. rewrite H1. cbn [fst snd]. by rewrite H2. Qed.

Lemma run_when (b : bool) (c : M unit) s s1 o1 :
  c s = (tt, s1, o1) → when b c s = (tt, if b then s1 else s, if b then o1 else []).
Proof. intros Hc. destruct b; [exact Hc | reflexivity]. Qed.

Lemma run_if {A} (b : bool) (c1 c2 : M A) s a1 s1 o1 a2 s2 o2 :
  c1 s = (a1, s1, o1) → c2 s = (a2, s2, o2) →
  (if b then c1 else c2) s =
  (if b then a1 else a2, if b then s1 else s2, if b then o1 else o2).
Proof. intros H1 H2. destruct b; assumption. Qed.

Lemma run_if_unit (b : bool) (c1 c2 : M unit) s s1 o1 s2 o2 :
  c1 s = (tt, s1, o1) → c2 s = (tt, s2, o2) →
  (if b then c1 else c2) s = (tt, if b then s1 else s2, if b then o1 else o2).
Proof. intros H1 H2. destruct b; assumption. Qed.

Lemma run_call {A} (r : A * State * list Output) :
  r = (value_of r, state_of r, outputs_of r).
Proof. by destruct r as [[? ?] ?]. Qed.

(** [exec rw] runs the handler on the left of the goal [c s = ?r] one
    primitive at a time, calling [rw] on each continuation to rewrite what
    it reads from the state. A test it cannot decide is carried into the
    result, and so is a call it has no rule for. *)
Ltac exec rw :=
  lazymatch goal with
  | |- bind _ _ _ = _ => eapply run_bind; [exec rw | cbn beta; rw; exec rw]
  | |- get _ _ = _ => reflexivity
  | |- modify _ _ = _ => reflexivity
  | |- emit _ _ = _ => reflexivity
  | |- ret _ _ = _ => reflexivity
  | |- send _ _ _ = _ => apply send_eq
  | |- publish _ _ _ _ = _ => reflexivity
  | |- publishDbwEnabled _ = _ => apply publishDbwEnabled_eq
  | |- when true _ _ = _ => cbn [when]; exec rw
  | |- when false _ _ = _ => reflexivity
  | |- when _ _ _ = _ => eapply run_when; exec rw
  | |- (if true then _ else _) _ = _ => cbn iota; exec rw
  | |- (if false then _ else _) _ = _ => cbn iota; exec rw
  | |- (if _ then _ else _) _ = _ =>
      first [eapply run_if_unit | eapply run_if]; [exec rw | exec rw]
  | |- _ => apply run_call
  end.

(** ** Fail-safe timer *)

Section Timer.
Context {ext : Externals}.

(** On a tick the timer sends nothing unless [clear()] holds; when it
    does, it sends one frame for each flagged subsystem of [timer_table],
    in table order, and none for the others. *)
Lemma timerCallback_frames s :
  Forall (λ o, is_Some (frame_name o)) (outputs_of (timerCallback s)) ∧
  omap frame_name (outputs_of (timerCallback s)) =
    if clear s
    then map snd (List.filter (λ p, rd (overrides_ s) p.1) timer_table)
    else [].
Proof.
  destruct (clear s) eqn:Hc.
  2:{ eassert (Hr : timerCallback s = _)
        by (unfold timerCallback; exec ltac:(rewrite ?Hc)).
      rewrite Hr. by split. }
  cbn [timer_table List.filter fst snd].
  destruct (rd (overrides_ s) OVR_BRAKE) eqn:Hb, (rd (overrides_ s) OVR_ACCEL) eqn:Ha,
    (rd (overrides_ s) OVR_STEER) eqn:Hs, (rd (overrides_ s) OVR_GEAR) eqn:Hg,
    (rd (overrides_ s) OVR_DUMP_BED) eqn:Hd, (rd (overrides_ s) OVR_ENGINE) eqn:He;
    (eassert (Hr : timerCallback s = _)
       by (unfold timerCallback;
           exec ltac:(cbn [overrides_ with_dbc];
                      rewrite ?Hc, ?Hb, ?Ha, ?Hs, ?Hg, ?Hd, ?He));
     rewrite Hr; cbn [outputs_of snd app];
     split; [repeat constructor; by eexists | reflexivity]).
Qed.

End Timer.
(** The brake message on a tick. The system is enabled, a closed-loop brake
    command asks for 50 percent torque, then a brake report shows driver
    activity: the override disables the system. On the next tick the timer
    resends the brake message with only the pedal and enable signals
    zeroed: the frame still asks for 50 percent torque in closed-loop mode,
    where the encoder's disabled path sends 0 for both. *)
Lemma timer_resends_brake_torque :
  let s := state_of (run (ext := sample_externals)
             [call_recvEnable; call_recvBrakeCmd brake_torque_50;
              call_recvCAN brake_report_driver_active] sample_start) in
  enabled s = false ∧ rd (overrides_ s) OVR_BRAKE = true ∧
  (∃ m, outputs_of (timerCallback s) = [pub_can "AKit_BrakeRequest" m]
        ∧ m !! "AKit_BrakePedalReq" = Some 0%Q
        ∧ m !! "AKit_BrakeCtrlEnblReq" = Some 0%Q
        ∧ m !! "AKit_BrakeCtrlReqType" = Some 1%Q
        ∧ m !! "AKit_BrakePcntTorqueReq" = Some 50%Q) ∧
  (∃ m, outputs_of (recvBrakeCmd (ext := sample_externals) brake_torque_50 s)
          = [pub_can "AKit_BrakeRequest" m]
        ∧ m !! "AKit_BrakeCtrlReqType" = Some 0%Q
        ∧ m !! "AKit_BrakePcntTorqueReq" = Some 0%Q).
Proof.
  intros s. split; [vm_compute; reflexivity|]. split; [vm_compute; reflexivity|]. split.
  - eexists. split; [vm_compute; reflexivity|]. repeat split; vm_compute; reflexivity.
  - eexists. split; [vm_compute; reflexivity|]. repeat split; vm_compute; reflexivity.
Qed.

(** C5, at a concrete call sequence. The system is enabled, a steering
    command in angle mode asks for 90 degrees with control enabled, then a
    steering report shows driver activity: the override disables the
    system. On the next tick the timer resends the steering message with
    the angle, velocity limit, ignore flag and torque zeroed but the enable
    request and the request type as the last command left them, 1 and 1,
    where the encoder's disabled path sends 0 for both: the frame is not
    the neutral one. *)
Lemma timer_resends_steering_enable :
  let s := state_of (run (ext := sample_externals)
             [call_recvEnable; call_recvSteeringCmd (steering_with_velocity 7);
              call_recvCAN steering_report_driver_active] sample_start) in
  enabled s = false ∧ rd (overrides_ s) OVR_STEER = true ∧
  (∃ m, outputs_of (timerCallback s) = [pub_can "AKit_SteeringRequest" m]
        ∧ m !! "AKit_SteeringWhlAngleReq" = Some 0%Q
        ∧ m !! "AKit_SteerCtrlEnblReq" = Some 1%Q
        ∧ m !! "AKit_SteeringReqType" = Some 1%Q) ∧
  (∃ m, outputs_of (recvSteeringCmd (ext := sample_externals) (steering_with_velocity 7) s)
          = [pub_can "AKit_SteeringRequest" m]
        ∧ m !! "AKit_SteeringWhlAngleReq" = Some 0%Q
        ∧ m !! "AKit_SteerCtrlEnblReq" = Some 0%Q
        ∧ m !! "AKit_SteeringReqType" = Some 0%Q).
Proof.
  intros s. split; [vm_compute; reflexivity|]. split; [vm_compute; reflexivity|]. split.
  - eexists. split; [vm_compute; reflexivity|]. repeat split; vm_compute; reflexivity.
  - eexists. split; [vm_compute; reflexivity|]. repeat split; vm_compute; reflexivity.
Qed.

(** ** Velocity limits *)

Section Velocity.
Context {ext : Externals}.

Lemma Qltb_inject_Z a b : Qltb (inject_Z a) (inject_Z b) = (a <? b)%Z.
Proof.
  unfold Qltb, Qle_bool. cbn. rewrite !Z.mul_1_r.
  destruct (Z.ltb_spec a b), (Z.leb_spec b a); (done || lia).
Qed.

Lemma Qtrunc_inject_Z z : Qtrunc (inject_Z z) = z.
Proof.
  unfold Qtrunc. destruct (Qle_bool 0 (inject_Z z)).
  - apply Qfloor_Z.
  - apply Qceiling_Z.
Qed.

(** The value of the [uint16_t] is the clamp of the specification. *)
Lemma vcmd_spec v : vcmd v = velocity_limit_spec v.
Proof.
  unfold vcmd, velocity_limit_spec, roundf.
  set (k := if Qle_bool 0 (Qabs v / 2) then _ else _).
  rewrite (Qtrunc_inject_Z k).
  change 254%Q with (inject_Z 254). change 1%Q with (inject_Z 1).
  unfold std_min. rewrite Qltb_inject_Z.
  destruct (Z.ltb_spec k 254).
  - unfold std_max. rewrite Qltb_inject_Z.
    destruct (Z.ltb_spec 1 k); rewrite Qtrunc_inject_Z; lia.
  - rewrite Z.min_l by lia. reflexivity.
Qed.

Lemma vcmd_range v : (1 ≤ vcmd v ≤ 254)%Z.
Proof. rewrite vcmd_spec. unfold velocity_limit_spec. lia. Qed.


Lemma Qltb_abs_pos v : ¬ (v == 0)%Q → Qltb 0 (Qabs v) = true.
Proof.
  intros Hv. unfold Qltb. destruct (Qle_bool (Qabs v) 0) eqn:E; [|done].
  exfalso. apply Hv. apply Qle_bool_iff in E.
  apply Qabs_Qle_condition in E as [H1 H2].
  apply Qle_antisym; [exact H2 | exact H1].
Qed.

Lemma Qltb_abs_zero v : (v == 0)%Q → Qltb 0 (Qabs v) = false.
Proof.
  intros Hv. unfold Qltb. apply Bool.negb_false_iff, Qle_bool_iff.
  rewrite Hv. done.
Qed.

Ltac signal_tac :=
  unfold frame_signal; rewrite ?SetResults_lookup;
  cbv [assigned zero map app fst snd String.eqb Ascii.eqb Bool.eqb
       steering_zero articulation_zero dump_bed_zero steering_signals
       articulation_signals dump_bed_signals of_bool andb];
  repeat match goal with
         | |- context [if ?b then _ else _] => destruct b
         end; try reflexivity.

Lemma recvSteeringCmd_eq msg s :
  outputs_of (recvSteeringCmd msg s) =
  [pub_can "AKit_SteeringRequest"
     (SetResults (steering_signals (enabled s) (max_steer_angle_ (config_ s)) msg)
        (GetMessage "AKit_SteeringRequest" (dbwDbc_ s)))].
Proof.
  eassert (Hr : recvSteeringCmd msg s = _) by (unfold recvSteeringCmd; exec idtac).
  rewrite Hr. reflexivity.
Qed.

Lemma recvArticulationCmd_eq msg s :
  outputs_of (recvArticulationCmd msg s) =
  [pub_can "AKit_ArticulationRequest"
     (SetResults (articulation_signals (enabled s) (max_articulation_angle_ (config_ s)) msg)
        (GetMessage "AKit_ArticulationRequest" (dbwDbc_ s)))].
Proof.
  eassert (Hr : recvArticulationCmd msg s = _) by (unfold recvArticulationCmd; exec idtac).
  rewrite Hr. reflexivity.
Qed.

Lemma recvDumpBedCmd_eq msg s :
  outputs_of (recvDumpBedCmd msg s) =
  [pub_can "AKit_DumpBedRequest"
     (SetResults (dump_bed_signals (enabled s) (max_dump_angle_ (config_ s)) msg)
        (GetMessage "AKit_DumpBedRequest" (dbwDbc_ s)))].
Proof.
  eassert (Hr : recvDumpBedCmd msg s = _) by (unfold recvDumpBedCmd; exec idtac).
  rewrite Hr. reflexivity.
Qed.

(** C8, as the encoders have it. The steering encoder applies the fixed
    transform, and so sends a limit between 1 and 254, when the system is
    enabled and the commanded angle velocity is not zero; for a zero
    velocity, or while disabled, it sends 0. The articulation and dump-bed
    encoders copy the command's velocity limit unchanged when the system
    and the command are both enabled, and send 0 otherwise. *)
Theorem velocity_limit_encoding (s : State) :
  (∀ msg, enabled s = true → ¬ (SteeringCmd.angle_velocity msg == 0)%Q →
     frame_signal "AKit_SteeringWhlAngleVelocityLim" (outputs_of (recvSteeringCmd msg s))
       = Some (inject_Z (velocity_limit_spec (SteeringCmd.angle_velocity msg)))
     ∧ (1 ≤ velocity_limit_spec (SteeringCmd.angle_velocity msg) ≤ 254)%Z)
  ∧ (∀ msg, enabled s = false ∨ (SteeringCmd.angle_velocity msg == 0)%Q →
     frame_signal "AKit_SteeringWhlAngleVelocityLim" (outputs_of (recvSteeringCmd msg s))
       = Some 0%Q)
  ∧ (∀ msg,
     frame_signal "AKit_ArticulationVelocityLimit" (outputs_of (recvArticulationCmd msg s))
       = Some (if enabled s && ArticulationCmd.enable msg
               then ArticulationCmd.velocity_limit msg else 0%Q))
  ∧ (∀ msg,
     frame_signal "AKit_DumpBedVelocityLimit" (outputs_of (recvDumpBedCmd msg s))
       = Some (if enabled s && DumpBedCmd.enable msg
               then DumpBedCmd.velocity_limit msg else 0%Q)).
Proof.
  split; [|split; [|split]].
  - intros msg Hs Hv. split; [|rewrite <- vcmd_spec; apply vcmd_range].
    rewrite recvSteeringCmd_eq, Hs, <- vcmd_spec.
    pose proof (Qltb_abs_pos _ Hv) as Hlt.
    unfold frame_signal. rewrite SetResults_lookup. unfold steering_signals. rewrite Hlt.
    generalize (inject_Z (vcmd (SteeringCmd.angle_velocity msg))). intros x.
    signal_tac.
  - intros msg [Hs|Hv]; rewrite recvSteeringCmd_eq.
    + rewrite Hs. signal_tac.
    + unfold frame_signal. rewrite SetResults_lookup. unfold steering_signals.
      rewrite (Qltb_abs_zero _ Hv). signal_tac.
  - intros msg. rewrite recvArticulationCmd_eq. signal_tac.
  - intros msg. rewrite recvDumpBedCmd_eq. signal_tac.
Qed.

End Velocity.

Lemma velocity_limit_zero_or_copied :
  frame_signal "AKit_SteeringWhlAngleVelocityLim"
    (outputs_of (recvSteeringCmd (ext := sample_externals)
                   (steering_with_velocity 0) sample_enabled)) = Some 0%Q
  ∧ velocity_limit_spec 0 = 1%Z
  ∧ frame_signal "AKit_ArticulationVelocityLimit"
      (outputs_of (recvArticulationCmd (ext := sample_externals)
                     (articulation_with_limit 100) sample_enabled)) = Some 100%Q
  ∧ velocity_limit_spec 100 = 50%Z.
Proof. repeat split; vm_compute; reflexivity. Qed.

Lemma velocity_limit_encoding_witness :
  frame_signal "AKit_SteeringWhlAngleVelocityLim"
    (outputs_of (recvSteeringCmd (ext := sample_externals)
                   (steering_with_velocity 7) sample_enabled)) = Some 4%Q.
Proof.
  destruct (velocity_limit_encoding (ext := sample_externals) sample_enabled) as [Hsteer _].
  refine (proj1 (Hsteer (steering_with_velocity 7) _ _)).
  - vm_compute. reflexivity.
  - vm_compute. discriminate.
Defined.

(** ** Short frames *)

Section Decoders.
Context {ext : Externals}.

(** X23. A frame whose declared length is below the length the guard of
    its decoder asks for is dropped: nothing is published, the logger is
    not called, no fault or override is routed, and the state is
    unchanged. The guard of every decoder asks for the defined length of
    its message, [GetDlc], except the guard of the gear decoder, which
    asks for one byte. *)
Theorem short_frames_are_dropped (r : ReportId) (msg : Frame) (s : State) :
  dlc msg < required_dlc r → decoder r msg s = (tt, s, []).
Proof.
  intros Hshort.
  assert (Hgate : (required_dlc r <=? dlc msg) = false) by (apply Nat.leb_gt; lia).
  destruct r; cbn [decoder]; unfold_decoders; cbn [required_dlc] in Hgate;
    rewrite Hgate; reflexivity.
Qed.

End Decoders.

(** C6, at a concrete frame. Every message is eight bytes long. A gear
    report of declared length 1, shorter than its message, is not dropped:
    [recvGearRpt] tests [msg->dlc >= 1] where the other decoders test
    [msg->dlc >= message->GetDlc()], reads its eight signals all the same,
    routes the driver activity to the gear override, which disables the
    enabled system, and publishes a gear report. A brake report of the
    same length is dropped and leaves the system enabled. *)
Lemma gear_report_ignores_defined_length :
  dlc gear_report_one_byte < GetDlc (Externals := sample_externals) ID_GEAR_REPORT
  ∧ enabled sample_enabled = true
  ∧ enabled (state_of (decoder (ext := sample_externals) ID_GEAR_REPORT
                         gear_report_one_byte sample_enabled)) = false
  ∧ rd (overrides_ (state_of (decoder (ext := sample_externals) ID_GEAR_REPORT
                                gear_report_one_byte sample_enabled))) OVR_GEAR = true
  ∧ outputs_of (decoder (ext := sample_externals) ID_GEAR_REPORT
                  gear_report_one_byte sample_enabled)
    = [pub_sys_enable false;
       log 1691 WARN "DBW system disabled - PRND gear override";
       pub_report "gear_report"
         {| r_stamp := {| sec := 10; nanosec := 0 |};
            r_fields := [("enabled", 0%Q); ("state_actual.gear", 0%Q);
                         ("state_desired.gear", 0%Q); ("driver_activity", 1%Q);
                         ("gear_select_system_fault", 0%Q); ("reject", 0%Q);
                         ("gear_mismatch_flash", 0%Q); ("rolling_counter", 0%Q)] |}]
  ∧ decoder (ext := sample_externals) ID_BRAKE_REPORT brake_report_one_byte sample_enabled
    = (tt, sample_enabled, []).
Proof.
  split; [vm_compute; lia|]. repeat split; vm_compute; reflexivity.
Qed.

(** The same frame against the statement that every decoder drops a frame
    shorter than its message. *)
Lemma gear_report_of_one_byte_is_decoded :
  ¬ drops_short_frames (ext := sample_externals).
Proof.
  intros Hdrop.
  pose proof (Hdrop ID_GEAR_REPORT gear_report_one_byte sample_enabled) as H.
  assert (Hshort : dlc gear_report_one_byte < GetDlc (Externals := sample_externals) ID_GEAR_REPORT)
    by (vm_compute; lia).
  specialize (H Hshort).
  apply (f_equal (λ r, enabled (state_of r))) in H. vm_compute in H. discriminate H.
Qed.

Lemma gear_report_of_one_byte_outputs :
  outputs_of (decoder (ext := sample_externals) ID_GEAR_REPORT gear_report_one_byte sample_enabled)
  = [pub_sys_enable false;
     log 1691 WARN "DBW system disabled - PRND gear override";
     pub_report "gear_report"
       {| r_stamp := {| sec := 10; nanosec := 0 |};
          r_fields := [("enabled", 0%Q); ("state_actual.gear", 0%Q);
                       ("state_desired.gear", 0%Q); ("driver_activity", 1%Q);
                       ("gear_select_system_fault", 0%Q); ("reject", 0%Q);
                       ("gear_mismatch_flash", 0%Q); ("rolling_counter", 0%Q)] |}].
Proof. vm_compute. reflexivity. Qed.

Lemma short_frames_are_dropped_witness :
  decoder (ext := sample_externals) ID_BRAKE_REPORT
    {| id := Some ID_BRAKE_REPORT; is_rtr := false; is_error := false; dlc := 7;
       stamp := {| sec := 10; nanosec := 0 |}; signal := λ _, 1%Q |} sample_enabled
  = (tt, sample_enabled, []).
Proof.
  apply (short_frames_are_dropped (ext := sample_externals)).
  vm_compute. lia.
Defined.

(** ** Accelerator-pedal reports *)

Section Accel.
Context {ext : Externals}.

Ltac split_ifs :=
  repeat match goal with
         | |- context [if ?b then _ else _] => destruct b
         end.

Lemma faults_setFault w v s :
  faults_ (state_of (setFault w v s)) =
  if w <? NUM_SERIOUS_FAULTS then <[w := v]> (faults_ s) else faults_ s.
Proof.
  eassert (Hr : setFault w v s = _) by (unfold setFault; exec idtac).
  rewrite Hr. cbn [state_of fst snd]. split_ifs; reflexivity.
Qed.

Lemma faults_setOverride w v s : faults_ (state_of (setOverride w v s)) = faults_ s.
Proof.
  eassert (Hr : setOverride w v s = _) by (unfold setOverride; exec idtac).
  rewrite Hr. cbn [state_of fst snd]. split_ifs; reflexivity.
Qed.

(** The watchdog writes the watchdog fault and the two bits above the
    serious faults; the other serious faults keep their value. *)
Lemma faults_faultWatchdog f src s i :
  length (faults_ s) = NUM_FAULTS → i < NUM_SERIOUS_FAULTS →
  rd (faults_ (state_of (faultWatchdog f src s))) i =
  if i =? FAULT_WATCH then f else rd (faults_ s) i.
Proof.
  intros Hlen Hi.
  eassert (Hr : faultWatchdog f src s = _).
  { unfold faultWatchdog, faultWatchdog3. exec idtac. }
  rewrite Hr. cbn [state_of fst snd]. rewrite faults_setFault.
  change (FAULT_WATCH <? NUM_SERIOUS_FAULTS) with true. cbn iota.
  assert (Hw : ∀ l : list bool, length l = NUM_FAULTS →
            rd (<[FAULT_WATCH := f]> l) i = if i =? FAULT_WATCH then f else rd l i).
  { intros l Hl. destruct (Nat.eqb_spec i FAULT_WATCH) as [->|Hne].
    - apply rd_insert_eq. rewrite Hl. unfold FAULT_WATCH, NUM_FAULTS. lia.
    - by rewrite rd_insert_ne. }
  unfold NUM_SERIOUS_FAULTS in Hi.
  split_ifs; cbn [faults_ with_faults];
    rewrite ?rd_insert_ne by (unfold FAULT_WATCH_BRAKES, FAULT_WATCH_WARN; lia);
    rewrite faults_setFault; change (FAULT_WATCH <? NUM_SERIOUS_FAULTS) with true;
    cbn iota; by apply Hw.
Qed.

Lemma length_faults_setFault w v s :
  length (faults_ (state_of (setFault w v s))) = length (faults_ s).
Proof. rewrite faults_setFault. destruct (w <? _); by rewrite ?length_insert. Qed.

(** C7, as the decoder has it. For an accepted accelerator-pedal report the
    fault routed to [setFault(FAULT_ACCEL, ...)] is the AND of the two
    channel faults, so one channel alone does not raise it; the system
    fault signal goes to the watchdog fault. The published report carries
    the two channel faults, whose AND is the routed subsystem fault, and in
    [fault_accel_pedal_system] the system fault signal. *)
Theorem accel_fault_is_and_of_channels (msg : Frame) (s : State) :
  wf s → GetDlc ID_ACCEL_PEDAL_REPORT ≤ dlc msg →
  let ch1 := truthy (signal msg "DBW_AccelPdlFault_Ch1") in
  let ch2 := truthy (signal msg "DBW_AccelPdlFault_Ch2") in
  let sys := truthy (signal msg "DBW_AccelPdlFault") in
  rd (faults_ (state_of (recvAccelPedalRpt msg s))) FAULT_ACCEL = ch1 && ch2
  ∧ rd (faults_ (state_of (recvAccelPedalRpt msg s))) FAULT_WATCH = sys
  ∧ ∃ fields,
      pub_report "accelerator_pedal_report" {| r_stamp := stamp msg; r_fields := fields |}
        ∈ outputs_of (recvAccelPedalRpt msg s)
      ∧ ("fault_ch1", of_bool ch1) ∈ fields
      ∧ ("fault_ch2", of_bool ch2) ∈ fields
      ∧ ("fault_accel_pedal_system", of_bool sys) ∈ fields.
Proof.
  intros Hwf Hdlc ch1 ch2 sys.
  apply Nat.leb_le in Hdlc. unfold recvAccelPedalRpt. rewrite Hdlc. cbn [when].
  fold ch1 ch2 sys.
  assert (Hlen : length (faults_ s) = NUM_FAULTS) by apply Hwf.
  rewrite !state_of_bind, !outputs_of_bind.
  cbn [publish emit state_of fst snd].
  assert (Hlog : ∀ b o s0, faults_ (state_of (when b (emit o) s0)) = faults_ s0)
    by (by intros []).
  rewrite Hlog, faults_setOverride.
  rewrite !faults_faultWatchdog;
    try first [ by rewrite length_faults_setFault
              | unfold FAULT_ACCEL, FAULT_WATCH, NUM_SERIOUS_FAULTS; lia ].
  rewrite faults_setFault. cbn [Nat.eqb Nat.ltb Nat.leb FAULT_ACCEL FAULT_WATCH NUM_SERIOUS_FAULTS].
  split; [|split].
  - apply rd_insert_eq. rewrite Hlen. unfold FAULT_ACCEL, NUM_FAULTS. lia.
  - reflexivity.
  - eexists. split.
    + rewrite !elem_of_app. right. right. right. left.
      apply list_elem_of_singleton. reflexivity.
    + cbn. repeat split; set_solver.
Qed.

End Accel.

Lemma accel_report_fault_differs_from_routed_fault :
  let r := recvAccelPedalRpt (ext := sample_externals) accel_report_both_channels
             sample_enabled in
  rd (faults_ (state_of r)) FAULT_ACCEL = true
  ∧ rd (faults_ (state_of r)) FAULT_WATCH = false
  ∧ enabled (state_of r) = false
  ∧ outputs_of r =
      [pub_sys_enable false;
       log 1717 ERROR "DBW system disabled - accelerator pedal fault.";
       pub_report "accelerator_pedal_report"
         {| r_stamp := {| sec := 10; nanosec := 0 |};
            r_fields := [("pedal_input", 0%Q); ("pedal_output", 0%Q); ("enabled", 0%Q);
                         ("ignore_driver", 0%Q); ("driver_activity", 0%Q);
                         ("torque_actual", 0%Q); ("control_type.value", 0%Q);
                         ("rolling_counter", 0%Q);
                         ("fault_accel_pedal_system", 0%Q);
                         ("fault_ch1", 1%Q); ("fault_ch2", 1%Q)] |};
       log 432 WARN "Acclerator pedal report received a system fault."].
Proof. repeat split; vm_compute; reflexivity. Qed.

Lemma accel_fault_is_and_of_channels_witness :
  rd (faults_ (state_of (recvAccelPedalRpt (ext := sample_externals)
                           accel_report_channel_1 sample_enabled))) FAULT_ACCEL = false.
Proof.
  assert (Hwf : wf sample_enabled) by (by split).
  assert (Hdlc : GetDlc (Externals := sample_externals) ID_ACCEL_PEDAL_REPORT
                 ≤ dlc accel_report_channel_1) by (vm_compute; lia).
  exact (proj1 (accel_fault_is_and_of_channels (ext := sample_externals)
                  accel_report_channel_1 sample_enabled Hwf Hdlc)).
Defined.

(** ** VIN reassembly *)

Section Vin.
Context {ext : Externals}.

Lemma Qeq_bool_ne (x a b : Q) : (x == a)%Q → ¬ (a == b)%Q → Qeq_bool x b = false.
Proof.
  intros Hx Hab. destruct (Qeq_bool x b) eqn:E; [|done].
  apply Qeq_bool_iff in E. exfalso. apply Hab. by rewrite <- Hx.
Qed.

(** C9, as the decoder has it. From an empty buffer, a phase-0, a phase-1
    and a phase-2 frame give exactly one publication, of the seventeen
    characters in order. A phase-0 frame followed directly by a phase-2
    frame also gives one publication: the ten characters received. *)
Theorem vin_reassembly (f0 f1 f2 : Frame) (s : State) :
  vin_ s = [] →
  GetDlc ID_VIN ≤ dlc f0 → GetDlc ID_VIN ≤ dlc f1 → GetDlc ID_VIN ≤ dlc f2 →
  (signal f0 "DBW_VinMultiplexor" == VIN_MUX_VIN0)%Q →
  (signal f1 "DBW_VinMultiplexor" == VIN_MUX_VIN1)%Q →
  (signal f2 "DBW_VinMultiplexor" == VIN_MUX_VIN2)%Q →
  outputs_of ((recvVinRpt f0;; recvVinRpt f1;; recvVinRpt f2) s) =
    [pub_vin (digits_of f0 vin0_digits ++ digits_of f1 vin1_digits ++ digits_of f2 vin2_digits)]
  ∧ length (digits_of f0 vin0_digits ++ digits_of f1 vin1_digits ++ digits_of f2 vin2_digits) = 17
  ∧ outputs_of ((recvVinRpt f0;; recvVinRpt f2) s) =
      [pub_vin (digits_of f0 vin0_digits ++ digits_of f2 vin2_digits)]
  ∧ length (digits_of f0 vin0_digits ++ digits_of f2 vin2_digits) = 10.
Proof.
  intros Hv H0 H1 H2 M0 M1 M2.
  apply Nat.leb_le in H0, H1, H2.
  assert (E00 : Qeq_bool (signal f0 "DBW_VinMultiplexor") VIN_MUX_VIN0 = true)
    by by apply Qeq_bool_iff.
  assert (E10 : Qeq_bool (signal f1 "DBW_VinMultiplexor") VIN_MUX_VIN0 = false)
    by (by eapply Qeq_bool_ne).
  assert (E11 : Qeq_bool (signal f1 "DBW_VinMultiplexor") VIN_MUX_VIN1 = true)
    by by apply Qeq_bool_iff.
  assert (E20 : Qeq_bool (signal f2 "DBW_VinMultiplexor") VIN_MUX_VIN0 = false)
    by (by eapply Qeq_bool_ne).
  assert (E21 : Qeq_bool (signal f2 "DBW_VinMultiplexor") VIN_MUX_VIN1 = false)
    by (by eapply Qeq_bool_ne).
  assert (E22 : Qeq_bool (signal f2 "DBW_VinMultiplexor") VIN_MUX_VIN2 = true)
    by by apply Qeq_bool_iff.
  split; [|split; [done|split; [|done]]].
  - eassert (Hr : (recvVinRpt f0;; recvVinRpt f1;; recvVinRpt f2) s = _).
    { unfold recvVinRpt, push_digits.
      rewrite H0, H1, H2, E00, E10, E11, E20, E21, E22. exec idtac. }
    rewrite Hr. cbn [outputs_of snd app vin_ with_vin]. rewrite Hv. 
    unfold digits_of, vin0_digits, vin1_digits, vin2_digits. cbn [app map]. reflexivity.
  - eassert (Hr : (recvVinRpt f0;; recvVinRpt f2) s = _).
    { unfold recvVinRpt, push_digits.
      rewrite H0, H2, E00, E20, E21, E22. exec idtac. }
    rewrite Hr. cbn [outputs_of snd app vin_ with_vin]. rewrite Hv.
    unfold digits_of, vin0_digits, vin2_digits. cbn [app map]. reflexivity.
Qed.

End Vin.

Lemma vin_published_without_phase_1 :
  outputs_of ((recvVinRpt (ext := sample_externals) (vin_frame 0);;
               recvVinRpt (ext := sample_externals) (vin_frame 2)) sample_start)
  = [pub_vin [1; 2; 3; 4; 5; 6; 7; 15; 16; 17]%Z].
Proof. vm_compute. reflexivity. Qed.

Lemma vin_reassembly_witness :
  outputs_of ((recvVinRpt (ext := sample_externals) (vin_frame 0);;
               recvVinRpt (ext := sample_externals) (vin_frame 1);;
               recvVinRpt (ext := sample_externals) (vin_frame 2)) sample_start)
  = [pub_vin [1; 2; 3; 4; 5; 6; 7; 8; 9; 10; 11; 12; 13; 14; 15; 16; 17]%Z].
Proof.
  refine (proj1 (vin_reassembly (ext := sample_externals)
                   (vin_frame 0) (vin_frame 1) (vin_frame 2) sample_start
                   eq_refl _ _ _ _ _ _)).
  - vm_compute. lia.
  - vm_compute. lia.
  - vm_compute. lia.
  - reflexivity.
  - reflexivity.
  - reflexivity.
Defined.

(** ** Wheel kinematics *)

Section Kinematics.
Context {ext : Externals}.

(** What a wheel-speed report does to the joint-state record: the four
    wheel velocities are stored, the positions are integrated when the
    handler's own [dt] is below one half, the stamp is replaced, and the
    record is published. The handler's [dt] is the frame time minus the
    whole seconds of the record's stamp. *)
Lemma publishJointStates_wheels_eq st fl fr rl rr s :
  let js := joint_state_ s in
  let dt := (seconds st - inject_Z (sec (js_stamp js)))%Q in
  let vel := <[JOINT_RR := rr]> (<[JOINT_RL := rl]> (<[JOINT_FR := fr]>
               (<[JOINT_FL := fl]> (velocity js)))) in
  let js' := {| js_stamp := st;
                position := if Qltb dt (1 # 2) then integrate dt vel (position js)
                            else position js;
                velocity := vel |} in
  publishJointStates_wheels st fl fr rl rr s =
  (tt, with_joint_state (λ _, js') s, [pub_joint_states js']).
Proof. reflexivity. Qed.

End Kinematics.

(** C10, at a concrete call sequence. A wheel-speed report stamped 10.9 s
    with the wheels at rest is followed, 0.1 s later, by one stamped 11.0 s
    with every wheel at 1 rad/s. The handler computes [dt] from the whole
    seconds of the stored stamp, 11.0 - 10 = 1.0, so the positions are not
    integrated: the record is published with the new velocities and every
    position still 0, where 0.1 s of elapsed time calls for 0.1 rad. When
    the stored stamp falls on a whole second the same 0.1 s gives 0.1. *)
Lemma wheel_positions_use_whole_seconds :
  let late := {| sec := 10; nanosec := 900000000 |} in
  let next := {| sec := 11; nanosec := 0 |} in
  let s := state_of (run (ext := sample_externals)
                       [call_recvCAN (wheel_speed_frame late 0)] sample_start) in
  (seconds next - seconds (js_stamp (joint_state_ s)) == 1 # 10)%Q
  ∧ outputs_of (run (ext := sample_externals)
                  [call_recvCAN (wheel_speed_frame next 1)] s)
    = [pub_report "wheel_speed_report"
         {| r_stamp := next;
            r_fields := [("front_left", 1%Q); ("front_right", 1%Q);
                         ("rear_left", 1%Q); ("rear_right", 1%Q)] |};
       pub_joint_states
         {| js_stamp := next;
            position := [0; 0; 0; 0; 0; 0]%Q;
            velocity := [1; 1; 1; 1; 0; 0]%Q |}]
  ∧ (let whole := {| sec := 10; nanosec := 0 |} in
     let tenth := {| sec := 10; nanosec := 100000000 |} in
     let s0 := state_of (run (ext := sample_externals)
                           [call_recvCAN (wheel_speed_frame whole 0)] sample_start) in
     let s1 := state_of (run (ext := sample_externals)
                           [call_recvCAN (wheel_speed_frame tenth 1)] s0) in
     Forall (λ p, (p == 1 # 10)%Q) (take 4 (position (joint_state_ s1)))).
Proof.
  intros late next s. split; [|split].
  - vm_compute. reflexivity.
  - vm_compute. reflexivity.
  - intros whole tenth s0 s1.
    vm_compute. repeat constructor.
Qed.

(** * Call sequences, frames and invariants *)

Section Sequences.
Context {ext : Externals}.

Lemma publishes_app o1 o2 : publishes (o1 ++ o2) = publishes o1 + publishes o2.
Proof. unfold publishes. by rewrite List.filter_app, length_app. Qed.

Lemma tracks_app p o1 o2 :
  tracks p (o1 ++ o2) = match tracks p o1 with Some p1 => tracks p1 o2 | None => None end.
Proof.
  revert p. induction o1 as [|o o1 IH]; intros p; [done|].
  destruct o; cbn [app tracks]; try apply IH.
  destruct (eqb data p); [done | apply IH].
Qed.

Lemma tracks_silent p o : publishes o = 0 → tracks p o = Some p.
Proof.
  revert p. induction o as [|x o IH]; intros p Hp; [done|].
  destruct x; cbn in *; try (by apply IH). done.
Qed.

(** ** [untouched] *)

Lemma untouched_ret {A} (a : A) : untouched (ret a).
Proof. by intros s. Qed.
Lemma untouched_get {A} (f : State → A) : untouched (get f).
Proof. by intros s. Qed.
Lemma untouched_emit o : is_sys_enable o = false → untouched (emit o).
Proof. intros Ho s. split; [done|]. unfold publishes. cbn. by rewrite Ho. Qed.
Lemma untouched_modify f :
  (∀ s, arbitration (f s) = arbitration s) → untouched (modify f).
Proof. intros Hf s. split; [apply Hf | done]. Qed.
Lemma untouched_bind {A B} (c : M A) (k : A → M B) :
  untouched c → (∀ a, untouched (k a)) → untouched (bind c k).
Proof.
  intros Hc Hk s. rewrite state_of_bind, outputs_of_bind, publishes_app.
  destruct (Hc s) as [Hc1 Hc2]. destruct (Hk (value_of (c s)) (state_of (c s))) as [Hk1 Hk2].
  split; [congruence | lia].
Qed.
Lemma untouched_when b (c : M unit) : untouched c → untouched (when b c).
Proof. destruct b; [done | intros _; apply untouched_ret]. Qed.
Lemma untouched_if {A} (b : bool) (c1 c2 : M A) :
  untouched c1 → untouched c2 → untouched (if b then c1 else c2).
Proof. by destruct b. Qed.

Create HintDb untouched discriminated.
Hint Resolve untouched_ret untouched_get untouched_when untouched_if : untouched.
Hint Extern 1 (untouched (emit _)) => apply untouched_emit; reflexivity : untouched.
Hint Extern 1 (untouched (modify _)) => apply untouched_modify; intros ?; reflexivity : untouched.
Hint Extern 2 (untouched (bind _ _)) => apply untouched_bind; [| intros ?] : untouched.

Lemma untouched_send name l : untouched (send name l).
Proof. unfold send. auto 10 with untouched. Qed.
Lemma untouched_publish topic msg fields : untouched (publish topic msg fields).
Proof. unfold publish. auto with untouched. Qed.
Lemma untouched_wheels st a b c d : untouched (publishJointStates_wheels st a b c d).
Proof. unfold publishJointStates_wheels. auto 10 with untouched. Qed.
Lemma untouched_steering st a : untouched (publishJointStates_steering st a).
Proof. unfold publishJointStates_steering. auto 10 with untouched. Qed.
Lemma untouched_push_digits msg sgs : untouched (push_digits msg sgs).
Proof. unfold push_digits. auto with untouched. Qed.
Hint Resolve untouched_send untouched_publish untouched_wheels untouched_steering
  untouched_push_digits : untouched.

Lemma untouched_timerCallback : untouched timerCallback.
Proof. unfold timerCallback. auto 40 with untouched. Qed.

Lemma untouched_encoders :
  (∀ m, untouched (recvBrakeCmd m)) ∧ (∀ m, untouched (recvAcceleratorPedalCmd m))
  ∧ (∀ m, untouched (recvSteeringCmd m)) ∧ (∀ m, untouched (recvGearCmd m))
  ∧ (∀ m, untouched (recvGlobalEnableCmd m)) ∧ (∀ m, untouched (recvMiscCmd m))
  ∧ (∀ m, untouched (recvActionCmd m)) ∧ (∀ m, untouched (recvArticulationCmd m))
  ∧ (∀ m, untouched (recvDumpBedCmd m)) ∧ (∀ m, untouched (recvEngineCmd m)).
Proof. repeat split; intros m; unfold_encoders; auto 10 with untouched. Qed.

Lemma untouched_sensor_decoder r msg : sensor_report r = true → untouched (decoder r msg).
Proof.
  intros Hr. destruct r; try discriminate Hr; cbn [decoder]; unfold_decoders;
    auto 20 with untouched.
Qed.

(** X1. Command encoders, the timer, the decoders of the fifteen sensor
    reports, and frames that are remote, error or of an unknown identifier
    leave [enables_], [overrides_] and [faults_] exactly as they were and
    publish no state change. *)
Theorem passive_calls_leave_arbitration (c : Call) (s : State) :
  passive c = true →
  arbitration (state_of (handle c s)) = arbitration s
  ∧ publishes (outputs_of (handle c s)) = 0.
Proof.
  intros Hc. revert s. change (untouched (handle c)).
  pose proof untouched_encoders as (?&?&?&?&?&?&?&?&?&?).
  destruct c; try discriminate Hc; cbn [handle]; try done;
    try apply untouched_timerCallback.
  unfold recvCAN. cbn [passive] in Hc.
  destruct (negb (is_rtr msg) && negb (is_error msg)); [|apply untouched_ret].
  cbn [when]. destruct (id msg) as [r|]; [|apply untouched_ret].
  by apply untouched_sensor_decoder.
Qed.

(** ** [edge] *)

Lemma wf_arbitration s s' : arbitration s' = arbitration s → wf s → wf s'.
Proof.
  unfold arbitration. intros [= He Ho Hf] [H1 H2 H3]. split; congruence.
Qed.

Lemma untouched_edge {A} (c : M A) : untouched c → edge c.
Proof.
  intros Hc s Hwf. destruct (Hc s) as [Ha Hp]. split.
  - by eapply wf_arbitration.
  - rewrite tracks_silent by done. unfold shadow.
    unfold arbitration in Ha. by injection Ha as -> _ _.
Qed.

Lemma edge_bind {A B} (c : M A) (k : A → M B) :
  edge c → (∀ a, edge (k a)) → edge (bind c k).
Proof.
  intros Hc Hk s Hwf. rewrite state_of_bind, outputs_of_bind, tracks_app.
  destruct (Hc s Hwf) as [Hwf1 ->]. by apply Hk.
Qed.
Lemma edge_when b (c : M unit) : edge c → edge (when b c).
Proof. destruct b; [done | intros _; by apply untouched_edge, untouched_ret]. Qed.
Lemma edge_if {A} (b : bool) (c1 c2 : M A) : edge c1 → edge c2 → edge (if b then c1 else c2).
Proof. by destruct b. Qed.

Lemma edge_publishDbwEnabled : edge publishDbwEnabled.
Proof.
  intros s Hwf. rewrite publishDbwEnabled_eq. cbn [state_of outputs_of fst snd].
  split; [by apply wf_with_enables|].
  unfold shadow at 2. cbn [with_enables enables_].
  rewrite rd_insert_eq by (rewrite (wf_enables _ Hwf); unfold EN_DBW_PREV, NUM_ENABLES; lia).
  fold (shadow s). destruct (shadow s), (enabled s); reflexivity.
Qed.

(** Writing one cell of an array keeps the sizes; writing [enables_[EN_DBW]],
    a fault or an override leaves the shadow alone. *)
Lemma edge_modify f :
  (∀ s, wf s → wf (f s) ∧ shadow (f s) = shadow s) → edge (modify f).
Proof. intros Hf s Hwf. destruct (Hf s Hwf) as [? Hs]. split; [done|]. cbn. by rewrite Hs. Qed.

Lemma wf_with_overrides s i v : wf s → wf (with_overrides (<[i := v]>) s).
Proof. intros [? ? ?]. split; cbn; by rewrite ?length_insert. Qed.

Create HintDb edge discriminated.
Hint Resolve edge_when edge_if edge_publishDbwEnabled : edge.
Hint Extern 2 (edge (bind _ _)) => apply edge_bind; [| intros ?] : edge.
Hint Extern 3 (edge (modify _)) =>
  apply edge_modify; intros ? ?; split;
  [ first [ by apply wf_with_enables | by apply wf_with_faults | by apply wf_with_overrides ]
  | first [ reflexivity | unfold shadow; cbn; by rewrite rd_insert_ne ] ] : edge.
Hint Extern 5 (edge _) => apply untouched_edge; solve [auto 10 with untouched] : edge.

Lemma edge_setFault w v : edge (setFault w v).
Proof. unfold setFault. auto 20 with edge. Qed.
Lemma edge_setOverride w v : edge (setOverride w v).
Proof. unfold setOverride. auto 20 with edge. Qed.
Hint Resolve edge_setFault edge_setOverride : edge.

Lemma untouched_log_faults idx : untouched (for_each idx log_asserted_fault).
Proof.
  induction idx as [|i idx IH]; cbn [for_each]; [apply untouched_ret|].
  unfold log_asserted_fault at 1. auto 10 with untouched.
Qed.
Hint Resolve untouched_log_faults : untouched.

Lemma edge_enableSystem : edge enableSystem.
Proof. unfold enableSystem. auto 20 with edge. Qed.
Lemma edge_disableSystem : edge disableSystem.
Proof. unfold disableSystem. auto 20 with edge. Qed.
Lemma edge_faultWatchdog3 f src b : edge (faultWatchdog3 f src b).
Proof. unfold faultWatchdog3. auto 40 with edge. Qed.
Hint Resolve edge_enableSystem edge_disableSystem edge_faultWatchdog3 : edge.
Lemma edge_faultWatchdog f src : edge (faultWatchdog f src).
Proof. unfold faultWatchdog. auto 10 with edge. Qed.
Hint Resolve edge_faultWatchdog : edge.

Lemma edge_decoder r msg : edge (decoder r msg).
Proof. destruct r; cbn [decoder]; unfold_decoders; auto 20 with edge. Qed.
Hint Resolve edge_decoder : edge.

Lemma edge_handle c : edge (handle c).
Proof.
  destruct c; cbn [handle]; unfold recvCAN; try (destruct (id msg)); auto 10 with edge;
    apply untouched_edge; first [apply untouched_timerCallback
      | pose proof untouched_encoders as (?&?&?&?&?&?&?&?&?&?); done].
Qed.

Lemma edge_run cs : edge (run cs).
Proof.
  induction cs as [|c cs IH]; cbn [run]; [by apply untouched_edge, untouched_ret|].
  apply edge_bind; [apply edge_handle | by intros _].
Qed.

(** ** [resync] and [keeps_synced] *)

Lemma synced_arbitration s s' : arbitration s' = arbitration s → synced s → synced s'.
Proof.
  unfold arbitration, synced, shadow, enabled. by intros [= -> _ _].
Qed.

Lemma resync_publishDbwEnabled : resync publishDbwEnabled.
Proof.
  intros s Hwf. unfold synced. rewrite publishDbwEnabled_eq. cbn [state_of fst snd].
  rewrite enabled_shadow. unfold shadow. cbn [with_enables enables_].
  apply rd_insert_eq. rewrite (wf_enables _ Hwf). unfold EN_DBW_PREV, NUM_ENABLES. lia.
Qed.

Lemma resync_bind_r {A B} (c : M A) (k : A → M B) :
  edge c → (∀ a, resync (k a)) → resync (bind c k).
Proof. intros Hc Hk s Hwf. rewrite state_of_bind. apply Hk. by apply Hc. Qed.

Lemma resync_bind_l {A B} (c : M A) (k : A → M B) :
  resync c → (∀ a, untouched (k a)) → resync (bind c k).
Proof.
  intros Hc Hk s Hwf. rewrite state_of_bind.
  eapply synced_arbitration; [apply Hk | by apply Hc].
Qed.

Lemma keeps_synced_resync {A} (c : M A) : resync c → keeps_synced c.
Proof. intros Hc s Hwf _. by apply Hc. Qed.
Lemma keeps_synced_untouched {A} (c : M A) : untouched c → keeps_synced c.
Proof. intros Hc s Hwf Hs. eapply synced_arbitration; [apply Hc | done]. Qed.
Lemma keeps_synced_bind {A B} (c : M A) (k : A → M B) :
  edge c → keeps_synced c → (∀ a, keeps_synced (k a)) → keeps_synced (bind c k).
Proof.
  intros He Hc Hk s Hwf Hs. rewrite state_of_bind. apply Hk; [by apply He | by apply Hc].
Qed.
Lemma keeps_synced_when b (c : M unit) : keeps_synced c → keeps_synced (when b c).
Proof. destruct b; [done | by intros _ s]. Qed.
Lemma keeps_synced_if {A} (b : bool) (c1 c2 : M A) :
  keeps_synced c1 → keeps_synced c2 → keeps_synced (if b then c1 else c2).
Proof. by destruct b. Qed.

Lemma keeps_synced_modify f :
  (∀ s, enables_ (f s) = enables_ s) → keeps_synced (modify f).
Proof. intros Hf s _. unfold synced, shadow, enabled. cbn. by rewrite Hf. Qed.

Create HintDb synced discriminated.
Hint Extern 1 (keeps_synced (modify _)) =>
  apply keeps_synced_modify; intros ?; reflexivity : synced.
Hint Resolve resync_publishDbwEnabled keeps_synced_when keeps_synced_if : synced.
Hint Extern 2 (resync (bind _ _)) =>
  first [ apply resync_bind_l; [solve [auto with synced] | intros ?; solve [auto 10 with untouched]]
        | apply resync_bind_r; [solve [auto 10 with edge] | intros ?] ] : synced.
Hint Extern 2 (keeps_synced (bind _ _)) =>
  apply keeps_synced_bind; [solve [auto 10 with edge] | | intros ?] : synced.
Hint Extern 4 (keeps_synced _) =>
  apply keeps_synced_untouched; solve [auto 10 with untouched] : synced.
Hint Extern 5 (keeps_synced _) => apply keeps_synced_resync : synced.

Lemma keeps_synced_setFault w v : keeps_synced (setFault w v).
Proof. unfold setFault. auto 20 with synced. Qed.
Lemma keeps_synced_setOverride w v : keeps_synced (setOverride w v).
Proof. unfold setOverride. auto 20 with synced. Qed.
Lemma keeps_synced_enableSystem : keeps_synced enableSystem.
Proof. unfold enableSystem. auto 20 with synced. Qed.
Lemma keeps_synced_disableSystem : keeps_synced disableSystem.
Proof. unfold disableSystem. auto 20 with synced. Qed.
Hint Resolve keeps_synced_setFault keeps_synced_setOverride keeps_synced_enableSystem
  keeps_synced_disableSystem : synced.
Lemma keeps_synced_faultWatchdog3 f src b : keeps_synced (faultWatchdog3 f src b).
Proof. unfold faultWatchdog3. auto 40 with synced. Qed.
Hint Resolve keeps_synced_faultWatchdog3 : synced.
Lemma keeps_synced_faultWatchdog f src : keeps_synced (faultWatchdog f src).
Proof. unfold faultWatchdog. auto 10 with synced. Qed.
Hint Resolve keeps_synced_faultWatchdog : synced.
Lemma keeps_synced_decoder r msg : keeps_synced (decoder r msg).
Proof. destruct r; cbn [decoder]; unfold_decoders; auto 20 with synced. Qed.

Hint Resolve keeps_synced_decoder : synced.

Lemma keeps_synced_handle c : keeps_synced (handle c).
Proof.
  destruct c; cbn [handle]; unfold recvCAN; try (destruct (id msg)); auto 10 with synced;
    apply keeps_synced_untouched; first [apply untouched_timerCallback
      | pose proof untouched_encoders as (?&?&?&?&?&?&?&?&?&?); done].
Qed.

Lemma constructed_wf_synced cfg dbc :
  wf (state_of (RaptorDbwCAN cfg dbc)) ∧ synced (state_of (RaptorDbwCAN cfg dbc))
  ∧ enabled (state_of (RaptorDbwCAN cfg dbc)) = false.
Proof. by repeat split. Qed.

(** X2. From a state in which the last-published value agrees with
    [enabled()], every call sequence keeps the three arrays at their sizes
    and ends with the last-published value equal to [enabled()] again; and
    the state-change events it publishes alternate: each carries the
    opposite of the one before, the first the opposite of [enabled()] at
    the start, the last the value of [enabled()] at the end. *)
Theorem state_changes_alternate (cs : list Call) (s : State) :
  wf s → synced s →
  wf (state_of (run cs s))
  ∧ synced (state_of (run cs s))
  ∧ tracks (enabled s) (outputs_of (run cs s)) = Some (enabled (state_of (run cs s))).
Proof.
  intros Hwf Hs.
  assert (Hsync : ∀ cs s, wf s → synced s → synced (state_of (run cs s))).
  { clear. induction cs as [|c cs IH]; intros s Hwf Hs; [done|].
    cbn [run]. rewrite state_of_bind. apply IH.
    - by apply edge_handle.
    - by apply keeps_synced_handle. }
  destruct (edge_run cs s Hwf) as [Hwf' Htr].
  pose proof (Hsync cs s Hwf Hs) as Hs'.
  split; [done|]. split; [done|]. by rewrite <- Hs, <- Hs'.
Qed.

(** ** The fault-free invariant *)

Lemma lowers_untouched {A} (c : M A) : untouched c → lowers c.
Proof.
  intros Hc s. destruct (Hc s) as [Ha _]. unfold arbitration in Ha.
  injection Ha as He _ Hf. unfold enabled. rewrite He, Hf. by split.
Qed.
Lemma lowers_bind {A B} (c : M A) (k : A → M B) :
  lowers c → (∀ a, lowers (k a)) → lowers (bind c k).
Proof.
  intros Hc Hk s. rewrite state_of_bind.
  destruct (Hc s) as [He Hf], (Hk (value_of (c s)) (state_of (c s))) as [He' Hf'].
  split; [tauto | intros i Hi H; by apply Hf, Hf'].
Qed.
Lemma lowers_when b (c : M unit) : lowers c → lowers (when b c).
Proof. destruct b; [done | by intros _ s]. Qed.
Lemma lowers_if {A} (b : bool) (c1 c2 : M A) :
  lowers c1 → lowers c2 → lowers (if b then c1 else c2).
Proof. by destruct b. Qed.
Lemma lowers_cut : lowers (modify (with_enables (<[EN_DBW := false]>))).
Proof. intros s. split; [intros H; exfalso; revert H; change (enabled (with_enables (<[EN_DBW := false]>) s) ≠ true); by rewrite enabled_cut | done]. Qed.
Lemma lowers_shadow v : lowers (modify (with_enables (<[EN_DBW_PREV := v]>))).
Proof. intros s. split; [change (enabled (with_enables (<[EN_DBW_PREV := v]>) s) = true → enabled s = true); by rewrite enabled_shadow | done]. Qed.
Lemma lowers_override w v : lowers (modify (with_overrides (<[w := v]>))).
Proof. by intros s. Qed.
Lemma lowers_fault_off w : lowers (modify (with_faults (<[w := false]>))).
Proof. intros s. split; [done | intros i _; apply rd_insert_false]. Qed.
Lemma lowers_fault_other w v :
  NUM_SERIOUS_FAULTS ≤ w → lowers (modify (with_faults (<[w := v]>))).
Proof.
  intros Hw s. split; [done | intros i Hi]. cbn. rewrite rd_insert_ne; [done | lia].
Qed.
Lemma lowers_publishDbwEnabled : lowers publishDbwEnabled.
Proof.
  intros s. rewrite publishDbwEnabled_eq. cbn [state_of fst snd].
  split; [by rewrite enabled_shadow | done].
Qed.

Create HintDb lowers discriminated.
Hint Resolve lowers_when lowers_if lowers_cut lowers_shadow lowers_override lowers_fault_off
  lowers_publishDbwEnabled : lowers.
Hint Extern 1 (lowers (modify (with_faults _))) =>
  apply lowers_fault_other; unfold NUM_SERIOUS_FAULTS, FAULT_WATCH_WARN, FAULT_WATCH_BRAKES; lia
  : lowers.
Hint Extern 2 (lowers (bind _ _)) => apply lowers_bind; [| intros ?] : lowers.
Hint Extern 5 (lowers _) => apply lowers_untouched; solve [auto 10 with untouched] : lowers.

Lemma lowers_setOverride w v : lowers (setOverride w v).
Proof. unfold setOverride. auto 20 with lowers. Qed.
Lemma lowers_disableSystem : lowers disableSystem.
Proof. unfold disableSystem. auto 20 with lowers. Qed.
Lemma lowers_setFault_false w : lowers (setFault w false).
Proof. unfold setFault. auto 20 with lowers. Qed.

Lemma keeps_fault_free_lowers {A} (c : M A) : lowers c → keeps_fault_free c.
Proof.
  intros Hc s _ Hs He i Hi. destruct (Hc s) as [He' Hf].
  destruct (rd (faults_ (state_of (c s))) i) eqn:E; [|done].
  rewrite <- (Hs (He' He) i Hi). symmetry. by apply Hf.
Qed.
Lemma keeps_fault_free_bind {A B} (c : M A) (k : A → M B) :
  edge c → keeps_fault_free c → (∀ a, keeps_fault_free (k a)) → keeps_fault_free (bind c k).
Proof.
  intros He Hc Hk s Hwf Hs. rewrite state_of_bind. apply Hk; [by apply He | by apply Hc].
Qed.
Lemma keeps_fault_free_when b (c : M unit) : keeps_fault_free c → keeps_fault_free (when b c).
Proof. destruct b; [done | by intros _ s]. Qed.
Lemma keeps_fault_free_if {A} (b : bool) (c1 c2 : M A) :
  keeps_fault_free c1 → keeps_fault_free c2 → keeps_fault_free (if b then c1 else c2).
Proof. by destruct b. Qed.

Lemma fault_free_disabled s : enabled s = false → fault_free_when_enabled s.
Proof. intros E He. congruence. Qed.

Lemma keeps_fault_free_setFault w v : keeps_fault_free (setFault w v).
Proof.
  destruct v; [|apply keeps_fault_free_lowers, lowers_setFault_false].
  intros s Hwf Hs.
  destruct (decide (w < NUM_SERIOUS_FAULTS)) as [Hw|Hw].
  - apply fault_free_disabled. destruct (enabled s) eqn:En.
    + rewrite (setFault_cut _ _ Hw En). cbn [state_of fst snd].
      rewrite enabled_shadow. apply (enabled_cut s).
    + rewrite (setFault_off _ _ _ Hw En). cbn [state_of fst snd].
      rewrite enabled_shadow. exact En.
  - unfold setFault. apply Nat.ltb_nlt in Hw. by rewrite Hw.
Qed.

Lemma keeps_fault_free_enableSystem : keeps_fault_free enableSystem.
Proof.
  intros s Hwf Hs. destruct (rd (enables_ s) EN_DBW) eqn:Ha.
  { by rewrite enableSystem_active. }
  destruct (fault s) eqn:Hf.
  { by rewrite enableSystem_rejected. }
  intros _ i Hi.
  assert (Hfl : faults_ (state_of (enableSystem s)) = faults_ s).
  { unfold enableSystem, bind, get. cbn [fst snd]. rewrite Ha. cbn [negb when fst snd].
    rewrite Hf. cbv [modify fst snd state_of]. rewrite publishDbwEnabled_eq.
    by destruct (negb _). }
  rewrite Hfl. destruct (rd (faults_ s) i) eqn:E; [|done].
  rewrite <- Hf. symmetry. apply fault_iff. eauto.
Qed.

Create HintDb faultfree discriminated.
Hint Resolve keeps_fault_free_when keeps_fault_free_if keeps_fault_free_setFault
  keeps_fault_free_enableSystem : faultfree.
Hint Extern 2 (keeps_fault_free (bind _ _)) =>
  apply keeps_fault_free_bind; [solve [auto 10 with edge] | | intros ?] : faultfree.
Hint Extern 4 (keeps_fault_free _) =>
  apply keeps_fault_free_lowers; solve [auto 20 with lowers] : faultfree.

Lemma keeps_fault_free_setOverride w v : keeps_fault_free (setOverride w v).
Proof. apply keeps_fault_free_lowers, lowers_setOverride. Qed.
Lemma keeps_fault_free_disableSystem : keeps_fault_free disableSystem.
Proof. apply keeps_fault_free_lowers, lowers_disableSystem. Qed.
Hint Resolve keeps_fault_free_setOverride keeps_fault_free_disableSystem : faultfree.
Lemma keeps_fault_free_faultWatchdog3 f src b : keeps_fault_free (faultWatchdog3 f src b).
Proof. unfold faultWatchdog3. auto 40 with faultfree. Qed.
Hint Resolve keeps_fault_free_faultWatchdog3 : faultfree.
Lemma keeps_fault_free_faultWatchdog f src : keeps_fault_free (faultWatchdog f src).
Proof. unfold faultWatchdog. auto 10 with faultfree. Qed.
Hint Resolve keeps_fault_free_faultWatchdog : faultfree.
Lemma keeps_fault_free_decoder r msg : keeps_fault_free (decoder r msg).
Proof. destruct r; cbn [decoder]; unfold_decoders; auto 20 with faultfree. Qed.
Hint Resolve keeps_fault_free_decoder : faultfree.

Lemma keeps_fault_free_handle c : keeps_fault_free (handle c).
Proof.
  destruct c; cbn [handle]; unfold recvCAN; try (destruct (id msg)); auto 10 with faultfree;
    apply keeps_fault_free_lowers, lowers_untouched; first [apply untouched_timerCallback
      | pose proof untouched_encoders as (?&?&?&?&?&?&?&?&?&?); done].
Qed.

Lemma keeps_fault_free_run cs : keeps_fault_free (run cs).
Proof.
  induction cs as [|c cs IH]; intros s Hwf Hs; [done|].
  cbn [run]. rewrite state_of_bind. apply IH.
  - by apply edge_handle.
  - by apply keeps_fault_free_handle.
Qed.

(** X3. While the system is enabled no serious fault is latched: every
    call - a request, a command, a timer tick, a frame of any kind -
    preserves this, so from a state in which it holds it holds after every
    call sequence. *)
Theorem enabled_means_no_serious_fault (cs : list Call) (s : State) :
  wf s → fault_free_when_enabled s →
  fault_free_when_enabled (state_of (run cs s)).
Proof. apply keeps_fault_free_run. Qed.

(** ** The watchdog *)

Lemma if_same {A} (b : bool) (x : A) : (if b then x else x) = x.
Proof. by destruct b. Qed.

Ltac case_ifs :=
  repeat match goal with
         | |- context [if ?b then _ else _] => destruct b
         end.

Ltac rd_insert Hlen :=
  repeat first
    [ rewrite rd_insert_ne by
        (unfold FAULT_WATCH, FAULT_WATCH_BRAKES, FAULT_WATCH_WARN in *; lia)
    | rewrite rd_insert_eq by
        (rewrite ?length_insert, Hlen;
         unfold FAULT_WATCH, FAULT_WATCH_BRAKES, FAULT_WATCH_WARN, NUM_FAULTS; lia) ].

Lemma setFault_state w v s :
  w < NUM_SERIOUS_FAULTS →
  faults_ (state_of (setFault w v s)) = <[w := v]> (faults_ s)
  ∧ overrides_ (state_of (setFault w v s)) = overrides_ s
  ∧ enabled (state_of (setFault w v s)) = enabled s && negb v.
Proof.
  intros Hw. pose proof Hw as Hw'. apply Nat.ltb_lt in Hw'.
  eassert (Hr : setFault w v s = _) by (unfold setFault; exec idtac).
  rewrite Hr, Hw'. clear Hr. cbn [state_of fst snd]. rewrite !if_same. cbn iota.
  rewrite enabled_shadow.
  destruct v, (enabled s) eqn:En; cbn [andb negb with_faults with_enables faults_ overrides_];
    (split; [|split]); try done.
  apply (enabled_cut s).
Qed.

(** X4. After the watchdog has run, the watchdog fault holds the reported
    fault and the braking bit the reported braking flag; the warning bit is
    set when a fault is reported from a source other than 0, kept while a
    fault stays reported, and cleared when none is; no other fault and no
    override is written. *)
Theorem watchdog_latches (f : bool) (src : Z) (b : bool) (s : State) :
  wf s →
  rd (faults_ (state_of (faultWatchdog3 f src b s))) FAULT_WATCH = f
  ∧ rd (faults_ (state_of (faultWatchdog3 f src b s))) FAULT_WATCH_BRAKES = b
  ∧ rd (faults_ (state_of (faultWatchdog3 f src b s))) FAULT_WATCH_WARN
    = f && (negb (src =? 0)%Z || rd (faults_ s) FAULT_WATCH_WARN)
  ∧ (∀ i, i ≠ FAULT_WATCH → i ≠ FAULT_WATCH_BRAKES → i ≠ FAULT_WATCH_WARN →
       rd (faults_ (state_of (faultWatchdog3 f src b s))) i = rd (faults_ s) i)
  ∧ overrides_ (state_of (faultWatchdog3 f src b s)) = overrides_ s.
Proof.
  intros Hwf. pose proof (wf_faults _ Hwf) as Hlen.
  eassert (Hr : faultWatchdog3 f src b s = _) by (unfold faultWatchdog3; exec idtac).
  rewrite Hr. clear Hr. cbn [state_of fst snd]. rewrite !if_same.
  destruct (setFault_state FAULT_WATCH f s) as (Hf & Ho & He);
    [unfold FAULT_WATCH, NUM_SERIOUS_FAULTS; lia|].
  revert Hf Ho He. generalize (state_of (setFault FAULT_WATCH f s)). intros s1 Hf Ho He.
  assert (Hw : rd (faults_ s1) FAULT_WATCH_WARN = rd (faults_ s) FAULT_WATCH_WARN)
    by (by rewrite Hf, rd_insert_ne).
  rewrite Hw.
  destruct f, (src =? 0)%Z, (rd (faults_ s) FAULT_WATCH_WARN) eqn:E;
    cbn [negb andb orb faults_ with_faults overrides_ enables_ enabled];
    rewrite ?Hf, ?Ho; fold (enabled s1); rewrite ?He;
    (refine (conj _ (conj _ (conj _ (conj _ _)))); [..| intros i H1 H2 H3 |done]);
    rd_insert Hlen; try done.
Qed.

(** ** The braking bit *)

Lemma keeps_braking_ret {A} (a : A) : keeps_braking (ret a).
Proof. by intros s. Qed.
Lemma keeps_braking_get {A} (f : State → A) : keeps_braking (get f).
Proof. by intros s. Qed.
Lemma keeps_braking_emit o : braking_line o = false → keeps_braking (emit o).
Proof. intros Ho s. split; [done|]. cbn. by rewrite Ho. Qed.
Lemma keeps_braking_modify f :
  (∀ s, rd (faults_ (f s)) FAULT_WATCH_BRAKES = rd (faults_ s) FAULT_WATCH_BRAKES) →
  keeps_braking (modify f).
Proof. intros Hf s. split; [apply Hf | done]. Qed.
Lemma keeps_braking_bind {A B} (c : M A) (k : A → M B) :
  keeps_braking c → (∀ a, keeps_braking (k a)) → keeps_braking (bind c k).
Proof.
  intros Hc Hk s. rewrite state_of_bind, outputs_of_bind, existsb_app.
  destruct (Hc s) as [Hc1 Hc2]. destruct (Hk (value_of (c s)) (state_of (c s))) as [Hk1 Hk2].
  split; [congruence | by rewrite Hc2, Hk2].
Qed.
Lemma keeps_braking_when b (c : M unit) : keeps_braking c → keeps_braking (when b c).
Proof. destruct b; [done | intros _; apply keeps_braking_ret]. Qed.
Lemma keeps_braking_if {A} (b : bool) (c1 c2 : M A) :
  keeps_braking c1 → keeps_braking c2 → keeps_braking (if b then c1 else c2).
Proof. by destruct b. Qed.

Create HintDb braking discriminated.
Hint Resolve keeps_braking_ret keeps_braking_get keeps_braking_when keeps_braking_if : braking.
Hint Extern 1 (keeps_braking (emit _)) => apply keeps_braking_emit; reflexivity : braking.
Hint Extern 1 (keeps_braking (modify _)) =>
  apply keeps_braking_modify; intros ?;
  first [reflexivity | apply rd_insert_ne; unfold FAULT_WATCH_BRAKES, NUM_SERIOUS_FAULTS in *; lia]
  : braking.
Hint Extern 2 (keeps_braking (bind _ _)) => apply keeps_braking_bind; [| intros ?] : braking.

Lemma keeps_braking_send name l : keeps_braking (send name l).
Proof. unfold send. auto 10 with braking. Qed.
Lemma keeps_braking_publish topic msg fields : keeps_braking (publish topic msg fields).
Proof. unfold publish. auto with braking. Qed.
Lemma keeps_braking_wheels st a b c d : keeps_braking (publishJointStates_wheels st a b c d).
Proof. unfold publishJointStates_wheels. auto 10 with braking. Qed.
Lemma keeps_braking_steering st a : keeps_braking (publishJointStates_steering st a).
Proof. unfold publishJointStates_steering. auto 10 with braking. Qed.
Lemma keeps_braking_push_digits msg sgs : keeps_braking (push_digits msg sgs).
Proof. unfold push_digits. auto with braking. Qed.
Lemma keeps_braking_publishDbwEnabled : keeps_braking publishDbwEnabled.
Proof. unfold publishDbwEnabled. auto 10 with braking. Qed.
Hint Resolve keeps_braking_send keeps_braking_publish keeps_braking_wheels
  keeps_braking_steering keeps_braking_push_digits keeps_braking_publishDbwEnabled : braking.

Lemma keeps_braking_log_faults idx : keeps_braking (for_each idx log_asserted_fault).
Proof.
  induction idx as [|i idx IH]; cbn [for_each]; [apply keeps_braking_ret|].
  unfold log_asserted_fault. auto 10 with braking.
Qed.
Hint Resolve keeps_braking_log_faults : braking.

Lemma keeps_braking_setFault w v : keeps_braking (setFault w v).
Proof.
  unfold setFault. destruct (Nat.ltb_spec w NUM_SERIOUS_FAULTS); [|apply keeps_braking_ret].
  cbn [when]. auto 20 with braking.
Qed.
Lemma keeps_braking_setOverride w v : keeps_braking (setOverride w v).
Proof. unfold setOverride. auto 20 with braking. Qed.
Lemma keeps_braking_enableSystem : keeps_braking enableSystem.
Proof. unfold enableSystem. auto 20 with braking. Qed.
Lemma keeps_braking_disableSystem : keeps_braking disableSystem.
Proof. unfold disableSystem. auto 20 with braking. Qed.
Hint Resolve keeps_braking_setFault keeps_braking_setOverride keeps_braking_enableSystem
  keeps_braking_disableSystem : braking.

Lemma rd_insert_rd (a : list bool) i v : rd a i = v → rd (<[i := v]> a) i = v.
Proof.
  intros Ha. destruct (decide (i < length a)) as [Hi|Hi].
  - by apply rd_insert_eq.
  - rewrite list_insert_ge; [done | lia].
Qed.

Lemma keeps_braking_faultWatchdog f src : keeps_braking (faultWatchdog f src).
Proof.
  intros s.
  eassert (Hr : faultWatchdog f src s = _)
    by (unfold faultWatchdog, faultWatchdog3; exec idtac).
  rewrite Hr. clear Hr. cbn [state_of outputs_of fst snd]. rewrite !if_same.
  destruct (keeps_braking_setFault FAULT_WATCH f s) as [H1 H2].
  revert H1 H2.
  generalize (state_of (setFault FAULT_WATCH f s)) (outputs_of (setFault FAULT_WATCH f s)).
  intros s1 o1 H1 H2. cbn [app]. rewrite !existsb_app, H2, H1. cbn [orb]. split.
  - cbn [faults_ with_faults]. apply rd_insert_rd. rewrite <- H1.
    case_ifs; cbn [faults_ with_faults]; by rewrite ?rd_insert_ne.
  - destruct (rd (faults_ s) FAULT_WATCH_BRAKES); cbn [andb negb existsb orb];
      repeat match goal with
             | |- context [existsb _ (if ?c then _ else _)] => destruct c
             end; reflexivity.
Qed.
Hint Resolve keeps_braking_faultWatchdog : braking.

Lemma keeps_braking_decoder r msg : keeps_braking (decoder r msg).
Proof. destruct r; cbn [decoder]; unfold_decoders; auto 20 with braking. Qed.
Lemma keeps_braking_timerCallback : keeps_braking timerCallback.
Proof. unfold timerCallback. auto 40 with braking. Qed.
Lemma keeps_braking_encoders :
  (∀ m, keeps_braking (recvBrakeCmd m)) ∧ (∀ m, keeps_braking (recvAcceleratorPedalCmd m))
  ∧ (∀ m, keeps_braking (recvSteeringCmd m)) ∧ (∀ m, keeps_braking (recvGearCmd m))
  ∧ (∀ m, keeps_braking (recvGlobalEnableCmd m)) ∧ (∀ m, keeps_braking (recvMiscCmd m))
  ∧ (∀ m, keeps_braking (recvActionCmd m)) ∧ (∀ m, keeps_braking (recvArticulationCmd m))
  ∧ (∀ m, keeps_braking (recvDumpBedCmd m)) ∧ (∀ m, keeps_braking (recvEngineCmd m)).
Proof. repeat split; intros m; unfold_encoders; auto 10 with braking. Qed.

Lemma keeps_braking_handle c : is_faultWatchdog3 c = false → keeps_braking (handle c).
Proof.
  intros Hc. pose proof keeps_braking_encoders as (?&?&?&?&?&?&?&?&?&?).
  pose proof keeps_braking_decoder. pose proof keeps_braking_timerCallback.
  destruct c; try discriminate Hc; cbn [handle]; unfold recvCAN; try (destruct (id msg));
    auto 10 with braking.
Qed.

(** X5. No subscription callback, timer tick or decoded frame writes the
    braking bit of the watchdog: every call other than the three-argument
    watchdog itself leaves [faults_[FAULT_WATCH_BRAKES]] at its value, and
    neither of the two braking lines of the watchdog is ever logged. *)
Theorem braking_bit_is_never_written (cs : list Call) (s : State) :
  forallb (λ c, negb (is_faultWatchdog3 c)) cs = true →
  rd (faults_ (state_of (run cs s))) FAULT_WATCH_BRAKES = rd (faults_ s) FAULT_WATCH_BRAKES
  ∧ existsb braking_line (outputs_of (run cs s)) = false.
Proof.
  revert s. induction cs as [|c cs IH]; intros s Hcs; [done|].
  cbn [forallb] in Hcs. apply andb_true_iff in Hcs as [Hc Hcs].
  apply negb_true_iff in Hc.
  destruct (keeps_braking_handle c Hc s) as [H1 H2].
  destruct (IH (state_of (handle c s)) Hcs) as [H3 H4].
  cbn [run]. rewrite state_of_bind, outputs_of_bind, existsb_app, H2, H4, H3, H1. done.
Qed.

(** ** Command encoders *)

Lemma encoder_run c s name :
  message_of c = Some name →
  handle c s =
  (tt, with_dbc (λ d, <[name := SetResults (signals_of c s) (GetMessage name d)]> d) s,
   [pub_can name (SetResults (signals_of c s) (GetMessage name (dbwDbc_ s)))]).
Proof.
  intros Hc.
  destruct c; try discriminate Hc; injection Hc as <-; cbn [handle signals_of];
    match goal with
    | |- ?l = _ => let Hr := fresh in
        eassert (Hr : l = _) by (unfold_encoders; exec idtac); rewrite Hr; reflexivity
    end.
Qed.

Lemma signals_of_with_dbc c f s : signals_of c (with_dbc f s) = signals_of c s.
Proof. by destruct c. Qed.

Lemma assigned_cases sg l :
  (∀ d, assigned sg l d = d) ∨ (∃ v, ∀ d, assigned sg l d = Some v).
Proof.
  induction l as [|a l IH]; [by left|]. cbn [assigned].
  destruct (String.eqb a.1 sg); [|done].
  destruct IH as [IH|[v IH]]; right; [exists a.2 | exists v]; intros d; by rewrite IH.
Qed.

Lemma GetMessage_insert_eq n m d : GetMessage n (<[n := m]> d) = m.
Proof. unfold GetMessage. by rewrite lookup_insert_eq. Qed.
Lemma GetMessage_insert_ne n n' m d : n ≠ n' → GetMessage n' (<[n := m]> d) = GetMessage n' d.
Proof. intros Hn. unfold GetMessage. by rewrite lookup_insert_ne. Qed.

Lemma SetResults_idem l m : SetResults l (SetResults l m) = SetResults l m.
Proof.
  apply map_eq. intros sg. rewrite !SetResults_lookup.
  destruct (assigned_cases sg l) as [H|[v H]]; by rewrite !H.
Qed.

(** X6. A command sent twice in a row yields the same frame both times:
    what the encoder leaves in the stored message is a fixed point of its
    own [SetResult] calls. *)
Theorem repeated_command_repeats_frame (c : Call) (s : State) (name : string) :
  message_of c = Some name →
  outputs_of (handle c (state_of (handle c s))) = outputs_of (handle c s).
Proof.
  intros Hc. rewrite !(encoder_run _ _ _ Hc). cbn [state_of outputs_of fst snd].
  rewrite signals_of_with_dbc. cbn [with_dbc dbwDbc_].
  by rewrite GetMessage_insert_eq, SetResults_idem.
Qed.

(** X7. Commands for different subsystems do not interfere: the frame a
    command yields is the same whether or not a command addressing another
    message was encoded just before it. *)
Theorem commands_do_not_interfere (c1 c2 : Call) (s : State) (n1 n2 : string) :
  message_of c1 = Some n1 → message_of c2 = Some n2 → n1 ≠ n2 →
  outputs_of (handle c2 (state_of (handle c1 s))) = outputs_of (handle c2 s).
Proof.
  intros H1 H2 Hne. rewrite (encoder_run _ _ _ H1), !(encoder_run _ _ _ H2).
  cbn [state_of outputs_of fst snd]. rewrite signals_of_with_dbc. cbn [with_dbc dbwDbc_].
  by rewrite GetMessage_insert_ne.
Qed.

Ltac frame_tac :=
  unfold frame_signal; rewrite ?SetResults_lookup;
  cbv [assigned zero map app fst snd String.eqb Ascii.eqb Bool.eqb
       brake_zero accel_zero steering_zero gear_zero global_enable_zero misc_zero
       action_zero articulation_zero dump_bed_zero engine_zero
       brake_signals accel_signals steering_signals gear_signals global_enable_signals
       misc_signals action_signals articulation_signals dump_bed_signals engine_signals
       of_bool andb orb];
  repeat match goal with
         | |- context [if ?b then _ else _] => destruct b
         end; try reflexivity.

Ltac encoder_frame :=
  match goal with
  | |- context [outputs_of (?e ?msg ?s)] =>
      let Hr := fresh in
      eassert (Hr : e msg s = _) by (unfold_encoders; exec idtac);
      rewrite Hr; clear Hr; cbn [outputs_of snd app]
  end.

(** X8. In every state, enabled or not, each of the ten encoders copies
    the command's rolling counter into the frame unchanged. *)
Theorem rolling_counter_is_echoed (s : State) :
  (∀ msg, frame_signal "AKit_BrakeRollingCntr" (outputs_of (recvBrakeCmd msg s))
          = Some (BrakeCmd.rolling_counter msg))
  ∧ (∀ msg, frame_signal "AKit_AccelPdlRollingCntr"
              (outputs_of (recvAcceleratorPedalCmd msg s))
            = Some (AcceleratorPedalCmd.rolling_counter msg))
  ∧ (∀ msg, frame_signal "AKit_SteerRollingCntr" (outputs_of (recvSteeringCmd msg s))
            = Some (SteeringCmd.rolling_counter msg))
  ∧ (∀ msg, frame_signal "AKit_PrndRollingCntr" (outputs_of (recvGearCmd msg s))
            = Some (GearCmd.rolling_counter msg))
  ∧ (∀ msg, frame_signal "AKit_GlobalEnblRollingCntr"
              (outputs_of (recvGlobalEnableCmd msg s))
            = Some (GlobalEnableCmd.rolling_counter msg))
  ∧ (∀ msg, frame_signal "AKit_OtherRollingCntr" (outputs_of (recvMiscCmd msg s))
            = Some (MiscCmd.rolling_counter msg))
  ∧ (∀ msg, frame_signal "AKit_ActionRollingCntr" (outputs_of (recvActionCmd msg s))
            = Some (ActionCmd.rolling_counter msg))
  ∧ (∀ msg, frame_signal "AKit_ArticulationRollingCntr"
              (outputs_of (recvArticulationCmd msg s))
            = Some (ArticulationCmd.rolling_counter msg))
  ∧ (∀ msg, frame_signal "AKit_DumpBedRollingCntr" (outputs_of (recvDumpBedCmd msg s))
            = Some (DumpBedCmd.rolling_counter msg))
  ∧ (∀ msg, frame_signal "AKit_EngineRollingCntr" (outputs_of (recvEngineCmd msg s))
            = Some (EngineCmd.rolling_counter msg)).
Proof.
  repeat split; intros msg; encoder_frame; frame_tac.
Qed.

(** ** Angle clamps *)

Lemma Qltb_lt a b : Qltb a b = true ↔ (a < b)%Q.
Proof.
  unfold Qltb. rewrite negb_true_iff. split.
  - intros H. apply Qnot_le_lt. intros Hle. apply Qle_bool_iff in Hle. congruence.
  - intros H. destruct (Qle_bool b a) eqn:E; [|done].
    apply Qle_bool_iff in E. exfalso. by apply (Qlt_not_le _ _ H).
Qed.

Lemma Qltb_ge a b : Qltb a b = false ↔ (b <= a)%Q.
Proof.
  unfold Qltb. rewrite negb_false_iff. apply Qle_bool_iff.
Qed.

Lemma std_clamp_bounds lo hi x :
  (lo <= hi)%Q → (lo <= std_max lo (std_min hi x))%Q ∧ (std_max lo (std_min hi x) <= hi)%Q.
Proof.
  intros Hlh. unfold std_max, std_min.
  destruct (Qltb x hi) eqn:E1.
  - apply Qltb_lt in E1. destruct (Qltb lo x) eqn:E2.
    + apply Qltb_lt in E2. split; by apply Qlt_le_weak.
    + split; [apply Qle_refl | done].
  - destruct (Qltb lo hi) eqn:E2; [|split; [apply Qle_refl | done]].
    split; [done | apply Qle_refl].
Qed.

Lemma std_clamp_inside lo hi x :
  (lo <= x)%Q → (x <= hi)%Q → (std_max lo (std_min hi x) == x)%Q.
Proof.
  intros H1 H2. unfold std_max, std_min.
  destruct (Qltb x hi) eqn:E1.
  - destruct (Qltb lo x) eqn:E2; [reflexivity|].
    apply Qltb_ge in E2. by apply Qle_antisym.
  - apply Qltb_ge in E1. assert (Hx : (x == hi)%Q) by (by apply Qle_antisym).
    destruct (Qltb lo hi) eqn:E2; [by symmetry|].
    apply Qltb_ge in E2. rewrite Hx. apply Qle_antisym; [|done]. by rewrite <- Hx.
Qed.

Lemma scmd_bounds m a : (0 <= m)%Q → (- m <= scmd m a)%Q ∧ (scmd m a <= m)%Q.
Proof.
  intros Hm. unfold scmd.
  destruct (std_clamp_bounds (-1 * m) (m * 1) (a * 1)) as [H1 H2].
  - rewrite Qmult_1_r. setoid_replace (-1 * m)%Q with (- m)%Q using relation Qeq by ring.
    apply Qle_trans with 0%Q; [|done]. by apply (Qopp_le_compat 0 m).
  - revert H1 H2. generalize (std_max (-1 * m) (std_min (m * 1) (a * 1))). intros x H1 H2.
    split.
    + setoid_replace (- m)%Q with (-1 * m)%Q using relation Qeq by ring. exact H1.
    + setoid_replace m with (m * 1)%Q using relation Qeq by ring. exact H2.
Qed.

Lemma scmd_inside m a : (- m <= a)%Q → (a <= m)%Q → (scmd m a == a)%Q.
Proof.
  intros H1 H2. unfold scmd. rewrite std_clamp_inside.
  - ring.
  - rewrite Qmult_1_r. by setoid_replace (-1 * m)%Q with (- m)%Q using relation Qeq by ring.
  - by rewrite !Qmult_1_r.
Qed.

Lemma dump_angle_checked_bounds m a :
  (0 <= m)%Q → (0 <= dump_angle_checked m a)%Q ∧ (dump_angle_checked m a <= m)%Q.
Proof.
  intros Hm. unfold dump_angle_checked.
  destruct (std_clamp_bounds 0 (m * 1) (a * 1)) as [H1 H2].
  - by rewrite Qmult_1_r.
  - revert H1 H2. generalize (std_max 0 (std_min (m * 1) (a * 1))). intros x H1 H2.
    split; [done|]. setoid_replace m with (m * 1)%Q using relation Qeq by ring. exact H2.
Qed.

Lemma dump_angle_checked_inside m a :
  (0 <= a)%Q → (a <= m)%Q → (dump_angle_checked m a == a)%Q.
Proof.
  intros H1 H2. unfold dump_angle_checked. rewrite std_clamp_inside.
  - ring.
  - by rewrite Qmult_1_r.
  - by rewrite !Qmult_1_r.
Qed.

Lemma zero_in_range m : (0 <= m)%Q → (- m <= 0)%Q ∧ (0 <= m)%Q.
Proof. intros Hm. split; [by apply (Qopp_le_compat 0 m) | done]. Qed.

Ltac in_range :=
  eexists; split; [reflexivity|]; first [assumption | by apply zero_in_range | done].

(** X9. Whatever the command and whatever the state, the angle request a
    frame carries stays inside the configured range: within plus or minus
    the maximum steering angle for steering, plus or minus the maximum
    articulation angle for articulation, and between 0 and the maximum dump
    angle for the dump bed, the maxima being non-negative. *)
Theorem angle_requests_stay_in_range (s : State) :
  (0 <= max_steer_angle_ (config_ s))%Q →
  (0 <= max_articulation_angle_ (config_ s))%Q →
  (0 <= max_dump_angle_ (config_ s))%Q →
  (∀ msg, ∃ v,
     frame_signal "AKit_SteeringWhlAngleReq" (outputs_of (recvSteeringCmd msg s)) = Some v
     ∧ (- max_steer_angle_ (config_ s) <= v)%Q ∧ (v <= max_steer_angle_ (config_ s))%Q)
  ∧ (∀ msg, ∃ v,
     frame_signal "AKit_ArticulationAngleReq" (outputs_of (recvArticulationCmd msg s))
       = Some v
     ∧ (- max_articulation_angle_ (config_ s) <= v)%Q
     ∧ (v <= max_articulation_angle_ (config_ s))%Q)
  ∧ (∀ msg, ∃ v,
     frame_signal "AKit_DumpBedAnglReq" (outputs_of (recvDumpBedCmd msg s)) = Some v
     ∧ (0 <= v)%Q ∧ (v <= max_dump_angle_ (config_ s))%Q).
Proof.
  intros Hs Ha Hd. split; [|split]; intros msg; encoder_frame;
    unfold frame_signal; rewrite SetResults_lookup.
  - unfold steering_signals.
    pose proof (scmd_bounds _ (SteeringCmd.angle_cmd msg) Hs) as Hb. revert Hb.
    generalize (scmd (max_steer_angle_ (config_ s)) (SteeringCmd.angle_cmd msg)).
    intros x Hx. frame_tac; in_range.
  - unfold articulation_signals.
    pose proof (scmd_bounds _ (ArticulationCmd.angle_cmd msg) Ha) as Hb. revert Hb.
    generalize (scmd (max_articulation_angle_ (config_ s)) (ArticulationCmd.angle_cmd msg)).
    intros x Hx. frame_tac; in_range.
  - unfold dump_bed_signals.
    pose proof (dump_angle_checked_bounds _ (DumpBedCmd.angle_cmd msg) Hd) as Hb. revert Hb.
    generalize (dump_angle_checked (max_dump_angle_ (config_ s)) (DumpBedCmd.angle_cmd msg)).
    intros x Hx. frame_tac; in_range.
Qed.

(** X10. An angle inside the range is sent as it is: with the system
    enabled and the command in its angle mode (and, for articulation and
    the dump bed, enabled itself), the frame carries a value equal to the
    commanded angle. *)
Theorem angle_inside_range_is_sent_as_is (s : State) :
  enabled s = true →
  (∀ msg, Qeq_bool (SteeringCmd.control_type msg) OPEN_LOOP = false →
     Qeq_bool (SteeringCmd.control_type msg) CLOSED_LOOP_ACTUATOR = true →
     (- max_steer_angle_ (config_ s) <= SteeringCmd.angle_cmd msg)%Q →
     (SteeringCmd.angle_cmd msg <= max_steer_angle_ (config_ s))%Q →
     ∃ v, frame_signal "AKit_SteeringWhlAngleReq" (outputs_of (recvSteeringCmd msg s))
            = Some v ∧ (v == SteeringCmd.angle_cmd msg)%Q)
  ∧ (∀ msg, ArticulationCmd.enable msg = true →
     Qeq_bool (ArticulationCmd.control_type msg) ARTIC_ANGLE = true →
     (- max_articulation_angle_ (config_ s) <= ArticulationCmd.angle_cmd msg)%Q →
     (ArticulationCmd.angle_cmd msg <= max_articulation_angle_ (config_ s))%Q →
     ∃ v, frame_signal "AKit_ArticulationAngleReq" (outputs_of (recvArticulationCmd msg s))
            = Some v ∧ (v == ArticulationCmd.angle_cmd msg)%Q)
  ∧ (∀ msg, DumpBedCmd.enable msg = true →
     Qeq_bool (DumpBedCmd.control_type msg) DUMP_MODE = false →
     Qeq_bool (DumpBedCmd.control_type msg) DUMP_ANGLE = true →
     (0 <= DumpBedCmd.angle_cmd msg)%Q →
     (DumpBedCmd.angle_cmd msg <= max_dump_angle_ (config_ s))%Q →
     ∃ v, frame_signal "AKit_DumpBedAnglReq" (outputs_of (recvDumpBedCmd msg s))
            = Some v ∧ (v == DumpBedCmd.angle_cmd msg)%Q).
Proof.
  intros Hen. split; [|split]; intros msg.
  - intros H1 H2 Hlo Hhi. encoder_frame. rewrite Hen.
    unfold frame_signal. rewrite SetResults_lookup. unfold steering_signals.
    pose proof (scmd_inside _ _ Hlo Hhi) as Hb. revert Hb.
    generalize (scmd (max_steer_angle_ (config_ s)) (SteeringCmd.angle_cmd msg)).
    intros x Hx. rewrite H1, H2. frame_tac; in_range.
  - intros H1 H2 Hlo Hhi. encoder_frame. rewrite Hen.
    unfold frame_signal. rewrite SetResults_lookup. unfold articulation_signals.
    pose proof (scmd_inside _ _ Hlo Hhi) as Hb. revert Hb.
    generalize (scmd (max_articulation_angle_ (config_ s)) (ArticulationCmd.angle_cmd msg)).
    intros x Hx. rewrite H1, H2. frame_tac; in_range.
  - intros H0 H1 H2 Hlo Hhi. encoder_frame. rewrite Hen.
    unfold frame_signal. rewrite SetResults_lookup. unfold dump_bed_signals.
    pose proof (dump_angle_checked_inside _ _ Hlo Hhi) as Hb. revert Hb.
    generalize (dump_angle_checked (max_dump_angle_ (config_ s)) (DumpBedCmd.angle_cmd msg)).
    intros x Hx. rewrite H0, H1, H2. frame_tac; in_range.
Qed.

(** ** The timer *)

Lemma overrides_if_dbc (b : bool) f s :
  overrides_ (if b then with_dbc f s else s) = overrides_ s.
Proof. by destruct b. Qed.

Ltac timer_frame name :=
  eexists; split;
  [ repeat first
      [ by constructor
      | apply elem_of_app; left; by constructor
      | apply elem_of_app; right ]
  | intros sg Hsg; rewrite SetResults_lookup; by apply assigned_zero ].

(** X11. On a tick taken while the system is not enabled, a flagged
    dump-bed override makes the timer send a dump-bed frame in which every
    signal the dump-bed encoder initialises is 0, and a flagged engine
    override an engine frame in which every signal the engine encoder
    initialises is 0: for these two subsystems the timer frame is the
    neutral one. *)
Theorem timer_neutralises_dump_bed_and_engine (s : State) :
  clear s = true →
  (rd (overrides_ s) OVR_DUMP_BED = true →
   ∃ m, pub_can "AKit_DumpBedRequest" m ∈ outputs_of (timerCallback s)
        ∧ ∀ sg, sg ∈ dump_bed_zero → m !! sg = Some 0%Q)
  ∧ (rd (overrides_ s) OVR_ENGINE = true →
     ∃ m, pub_can "AKit_EngineRequest" m ∈ outputs_of (timerCallback s)
          ∧ ∀ sg, sg ∈ engine_zero → m !! sg = Some 0%Q).
Proof.
  intros Hc. split; intros Hd;
    (eassert (Hr : timerCallback s = _)
       by (unfold timerCallback;
           exec ltac:(cbn [overrides_ with_dbc]; rewrite ?overrides_if_dbc, ?Hc, ?Hd));
     rewrite Hr; clear Hr; cbn [outputs_of snd app]).
  - timer_frame "AKit_DumpBedRequest".
  - timer_frame "AKit_EngineRequest".
Qed.

(** ** What a report does to the enable flag *)



Lemma setOverride_state w v s :
  w < NUM_OVERRIDES →
  faults_ (state_of (setOverride w v s)) = faults_ s
  ∧ overrides_ (state_of (setOverride w v s)) = <[w := v]> (overrides_ s)
  ∧ enabled (state_of (setOverride w v s)) = enabled s && negb v.
Proof.
  intros Hw. pose proof Hw as Hw'. apply Nat.ltb_lt in Hw'.
  eassert (Hr : setOverride w v s = _) by (unfold setOverride; exec idtac).
  rewrite Hr, Hw'. clear Hr. cbn [state_of fst snd]. rewrite !if_same. cbn iota.
  rewrite enabled_shadow.
  destruct v, (enabled s) eqn:En;
    cbn [andb negb with_overrides with_enables faults_ overrides_];
    (split; [|split]); try done.
  apply (enabled_cut s).
Qed.







(** ** What a report writes *)

Lemma faults_untouched {A} (c : M A) s : untouched c → faults_ (state_of (c s)) = faults_ s.
Proof. intros Hc. destruct (Hc s) as [Ha _]. by injection Ha. Qed.
Lemma overrides_untouched {A} (c : M A) s :
  untouched c → overrides_ (state_of (c s)) = overrides_ s.
Proof. intros Hc. destruct (Hc s) as [Ha _]. by injection Ha. Qed.

Lemma overrides_setFault w v s : overrides_ (state_of (setFault w v s)) = overrides_ s.
Proof.
  eassert (Hr : setFault w v s = _) by (unfold setFault; exec idtac).
  rewrite Hr. cbn [state_of fst snd]. by case_ifs.
Qed.

Lemma overrides_setOverride w v s :
  w < NUM_OVERRIDES → overrides_ (state_of (setOverride w v s)) = <[w := v]> (overrides_ s).
Proof. intros Hw. by destruct (setOverride_state w v s Hw) as (_ & -> & _). Qed.

Lemma overrides_faultWatchdog f src s :
  overrides_ (state_of (faultWatchdog f src s)) = overrides_ s.
Proof.
  eassert (Hr : faultWatchdog f src s = _)
    by (unfold faultWatchdog, faultWatchdog3; exec idtac).
  rewrite Hr. clear Hr. cbn [state_of fst snd]. rewrite !if_same.
  rewrite <- (overrides_setFault FAULT_WATCH f s). by case_ifs.
Qed.

Lemma rd_faultWatchdog f src s i :
  length (faults_ s) = NUM_FAULTS → i < NUM_SERIOUS_FAULTS →
  rd (faults_ (state_of (faultWatchdog f src s))) i = rd (<[FAULT_WATCH := f]> (faults_ s)) i.
Proof.
  intros Hlen Hi. rewrite faults_faultWatchdog by done.
  destruct (Nat.eqb_spec i FAULT_WATCH) as [->|Hne].
  - rewrite rd_insert_eq; [done|]. rewrite Hlen. unfold FAULT_WATCH, NUM_FAULTS. lia.
  - by rewrite rd_insert_ne.
Qed.

Ltac faults_steps Hlen :=
  repeat first
    [ rewrite state_of_bind
    | rewrite faults_untouched by auto 10 with untouched
    | rewrite faults_setOverride
    | rewrite rd_faultWatchdog by (rewrite ?length_faults_setFault; first [exact Hlen | assumption])
    | rewrite faults_setFault ].

Ltac overrides_steps :=
  repeat first
    [ rewrite state_of_bind
    | rewrite overrides_untouched by auto 10 with untouched
    | rewrite overrides_setOverride by (vm_compute; lia)
    | rewrite overrides_faultWatchdog
    | rewrite overrides_setFault ].

Lemma watch_bits_faultWatchdog f src s :
  length (faults_ s) = NUM_FAULTS →
  rd (faults_ (state_of (faultWatchdog f src s))) FAULT_WATCH_WARN
  = f && (negb (src =? 0)%Z || rd (faults_ s) FAULT_WATCH_WARN)
  ∧ rd (faults_ (state_of (faultWatchdog f src s))) FAULT_WATCH_BRAKES
    = rd (faults_ s) FAULT_WATCH_BRAKES.
Proof.
  intros Hlen.
  eassert (Hr : faultWatchdog f src s = _)
    by (unfold faultWatchdog, faultWatchdog3; exec idtac).
  rewrite Hr. clear Hr. cbn [state_of fst snd]. rewrite !if_same.
  destruct (setFault_state FAULT_WATCH f s) as (Hf & _ & _);
    [unfold FAULT_WATCH, NUM_SERIOUS_FAULTS; lia|].
  revert Hf. generalize (state_of (setFault FAULT_WATCH f s)). intros s1 Hf.
  assert (Hw : rd (faults_ s1) FAULT_WATCH_WARN = rd (faults_ s) FAULT_WATCH_WARN)
    by (by rewrite Hf, rd_insert_ne).
  rewrite Hw.
  destruct f, (src =? 0)%Z, (rd (faults_ s) FAULT_WATCH_WARN) eqn:E;
    cbn [negb andb orb faults_ with_faults]; rewrite ?Hf; split;
    try (apply rd_insert_rd); rd_insert Hlen; try done.
Qed.

Lemma warn_faultWatchdog f src s :
  length (faults_ s) = NUM_FAULTS →
  rd (faults_ (state_of (faultWatchdog f src s))) FAULT_WATCH_WARN
  = f && (negb (src =? 0)%Z || rd (faults_ s) FAULT_WATCH_WARN).
Proof. intros Hlen. apply (watch_bits_faultWatchdog f src s Hlen). Qed.

Lemma brakes_faultWatchdog f src s :
  length (faults_ s) = NUM_FAULTS →
  rd (faults_ (state_of (faultWatchdog f src s))) FAULT_WATCH_BRAKES
  = rd (faults_ s) FAULT_WATCH_BRAKES.
Proof. intros Hlen. apply (watch_bits_faultWatchdog f src s Hlen). Qed.

Ltac watch_bits_steps Hlen :=
  repeat first
    [ rewrite state_of_bind
    | rewrite faults_untouched by auto 10 with untouched
    | rewrite faults_setOverride
    | rewrite warn_faultWatchdog by (rewrite ?length_faults_setFault; exact Hlen)
    | rewrite brakes_faultWatchdog by (rewrite ?length_faults_setFault; exact Hlen)
    | rewrite faults_setFault ].

(** X13. What an accepted report writes in the fault and override arrays,
    each cell with the value the frame carries: the serious fault of its
    own subsystem; for the brake, the accelerator-pedal and the steering
    report also the watchdog fault, a cell these three reports share, and
    the warning bit as the watchdog computes it from the fault and the
    source it is passed; and the override of its own subsystem. No other
    serious fault, no other override and not the braking bit changes. *)
Theorem cells_written_by_a_report (r : ReportId) (msg : Frame) (s : State) :
  wf s → required_dlc r ≤ dlc msg →
  (∀ i, i < NUM_SERIOUS_FAULTS →
     rd (faults_ (state_of (decoder r msg s))) i
     = rd (written (fault_writes r msg) (faults_ s)) i)
  ∧ rd (faults_ (state_of (decoder r msg s))) FAULT_WATCH_WARN
    = warning_after r msg (rd (faults_ s) FAULT_WATCH_WARN)
  ∧ rd (faults_ (state_of (decoder r msg s))) FAULT_WATCH_BRAKES
    = rd (faults_ s) FAULT_WATCH_BRAKES
  ∧ overrides_ (state_of (decoder r msg s)) = written (override_writes r msg) (overrides_ s).
Proof.
  intros Hwf Hlen. apply Nat.leb_le in Hlen. pose proof (wf_faults _ Hwf) as Hf.
  split; [intros i Hi|split; [|split]].
  - destruct r; cbn [decoder fault_writes required_dlc written foldl fst snd] in *;
      unfold_decoders; rewrite Hlen; cbn [when]; faults_steps Hf; reflexivity.
  - destruct r; cbn [decoder required_dlc] in *; unfold warning_after;
      cbn [watchdog_call]; unfold_decoders; rewrite Hlen; cbn [when];
      watch_bits_steps Hf;
      cbn [Nat.ltb Nat.leb FAULT_ACCEL FAULT_BRAKE FAULT_STEER FAULT_ACTION FAULT_ARTIC
           FAULT_DUMP_BED FAULT_ENGINE NUM_SERIOUS_FAULTS];
      rewrite ?rd_insert_ne by done; reflexivity.
  - destruct r; cbn [decoder required_dlc] in *; unfold_decoders; rewrite Hlen; cbn [when];
      watch_bits_steps Hf;
      cbn [Nat.ltb Nat.leb FAULT_ACCEL FAULT_BRAKE FAULT_STEER FAULT_ACTION FAULT_ARTIC
           FAULT_DUMP_BED FAULT_ENGINE NUM_SERIOUS_FAULTS];
      rewrite ?rd_insert_ne by done; reflexivity.
  - destruct r; cbn [decoder override_writes required_dlc written foldl fst snd] in *;
      unfold_decoders; rewrite Hlen; cbn [when]; overrides_steps; reflexivity.
Qed.

Lemma shadow_eq s : rd (enables_ s) EN_DBW_PREV = shadow s.
Proof. reflexivity. Qed.

(** ** [leaves] *)

Lemma leaves_ret {A B} (f : State → B) (a : A) : leaves f (ret a).
Proof. by intros s. Qed.
Lemma leaves_get {A B} (f : State → B) (g : State → A) : leaves f (get g).
Proof. by intros s. Qed.
Lemma leaves_emit {B} (f : State → B) o : leaves f (emit o).
Proof. by intros s. Qed.
Lemma leaves_modify {B} (f : State → B) g : (∀ s, f (g s) = f s) → leaves f (modify g).
Proof. intros Hg s. apply Hg. Qed.
Lemma leaves_bind {A A' B} (f : State → B) (c : M A) (k : A → M A') :
  leaves f c → (∀ a, leaves f (k a)) → leaves f (bind c k).
Proof. intros Hc Hk s. rewrite state_of_bind, Hk. apply Hc. Qed.
Lemma leaves_when {B} (f : State → B) b (c : M unit) : leaves f c → leaves f (when b c).
Proof. destruct b; [done | by intros _ s]. Qed.
Lemma leaves_if {A B} (f : State → B) (b : bool) (c1 c2 : M A) :
  leaves f c1 → leaves f c2 → leaves f (if b then c1 else c2).
Proof. by destruct b. Qed.

Create HintDb leaves discriminated.
Hint Resolve leaves_ret leaves_get leaves_emit leaves_when leaves_if : leaves.
Hint Extern 1 (leaves _ (modify _)) => apply leaves_modify; intros ?; reflexivity : leaves.
Hint Extern 2 (leaves _ (bind _ _)) => apply leaves_bind; [| intros ?] : leaves.

Lemma leaves_send {B} (f : State → B) name l :
  (∀ g s, f (with_dbc g s) = f s) → leaves f (send name l).
Proof.
  intros Hf. unfold send. apply leaves_bind; [|auto with leaves].
  apply leaves_modify. intros s. apply Hf.
Qed.
Lemma leaves_publish {B} (f : State → B) topic msg fields : leaves f (publish topic msg fields).
Proof. unfold publish. auto with leaves. Qed.
Lemma leaves_publishDbwEnabled {B} (f : State → B) :
  (∀ g s, f (with_enables g s) = f s) → leaves f publishDbwEnabled.
Proof.
  intros Hf. unfold publishDbwEnabled.
  do 3 (apply leaves_bind; [auto with leaves | intros ?]).
  apply leaves_bind; [|auto with leaves]. apply leaves_modify. intros s. apply Hf.
Qed.
Lemma leaves_log_faults {B} (f : State → B) idx : leaves f (for_each idx log_asserted_fault).
Proof.
  induction idx as [|i idx IH]; cbn [for_each]; [apply leaves_ret|].
  unfold log_asserted_fault. auto 10 with leaves.
Qed.
Hint Resolve leaves_publish leaves_log_faults : leaves.
Hint Extern 1 (leaves _ (send _ _)) => apply leaves_send; intros ? ?; reflexivity : leaves.
Hint Extern 1 (leaves _ publishDbwEnabled) =>
  apply leaves_publishDbwEnabled; intros ? ?; reflexivity : leaves.

Ltac leaves_arbiter :=
  unfold faultWatchdog, faultWatchdog3, setFault, setOverride, enableSystem, disableSystem;
  auto 40 with leaves.

Lemma leaves_vin_arbiter :
  (∀ w v, leaves vin_ (setFault w v)) ∧ (∀ w v, leaves vin_ (setOverride w v))
  ∧ (∀ f src, leaves vin_ (faultWatchdog f src)) ∧ (∀ f src b, leaves vin_ (faultWatchdog3 f src b))
  ∧ leaves vin_ enableSystem ∧ leaves vin_ disableSystem.
Proof. repeat split; intros; leaves_arbiter. Qed.

Lemma leaves_joints_arbiter :
  (∀ w v, leaves joint_state_ (setFault w v)) ∧ (∀ w v, leaves joint_state_ (setOverride w v))
  ∧ (∀ f src, leaves joint_state_ (faultWatchdog f src))
  ∧ (∀ f src b, leaves joint_state_ (faultWatchdog3 f src b))
  ∧ leaves joint_state_ enableSystem ∧ leaves joint_state_ disableSystem.
Proof. repeat split; intros; leaves_arbiter. Qed.

Lemma leaves_vin_handle c : writes_vin c = false → leaves vin_ (handle c).
Proof.
  intros Hc. destruct leaves_vin_arbiter as (?&?&?&?&?&?).
  destruct c; cbn [handle]; try done;
    try (unfold_encoders; unfold timerCallback; auto 40 with leaves; fail).
  unfold recvCAN. cbn [writes_vin] in Hc. apply leaves_when.
  destruct (id msg) as [r|]; [|apply leaves_ret].
  destruct r; try discriminate Hc; cbn [decoder]; unfold_decoders;
    unfold publishJointStates_wheels, publishJointStates_steering; auto 20 with leaves.
Qed.

Lemma leaves_joints_handle c : writes_joint_state c = false → leaves joint_state_ (handle c).
Proof.
  intros Hc. destruct leaves_joints_arbiter as (?&?&?&?&?&?).
  destruct c; cbn [handle]; try done;
    try (unfold_encoders; unfold timerCallback; auto 40 with leaves; fail).
  unfold recvCAN. cbn [writes_joint_state] in Hc. apply leaves_when.
  destruct (id msg) as [r|]; [|apply leaves_ret].
  destruct r; try discriminate Hc; cbn [decoder]; unfold_decoders; unfold push_digits;
    auto 20 with leaves.
Qed.

(** ** The VIN buffer *)

Lemma vin_recvVinRpt msg s : vin_ s `prefix_of` vin_ (state_of (recvVinRpt msg s)).
Proof.
  eassert (Hr : recvVinRpt msg s = _) by (unfold recvVinRpt, push_digits; exec idtac).
  rewrite Hr. cbn [state_of fst snd]. case_ifs; cbn [vin_ with_vin]; try done;
    by apply prefix_app_r.
Qed.

Lemma vin_handle c s : vin_ s `prefix_of` vin_ (state_of (handle c s)).
Proof.
  destruct (writes_vin c) eqn:Hc; [|by rewrite leaves_vin_handle].
  destruct c; try discriminate Hc. cbn [handle writes_vin] in *. unfold recvCAN.
  destruct (id msg) as [[]|]; try discriminate Hc. cbn [decoder].
  destruct (negb _ && negb _); [apply vin_recvVinRpt | done].
Qed.

Lemma vin_run cs s : vin_ s `prefix_of` vin_ (state_of (run cs s)).
Proof.
  revert s. induction cs as [|c cs IH]; intros s; [done|].
  cbn [run]. rewrite state_of_bind. etrans; [apply vin_handle | apply IH].
Qed.

(** X14. The VIN buffer is never cleared: whatever calls were handled in
    between, a phase-2 frame publishes a string that begins with
    everything the buffer held before them and ends with the three
    characters of that frame. *)
Theorem vin_buffer_only_grows (cs : list Call) (f : Frame) (s : State) :
  GetDlc ID_VIN ≤ dlc f →
  (signal f "DBW_VinMultiplexor" == VIN_MUX_VIN2)%Q →
  ∃ between,
    outputs_of (recvVinRpt f (state_of (run cs s)))
    = [pub_vin (vin_ s ++ between ++ digits_of f vin2_digits)].
Proof.
  intros Hlen Hmux. apply Nat.leb_le in Hlen.
  assert (E0 : Qeq_bool (signal f "DBW_VinMultiplexor") VIN_MUX_VIN0 = false)
    by (by eapply Qeq_bool_ne).
  assert (E1 : Qeq_bool (signal f "DBW_VinMultiplexor") VIN_MUX_VIN1 = false)
    by (by eapply Qeq_bool_ne).
  assert (E2 : Qeq_bool (signal f "DBW_VinMultiplexor") VIN_MUX_VIN2 = true)
    by by apply Qeq_bool_iff.
  destruct (vin_run cs s) as [between Hb]. exists between.
  generalize dependent (state_of (run cs s)). intros s' Hb.
  eassert (Hr : recvVinRpt f s' = _).
  { unfold recvVinRpt, push_digits. rewrite Hlen, E0, E1, E2. exec idtac. }
  rewrite Hr. cbn [outputs_of snd app vin_ with_vin]. rewrite Hb.
  by rewrite <- app_assoc.
Qed.

(** ** The joint-state record *)

Lemma Qtrunc_near q :
  (-1 < q - inject_Z (Qtrunc q))%Q ∧ (q - inject_Z (Qtrunc q) < 1)%Q.
Proof.
  unfold Qtrunc. destruct (Qle_bool 0 q) eqn:E.
  - pose proof (Qfloor_le q) as H1. pose proof (Qlt_floor q) as H2.
    rewrite inject_Z_plus in H2. change (inject_Z 1) with 1%Q in H2.
    revert H1 H2. generalize (inject_Z (Qfloor q)). intros t H1 H2. split.
    + apply Qlt_le_trans with 0%Q; [done|]. by apply (Qle_minus_iff t q).
    + apply (Qplus_lt_l _ _ t). by ring_simplify.
  - pose proof (Qle_ceiling q) as H1. pose proof (Qceiling_lt q) as H2.
    unfold Z.sub in H2. rewrite inject_Z_plus in H2. change (inject_Z (-1)) with (-1)%Q in H2.
    revert H1 H2. generalize (inject_Z (Qceiling q)). intros t H1 H2. split.
    + apply (Qplus_lt_l _ _ t). by ring_simplify.
    + apply Qle_lt_trans with 0%Q; [|done].
      apply (Qplus_le_l _ _ t). by ring_simplify.
Qed.

Lemma fmod_bound x y : (0 < y)%Q → (- y < fmod x y)%Q ∧ (fmod x y < y)%Q.
Proof.
  intros Hy. unfold fmod.
  assert (Hne : ¬ (y == 0)%Q) by (intros E; rewrite E in Hy; by apply (Qlt_irrefl 0)).
  destruct (Qtrunc_near (x / y)) as [H1 H2].
  revert H1 H2. generalize (inject_Z (Qtrunc (x / y))). intros t H1 H2.
  assert (E : (x - t * y == (x / y - t) * y)%Q) by (field; exact Hne).
  rewrite E. split.
  - apply Qle_lt_trans with (-1 * y)%Q; [|by apply Qmult_lt_compat_r].
    setoid_replace (-1 * y)%Q with (- y)%Q using relation Qeq by ring. apply Qle_refl.
  - apply Qlt_le_trans with (1 * y)%Q; [by apply Qmult_lt_compat_r|].
    rewrite Qmult_1_l. apply Qle_refl.
Qed.

Lemma rdq_insert_eq (a : list Q) i v : i < length a → rdq (<[i := v]> a) i = v.
Proof. intros Hi. unfold rdq. by rewrite list_lookup_insert_eq. Qed.
Lemma rdq_insert_ne (a : list Q) i j v : i ≠ j → rdq (<[i := v]> a) j = rdq a j.
Proof. intros Hij. unfold rdq. by rewrite list_lookup_insert_ne. Qed.

Lemma length_integrate dt vel pos : length (integrate dt vel pos) = length pos.
Proof. unfold integrate. cbn [seq foldl Nat.sub JOINT_FL JOINT_RR]. by rewrite !length_insert. Qed.

Lemma two_pi_pos : (0 < 2 * M_PI)%Q.
Proof. reflexivity. Qed.

Lemma integrate_wheel dt vel pos i :
  length pos = JOINT_COUNT → i ≤ JOINT_RR → wrapped (rdq (integrate dt vel pos) i).
Proof.
  intros Hlen Hi. unfold integrate, JOINT_RR, JOINT_COUNT in *.
  cbn [seq foldl Nat.sub JOINT_FL].
  destruct i as [|[|[|[|i]]]]; [..|lia];
    rewrite ?rdq_insert_ne by lia;
    (rewrite rdq_insert_eq by (rewrite ?length_insert; lia));
    apply fmod_bound, two_pi_pos.
Qed.

Ltac joints_cbn :=
  unfold with_joint_state; cbn [state_of fst snd joint_state_ position velocity].

Lemma joints_ok_wheels st fl fr rl rr s :
  joints_ok s → joints_ok (state_of (publishJointStates_wheels st fl fr rl rr s)).
Proof.
  intros (Hp & Hv & Hw). rewrite publishJointStates_wheels_eq.
  destruct (Qltb _ _); (split; [|split]); joints_cbn;
    rewrite ?length_integrate, ?length_insert; try done.
  intros i Hi. by apply integrate_wheel.
Qed.

Lemma joints_ok_steering st a s :
  joints_ok s → joints_ok (state_of (publishJointStates_steering st a s)).
Proof.
  intros (Hp & Hv & Hw).
  eassert (Hr : publishJointStates_steering st a s = _)
    by (unfold publishJointStates_steering; exec idtac).
  rewrite Hr. clear Hr.
  destruct (Qltb _ _); (split; [|split]); joints_cbn;
    rewrite ?length_integrate, ?length_insert; try done.
  - intros i Hi. apply integrate_wheel; [by rewrite !length_insert | done].
  - intros i Hi. unfold JOINT_RR in Hi.
    rewrite !rdq_insert_ne by (unfold JOINT_SR, JOINT_SL; lia). by apply Hw.
Qed.

Lemma joints_ok_leaves {A} (c : M A) s :
  leaves joint_state_ c → joints_ok s → joints_ok (state_of (c s)).
Proof. intros Hc Hs. unfold joints_ok. rewrite (Hc s). exact Hs. Qed.

Lemma joints_ok_bind {A B} (c : M A) (k : A → M B) s :
  (∀ s, joints_ok s → joints_ok (state_of (c s))) →
  (∀ a s, joints_ok s → joints_ok (state_of (k a s))) →
  joints_ok s → joints_ok (state_of (bind c k s)).
Proof. intros Hc Hk Hs. rewrite state_of_bind. by apply Hk, Hc. Qed.

Lemma joints_ok_handle c s : joints_ok s → joints_ok (state_of (handle c s)).
Proof.
  destruct (writes_joint_state c) eqn:Hc; [|by apply joints_ok_leaves, leaves_joints_handle].
  destruct leaves_joints_arbiter as (?&?&?&?&?&?).
  destruct c; try discriminate Hc. cbn [handle writes_joint_state] in *. unfold recvCAN.
  destruct (negb _ && negb _); [|done]. cbn [when].
  destruct (id msg) as [[]|]; try discriminate Hc; cbn [decoder]; unfold_decoders;
    (destruct (_ <=? _); [|done]); cbn [when]; revert s.
  - intros s. do 4 (apply joints_ok_bind; [intros ?; apply joints_ok_leaves; auto with leaves
                                           | intros ? ?]).
    apply joints_ok_bind; [intros ?; apply joints_ok_steering | intros ? ?].
    apply joints_ok_leaves. auto with leaves.
  - intros s. apply joints_ok_bind; [intros ?; apply joints_ok_leaves; auto with leaves
                                    | intros ? ?].
    apply joints_ok_wheels.
Qed.

Lemma joints_ok_run cs s : joints_ok s → joints_ok (state_of (run cs s)).
Proof.
  revert s. induction cs as [|c cs IH]; intros s Hs; [done|].
  cbn [run]. rewrite state_of_bind. by apply IH, joints_ok_handle.
Qed.

(** X15. The joint-state record keeps its six positions and six
    velocities, and its four wheel positions stay strictly within one turn
    (2 pi) either way: every call preserves this, so from a state in which
    it holds it holds after every call sequence. *)
Theorem wheel_positions_stay_wrapped (cs : list Call) (s : State) :
  joints_ok s → joints_ok (state_of (run cs s)).
Proof. apply joints_ok_run. Qed.

Lemma constructed_joints_ok cfg dbc : joints_ok (state_of (RaptorDbwCAN cfg dbc)).
Proof.
  split; [done|]. split; [done|]. intros i Hi. unfold JOINT_RR in Hi.
  destruct i as [|[|[|[|i]]]]; [..|lia]; by split.
Qed.

Lemma synced_run cs s : wf s → synced s → synced (state_of (run cs s)).
Proof.
  revert s. induction cs as [|c cs IH]; intros s Hwf Hs; [done|].
  cbn [run]. rewrite state_of_bind. apply IH.
  - by apply edge_handle.
  - by apply keeps_synced_handle.
Qed.

(** X18. The constructor establishes what the call sequences preserve:
    after any calls on a freshly constructed node, whatever its
    configuration and message table, the three flag arrays have their
    sizes, the last-published value agrees with [enabled()], no serious
    fault is latched while the system is enabled, and the joint-state
    record has its six joints with the wheel positions within one turn. *)
Theorem constructed_node_invariants
    (cfg : Config) (dbc : gmap string (gmap string Q)) (cs : list Call) :
  wf (state_of (run cs (state_of (RaptorDbwCAN cfg dbc))))
  ∧ synced (state_of (run cs (state_of (RaptorDbwCAN cfg dbc))))
  ∧ fault_free_when_enabled (state_of (run cs (state_of (RaptorDbwCAN cfg dbc))))
  ∧ joints_ok (state_of (run cs (state_of (RaptorDbwCAN cfg dbc)))).
Proof.
  destruct (constructed_wf_synced cfg dbc) as (Hwf & Hs & He).
  split; [by apply edge_run|]. split; [by apply synced_run|]. split.
  - apply keeps_fault_free_run; [done|]. by apply fault_free_disabled.
  - apply joints_ok_run, constructed_joints_ok.
Qed.

(** ** Published reports *)

Lemma report_stamps_app o1 o2 :
  report_stamps (o1 ++ o2) = report_stamps o1 ++ report_stamps o2.
Proof. apply omap_app. Qed.

Lemma no_report_ret {A} (a : A) : no_report (ret a).
Proof. by intros s. Qed.
Lemma no_report_get {A} (f : State → A) : no_report (get f).
Proof. by intros s. Qed.
Lemma no_report_modify f : no_report (modify f).
Proof. by intros s. Qed.
Lemma no_report_emit o :
  match o with pub_report _ _ => False | _ => True end → no_report (emit o).
Proof. intros Ho s. by destruct o. Qed.
Lemma no_report_bind {A B} (c : M A) (k : A → M B) :
  no_report c → (∀ a, no_report (k a)) → no_report (bind c k).
Proof. intros Hc Hk s. by rewrite outputs_of_bind, report_stamps_app, Hc, Hk. Qed.
Lemma no_report_when b (c : M unit) : no_report c → no_report (when b c).
Proof. destruct b; [done | by intros _ s]. Qed.
Lemma no_report_if {A} (b : bool) (c1 c2 : M A) :
  no_report c1 → no_report c2 → no_report (if b then c1 else c2).
Proof. by destruct b. Qed.

Create HintDb reports discriminated.
Hint Resolve no_report_ret no_report_get no_report_modify no_report_when no_report_if : reports.
Hint Extern 1 (no_report (emit _)) => apply no_report_emit; exact I : reports.
Hint Extern 2 (no_report (bind _ _)) => apply no_report_bind; [| intros ?] : reports.

Lemma no_report_log_faults idx : no_report (for_each idx log_asserted_fault).
Proof.
  induction idx as [|i idx IH]; cbn [for_each]; [apply no_report_ret|].
  unfold log_asserted_fault. auto 10 with reports.
Qed.
Hint Resolve no_report_log_faults : reports.

Lemma no_report_arbiter :
  (∀ w v, no_report (setFault w v)) ∧ (∀ w v, no_report (setOverride w v))
  ∧ (∀ f src, no_report (faultWatchdog f src))
  ∧ (∀ st a b c d, no_report (publishJointStates_wheels st a b c d))
  ∧ (∀ st a, no_report (publishJointStates_steering st a)).
Proof.
  repeat split; intros;
    unfold faultWatchdog, faultWatchdog3, setFault, setOverride, publishDbwEnabled,
      publishJointStates_wheels, publishJointStates_steering;
    auto 40 with reports.
Qed.

Lemma report_stamps_publish topic msg fields s :
  report_stamps (outputs_of (publish topic msg fields s)) = [(topic, stamp msg)].
Proof. reflexivity. Qed.

Ltac report_steps :=
  repeat first
    [ rewrite outputs_of_bind
    | rewrite report_stamps_app
    | rewrite report_stamps_publish
    | match goal with
      | H : ∀ w v, no_report (setFault w v) |- context [setFault ?w ?v ?s] =>
          rewrite (H w v s)
      | H : ∀ w v, no_report (setOverride w v) |- context [setOverride ?w ?v ?s] =>
          rewrite (H w v s)
      | H : ∀ f src, no_report (faultWatchdog f src) |- context [faultWatchdog ?f ?src ?s] =>
          rewrite (H f src s)
      | H : ∀ st a b c d, no_report (publishJointStates_wheels st a b c d)
        |- context [publishJointStates_wheels ?st ?a ?b ?c ?d ?s] =>
          rewrite (H st a b c d s)
      | H : ∀ st a, no_report (publishJointStates_steering st a)
        |- context [publishJointStates_steering ?st ?a ?s] =>
          rewrite (H st a s)
      | |- context [report_stamps (outputs_of (when ?b ?c ?s))] =>
          rewrite (no_report_when b c ltac:(auto with reports) s)
      end ].

(** X16. Every accepted frame of a report other than the VIN is
    republished exactly once, as one report that carries the time stamp of
    the frame. *)
Theorem accepted_report_is_published_once (r : ReportId) (msg : Frame) (s : State) :
  r ≠ ID_VIN → required_dlc r ≤ dlc msg →
  ∃ topic, report_stamps (outputs_of (decoder r msg s)) = [(topic, stamp msg)].
Proof.
  intros Hr Hlen. apply Nat.leb_le in Hlen.
  destruct no_report_arbiter as (?&?&?&?&?).
  destruct r; try done; cbn [decoder required_dlc] in *; unfold_decoders;
    rewrite Hlen; cbn [when]; report_steps; cbn [app]; by eexists.
Qed.

(** ** Enable and disable *)

Lemma two_flags (a : list bool) :
  length a = NUM_ENABLES → a = [rd a EN_DBW; rd a EN_DBW_PREV].
Proof. destruct a as [|x [|y [|z a]]]; try done. Qed.

(** X17. An enable request followed by a disable request leaves the node
    in the state it started from, when it started inactive with
    last-published value false: whether the request was accepted or
    rejected for a fault, nothing of it is left behind. *)
Theorem enable_then_disable_restores_state (s : State) :
  wf s → rd (enables_ s) EN_DBW = false → shadow s = false →
  state_of (run [call_recvEnable; call_recvDisable] s) = s.
Proof.
  intros Hwf Ha Hp. pose proof (two_flags _ (wf_enables _ Hwf)) as He.
  rewrite Ha, shadow_eq, Hp in He.
  cbn [run handle]. rewrite !state_of_bind. cbn [ret state_of fst snd].
  destruct (fault s) eqn:Hf.
  { rewrite enableSystem_rejected by done. cbn [state_of fst snd].
    eassert (Hr : disableSystem s = _) by (unfold disableSystem; exec ltac:(rewrite ?Ha)).
    by rewrite Hr. }
  eassert (Hr : enableSystem s = _)
    by (unfold enableSystem; exec ltac:(rewrite ?Ha, ?Hf)).
  rewrite Hr. clear Hr. cbn [state_of fst snd negb]. rewrite !if_same.
  eassert (Hr : disableSystem _ = _) by (unfold disableSystem; exec idtac).
  rewrite Hr. clear Hr. cbn [state_of fst snd].
  destruct s as [en ov fl dbc vin js cfg]. cbn in He. subst en.
  vm_compute. reflexivity.
Qed.

(** ** The timer, frame by frame *)

(** X19. A timer tick changes nothing but the stored messages and
    publishes frames only: none while [clear()] does not hold, and
    otherwise exactly one for each subsystem whose override is flagged, in
    the order brake, accelerator pedal, steering, gear, dump bed, engine. *)
Theorem timer_sends_one_frame_per_override (s : State) :
  omap frame_name (outputs_of (timerCallback s))
  = (if clear s
     then map snd (List.filter (λ p, rd (overrides_ s) p.1) timer_table)
     else [])
  ∧ length (outputs_of (timerCallback s))
    = length (omap frame_name (outputs_of (timerCallback s)))
  ∧ arbitration (state_of (timerCallback s)) = arbitration s
  ∧ vin_ (state_of (timerCallback s)) = vin_ s
  ∧ joint_state_ (state_of (timerCallback s)) = joint_state_ s.
Proof.
  destruct (timerCallback_frames s) as [Hall Hnames].
  split; [exact Hnames|]. split; [|split; [|split]].
  - clear Hnames. induction Hall as [|o l [n Ho] _ IH]; [done|].
    cbn [omap list_omap length]. rewrite Ho. cbn [length]. by rewrite IH.
  - apply untouched_timerCallback.
  - apply (leaves_vin_handle call_timerCallback eq_refl).
  - apply (leaves_joints_handle call_timerCallback eq_refl).
Qed.

(** ** The two producers of the joint-state record *)

Lemma rdq_integrate_other dt vel pos i :
  JOINT_RR < i → rdq (integrate dt vel pos) i = rdq pos i.
Proof.
  intros Hi. unfold integrate, JOINT_RR, JOINT_FL in *. cbn [seq foldl Nat.sub].
  by rewrite !rdq_insert_ne by lia.
Qed.

Lemma rdq_integrate_wheel dt vel pos i :
  length pos = JOINT_COUNT → i ≤ JOINT_RR →
  rdq (integrate dt vel pos) i = fmod (rdq pos i + dt * rdq vel i) (2 * M_PI).
Proof.
  intros Hlen Hi. unfold integrate, JOINT_RR, JOINT_COUNT, JOINT_FL in *.
  cbn [seq foldl Nat.sub].
  destruct i as [|[|[|[|i]]]]; [..|lia];
    rewrite ?rdq_insert_ne by lia;
    (rewrite rdq_insert_eq by (rewrite ?length_insert; lia));
    by rewrite ?rdq_insert_ne by lia.
Qed.

(** X20. What each of the two producers writes in the joint-state record
    they share. Both replace the time stamp, and both advance the four
    wheel positions by velocity times [dt], modulo 2 pi, when their [dt] is
    below one half: the steering report too, with the velocities stored.
    A wheel-speed report stores the four wheel speeds it carries and leaves
    the two steer joints as they were, in position and in velocity; a
    steering report leaves every velocity as it was. *)
Theorem what_each_joint_producer_writes
    (st : Stamp) (fl fr rl rr a : Q) (s : State) :
  length (position (joint_state_ s)) = JOINT_COUNT →
  length (velocity (joint_state_ s)) = JOINT_COUNT →
  let js := joint_state_ s in
  let dt := (seconds st - inject_Z (sec (js_stamp js)))%Q in
  let w := joint_state_ (state_of (publishJointStates_wheels st fl fr rl rr s)) in
  let t := joint_state_ (state_of (publishJointStates_steering st a s)) in
  js_stamp w = st
  ∧ map (rdq (velocity w)) [JOINT_FL; JOINT_FR; JOINT_RL; JOINT_RR] = [fl; fr; rl; rr]
  ∧ (∀ i, JOINT_RR < i →
       rdq (position w) i = rdq (position js) i ∧ rdq (velocity w) i = rdq (velocity js) i)
  ∧ (∀ i, i ≤ JOINT_RR →
       rdq (position w) i
       = if Qltb dt (1 # 2)
         then fmod (rdq (position js) i + dt * rdq (velocity w) i) (2 * M_PI)
         else rdq (position js) i)
  ∧ js_stamp t = st
  ∧ velocity t = velocity js
  ∧ (∀ i, i ≤ JOINT_RR →
       rdq (position t) i
       = if Qltb dt (1 # 2)
         then fmod (rdq (position js) i + dt * rdq (velocity js) i) (2 * M_PI)
         else rdq (position js) i).
Proof.
  intros Hp Hv js dt w t. subst js dt w t.
  rewrite publishJointStates_wheels_eq.
  eassert (Hr : publishJointStates_steering st a s = _)
    by (unfold publishJointStates_steering; exec idtac).
  rewrite Hr. clear Hr.
  refine (conj _ (conj _ (conj _ (conj _ (conj _ (conj _ _)))))).
  - reflexivity.
  - joints_cbn. unfold JOINT_COUNT in Hv. cbn [map].
    repeat f_equal;
      rewrite ?rdq_insert_ne by (unfold JOINT_RR, JOINT_RL, JOINT_FR, JOINT_FL; lia);
      (rewrite rdq_insert_eq
         by (rewrite ?length_insert, Hv; unfold JOINT_RR, JOINT_RL, JOINT_FR, JOINT_FL; lia));
      reflexivity.
  - intros i Hi. joints_cbn. unfold JOINT_RR in Hi. split.
    + destruct (Qltb _ _); [rewrite rdq_integrate_other by done|]; reflexivity.
    + by rewrite !rdq_insert_ne by (unfold JOINT_RR, JOINT_RL, JOINT_FR, JOINT_FL; lia).
  - intros i Hi. joints_cbn. destruct (Qltb _ _); [|reflexivity].
    by apply rdq_integrate_wheel.
  - by destruct (Qltb _ _).
  - by destruct (Qltb _ _).
  - intros i Hi. destruct (Qltb _ _); joints_cbn.
    + rewrite rdq_integrate_wheel; [|by rewrite !length_insert|done].
      unfold JOINT_RR in Hi.
      by rewrite !rdq_insert_ne by (unfold JOINT_SR, JOINT_SL; lia).
    + unfold JOINT_RR in Hi.
      by rewrite !rdq_insert_ne by (unfold JOINT_SR, JOINT_SL; lia).
Qed.

End Sequences.

(** ** Closed instances *)

Lemma passive_calls_leave_arbitration_witness :
  arbitration (state_of (handle (ext := sample_externals)
                           (call_recvBrakeCmd brake_torque_50) sample_enabled))
  = arbitration sample_enabled.
Proof.
  exact (proj1 (passive_calls_leave_arbitration (ext := sample_externals)
                  (call_recvBrakeCmd brake_torque_50) sample_enabled eq_refl)).
Defined.

Lemma state_changes_alternate_witness :
  tracks false
    (outputs_of (run (ext := sample_externals)
       [call_recvEnable; call_recvCAN brake_report_driver_active; call_recvEnable;
        call_recvDisable] sample_start))
  = Some false.
Proof.
  assert (Hwf : wf sample_start) by (by split).
  assert (Hs : synced sample_start) by reflexivity.
  exact (proj2 (proj2 (state_changes_alternate (ext := sample_externals)
    [call_recvEnable; call_recvCAN brake_report_driver_active; call_recvEnable;
     call_recvDisable] sample_start Hwf Hs))).
Defined.

Lemma enabled_means_no_serious_fault_witness :
  fault_free_when_enabled
    (state_of (run (ext := sample_externals)
       [call_recvCAN brake_report_driver_active; call_recvEnable;
        call_setFault FAULT_STEER true] sample_enabled)).
Proof.
  assert (Hwf : wf sample_enabled) by (by split).
  assert (Hs : fault_free_when_enabled sample_enabled).
  { intros _ i Hi. unfold NUM_SERIOUS_FAULTS in Hi.
    do 8 (destruct i as [|i]; [reflexivity|]). lia. }
  exact (enabled_means_no_serious_fault (ext := sample_externals) _ sample_enabled Hwf Hs).
Defined.

Lemma watchdog_latches_witness :
  rd (faults_ (state_of (faultWatchdog3 (ext := sample_externals) true 1 false sample_enabled)))
     FAULT_WATCH_WARN = true.
Proof.
  assert (Hwf : wf sample_enabled) by (by split).
  exact (proj1 (proj2 (proj2
           (watchdog_latches (ext := sample_externals) true 1 false sample_enabled Hwf)))).
Defined.

Lemma braking_bit_is_never_written_witness :
  rd (faults_ (state_of (run (ext := sample_externals)
        [call_recvEnable; call_recvCAN brake_report_driver_active; call_timerCallback]
        sample_start))) FAULT_WATCH_BRAKES
  = rd (faults_ sample_start) FAULT_WATCH_BRAKES.
Proof.
  exact (proj1 (braking_bit_is_never_written (ext := sample_externals)
    [call_recvEnable; call_recvCAN brake_report_driver_active; call_timerCallback]
    sample_start eq_refl)).
Defined.

Lemma repeated_command_repeats_frame_witness :
  outputs_of (handle (ext := sample_externals) (call_recvBrakeCmd brake_torque_50)
                (state_of (handle (ext := sample_externals)
                             (call_recvBrakeCmd brake_torque_50) sample_enabled)))
  = outputs_of (handle (ext := sample_externals)
                  (call_recvBrakeCmd brake_torque_50) sample_enabled).
Proof.
  exact (repeated_command_repeats_frame (ext := sample_externals)
           (call_recvBrakeCmd brake_torque_50) sample_enabled "AKit_BrakeRequest" eq_refl).
Defined.

Lemma commands_do_not_interfere_witness :
  outputs_of (handle (ext := sample_externals) (call_recvBrakeCmd brake_torque_50)
                (state_of (handle (ext := sample_externals)
                             (call_recvSteeringCmd (steering_with_velocity 7))
                             sample_enabled)))
  = outputs_of (handle (ext := sample_externals)
                  (call_recvBrakeCmd brake_torque_50) sample_enabled).
Proof.
  refine (commands_do_not_interfere (ext := sample_externals)
            (call_recvSteeringCmd (steering_with_velocity 7))
            (call_recvBrakeCmd brake_torque_50) sample_enabled
            "AKit_SteeringRequest" "AKit_BrakeRequest" eq_refl eq_refl _).
  discriminate.
Defined.

Lemma angle_requests_stay_in_range_witness :
  ∃ v, frame_signal "AKit_SteeringWhlAngleReq"
         (outputs_of (recvSteeringCmd (ext := sample_externals)
                        (steering_with_velocity 7) sample_enabled)) = Some v
       ∧ (- max_steer_angle_ (config_ sample_enabled) <= v)%Q
       ∧ (v <= max_steer_angle_ (config_ sample_enabled))%Q.
Proof.
  refine (proj1 (angle_requests_stay_in_range (ext := sample_externals) sample_enabled
                   _ _ _) (steering_with_velocity 7)); vm_compute; discriminate.
Defined.

Lemma angle_inside_range_is_sent_as_is_witness :
  ∃ v, frame_signal "AKit_SteeringWhlAngleReq"
         (outputs_of (recvSteeringCmd (ext := sample_externals)
                        (steering_with_velocity 7) sample_enabled)) = Some v
       ∧ (v == SteeringCmd.angle_cmd (steering_with_velocity 7))%Q.
Proof.
  refine (proj1 (angle_inside_range_is_sent_as_is (ext := sample_externals) sample_enabled
                   eq_refl) (steering_with_velocity 7) eq_refl eq_refl _ _);
    vm_compute; discriminate.
Defined.

Lemma timer_neutralises_dump_bed_and_engine_witness :
  ∃ m, pub_can "AKit_EngineRequest" m
         ∈ outputs_of (timerCallback (with_overrides (<[OVR_ENGINE := true]>) sample_start))
       ∧ ∀ sg, sg ∈ engine_zero → m !! sg = Some 0%Q.
Proof.
  exact (proj2 (timer_neutralises_dump_bed_and_engine
                  (with_overrides (<[OVR_ENGINE := true]>) sample_start) eq_refl) eq_refl).
Defined.


Lemma cells_written_by_a_report_witness :
  overrides_ (state_of (decoder (ext := sample_externals) ID_BRAKE_REPORT
                          brake_report_driver_active sample_enabled))
  = written (override_writes ID_BRAKE_REPORT brake_report_driver_active)
            (overrides_ sample_enabled).
Proof.
  assert (Hwf : wf sample_enabled) by (by split).
  refine (proj2 (proj2 (proj2 (cells_written_by_a_report (ext := sample_externals)
                   ID_BRAKE_REPORT brake_report_driver_active sample_enabled Hwf _)))).
  vm_compute. lia.
Defined.

Lemma vin_buffer_only_grows_witness :
  ∃ between,
    outputs_of (recvVinRpt (ext := sample_externals) (vin_frame 2)
                  (state_of (run (ext := sample_externals)
                     [call_recvCAN (vin_frame 0); call_recvCAN (vin_frame 1);
                      call_recvCAN (vin_frame 2); call_recvCAN (vin_frame 0)]
                     sample_start)))
    = [pub_vin (vin_ sample_start ++ between ++ digits_of (vin_frame 2) vin2_digits)].
Proof.
  refine (vin_buffer_only_grows (ext := sample_externals)
            [call_recvCAN (vin_frame 0); call_recvCAN (vin_frame 1);
             call_recvCAN (vin_frame 2); call_recvCAN (vin_frame 0)]
            (vin_frame 2) sample_start _ _).
  - vm_compute. lia.
  - reflexivity.
Defined.

Lemma wheel_positions_stay_wrapped_witness :
  joints_ok (state_of (run (ext := sample_externals)
                         [call_recvCAN (wheel_speed_frame {| sec := 0; nanosec := 100000000 |} 100)]
                         sample_start)).
Proof.
  exact (wheel_positions_stay_wrapped (ext := sample_externals) _ sample_start
           (constructed_joints_ok sample_config ∅)).
Defined.

Lemma accepted_report_is_published_once_witness :
  ∃ topic,
    report_stamps (outputs_of (decoder (ext := sample_externals) ID_BRAKE_REPORT
                                 brake_report_driver_active sample_enabled))
    = [(topic, stamp brake_report_driver_active)].
Proof.
  refine (accepted_report_is_published_once (ext := sample_externals) ID_BRAKE_REPORT
            brake_report_driver_active sample_enabled _ _).
  - discriminate.
  - vm_compute. lia.
Defined.

Lemma enable_then_disable_restores_state_witness :
  state_of (run (ext := sample_externals) [call_recvEnable; call_recvDisable] sample_start)
  = sample_start.
Proof.
  assert (Hwf : wf sample_start) by (by split).
  exact (enable_then_disable_restores_state (ext := sample_externals) sample_start
           Hwf eq_refl eq_refl).
Defined.

Lemma what_each_joint_producer_writes_witness :
  velocity (joint_state_ (state_of (publishJointStates_steering (ext := sample_externals)
                                      {| sec := 1; nanosec := 0 |} 10 sample_start)))
  = velocity (joint_state_ sample_start).
Proof.
  exact (proj1 (proj2 (proj2 (proj2 (proj2 (proj2
           (what_each_joint_producer_writes (ext := sample_externals)
              {| sec := 1; nanosec := 0 |} 0 0 0 0 10 sample_start eq_refl eq_refl))))))).
Defined.
